(** * Brew Station: normalisers and sheet handlers of [src/App.tsx]

    A shallow embedding of the helpers, the normalisers and the vitals,
    casting and coin handlers of the character sheet of [App.tsx], with
    the properties its specification states about them.

    Conventions of the embedding.

    - A JavaScript number is [NaN], an infinity or a finite value.  Finite
      values are rationals in lowest terms (every finite double is one), so
      that two finite numbers are equal exactly when [===] says so.  Comparisons,
      [Math.min], [Math.max] and [Math.floor] are exact on doubles and are
      modelled exactly; [+], [-] and [/] are modelled by the exact
      operation, which is what the program computes whenever the exact
      result is a double (integers below 2^53 in particular).  Coin counts
      have no upper bound, so there the rounding of the result is
      observable: the bank handlers use [add64] and [sub64], the exact
      result rounded to the nearest double, ties to even, as IEEE 754
      binary64 prescribes.  The sign of zero is not modelled.
    - A JavaScript string is a [string]: a sequence of 8-bit characters.
      White space and the case mappings are those of ECMAScript on ASCII;
      characters from 128 up are carried through unchanged.
    - The text of a number ([String(n)]) and the number of a text
      ([Number(s)]) are the two fields of the class [Conversions], left
      abstract: every statement holds whatever these two conversions are.
    - Randomness ([crypto.randomUUID], [crypto.getRandomValues],
      [Math.random]) is read from an explicit [Entropy] argument. *)

From Stdlib Require Import ZArith QArith Qcanon Qround Bool List String Ascii Lia.
From Stdlib Require SpecFloat.
Import ListNotations.

Set Warnings "-register-all".

(** ** JavaScript numbers *)

Module JsNumber.

Inductive num : Type :=
| NaN
| PosInf
| NegInf
| Fin (q : Qc).

Definition of_Q (q : Q) : num := Fin (Q2Qc q).
Definition of_Z (z : Z) : num := of_Q (inject_Z z).

Definition qle (p q : Qc) : bool := Qle_bool p q.
Definition qeq (p q : Qc) : bool := Qeq_bool p q.

(** [Number.isFinite] on a value already known to be a number. *)
Definition isFinite (n : num) : bool :=
  match n with
  | Fin _ => true
  | _ => false
  end.

Definition Math_min (a b : num) : num :=
  match a, b with
  | NaN, _ | _, NaN => NaN
  | NegInf, _ | _, NegInf => NegInf
  | PosInf, x => x
  | x, PosInf => x
  | Fin p, Fin q => if qle p q then a else b
  end.

Definition Math_max (a b : num) : num :=
  match a, b with
  | NaN, _ | _, NaN => NaN
  | PosInf, _ | _, PosInf => PosInf
  | NegInf, x => x
  | x, NegInf => x
  | Fin p, Fin q => if qle p q then b else a
  end.

Definition Math_floor (a : num) : num :=
  match a with
  | Fin q => of_Z (Qfloor q)
  | _ => a
  end.

Definition neg (a : num) : num :=
  match a with
  | NaN => NaN
  | PosInf => NegInf
  | NegInf => PosInf
  | Fin q => Fin (- q)%Qc
  end.

Definition add (a b : num) : num :=
  match a, b with
  | NaN, _ | _, NaN => NaN
  | PosInf, NegInf | NegInf, PosInf => NaN
  | PosInf, _ | _, PosInf => PosInf
  | NegInf, _ | _, NegInf => NegInf
  | Fin p, Fin q => Fin (p + q)%Qc
  end.

Definition sub (a b : num) : num :=
  match a, b with
  | NaN, _ | _, NaN => NaN
  | PosInf, PosInf | NegInf, NegInf => NaN
  | PosInf, _ | _, NegInf => PosInf
  | NegInf, _ | _, PosInf => NegInf
  | Fin p, Fin q => Fin (p - q)%Qc
  end.

Definition sign_inf (positive : bool) : num :=
  if positive then PosInf else NegInf.

Definition div (a b : num) : num :=
  match a, b with
  | NaN, _ | _, NaN => NaN
  | Fin p, Fin q =>
      if qeq q (Q2Qc 0)
      then (if qeq p (Q2Qc 0) then NaN else sign_inf (negb (qle p (Q2Qc 0))))
      else Fin (p / q)%Qc
  | Fin _, _ => of_Z 0
  | PosInf, Fin q => sign_inf (qle (Q2Qc 0) q)
  | NegInf, Fin q => sign_inf (negb (qle (Q2Qc 0) q))
  | _, _ => NaN
  end.

(** The relational operators [<=] and [<]: false as soon as an operand
    is [NaN]. *)
Definition le (a b : num) : bool :=
  match a, b with
  | NaN, _ | _, NaN => false
  | NegInf, _ | _, PosInf => true
  | Fin p, Fin q => qle p q
  | _, _ => false
  end.

Definition lt (a b : num) : bool :=
  match a, b with
  | NaN, _ | _, NaN => false
  | _, _ => negb (le b a)
  end.

(** Strict equality [===] of two numbers. *)
Definition eq (a b : num) : bool :=
  match a, b with
  | PosInf, PosInf | NegInf, NegInf => true
  | Fin p, Fin q => qeq p q
  | _, _ => false
  end.

(** A finite number with no fractional part. *)
Definition isInteger (a : num) : bool :=
  match a with
  | Fin q => qeq (Q2Qc (inject_Z (Qfloor q))) q
  | _ => false
  end.

(** [clamp] (App.tsx, line 240). *)
Definition clamp (n min max : num) : num :=
  if negb (isFinite n) then min
  else Math_max min (Math_min max n).

(** [modFromScore] (App.tsx, line 245). *)
Definition modFromScore (score : num) : num :=
  Math_floor (div (sub score (of_Z 10)) (of_Z 2)).

(** *** Rounding to a double

    The double nearest to a rational: IEEE 754 binary64, round to nearest,
    ties to even.  A double is [m * 2^p] with [|m| < 2^53] and
    [-1074 <= p <= 971]; whatever reaches [2^1024] in magnitude after
    rounding is an infinity. *)

(** [n / d] rounded to the nearest integer, a tie to the even one
    ([0 <= n], [0 < d]). *)
Definition roundHalfEven (n d : Z) : Z :=
  let q := (n / d)%Z in
  match (2 * (n mod d) ?= d)%Z with
  | Lt => q
  | Gt => (q + 1)%Z
  | Eq => if Z.even q then q else (q + 1)%Z
  end.

(** The exponent [e] with [2^e <= n / d < 2^(e+1)] ([0 < n], [0 < d]). *)
Definition binade (n d : Z) : Z :=
  let e := (Z.log2 n - Z.log2 d)%Z in
  if (d * 2 ^ Z.max 0 e <=? n * 2 ^ Z.max 0 (- e))%Z then e else (e - 1)%Z.

(** [2^53]: every integer up to it in magnitude is a double. *)
Definition exactBound : Z := 9007199254740992.

Definition round64 (q : Qc) : num :=
  let n := Z.abs (Qnum q) in
  let d := Zpos (Qden q) in
  if (n =? 0)%Z then Fin q
  else
    let p := Z.max (binade n d - 52) (-1074) in
    let m := roundHalfEven (n * 2 ^ Z.max 0 (- p)) (d * 2 ^ Z.max 0 p) in
    if (2 ^ 1024 <=? m * 2 ^ Z.max 0 p)%Z
    then sign_inf (0 <? Qnum q)%Z
    else of_Q (Qred ((Z.sgn (Qnum q) * m * 2 ^ Z.max 0 p) # Z.to_pos (2 ^ Z.max 0 (- p)))).

(** [a + b] and [a - b] as the machine computes them: the exact result,
    rounded. *)
Definition add64 (a b : num) : num :=
  match add a b with
  | Fin q => round64 q
  | r => r
  end.

Definition sub64 (a b : num) : num :=
  match sub a b with
  | Fin q => round64 q
  | r => r
  end.

End JsNumber.
Export JsNumber.

(** ** JavaScript strings *)

Module JsString.

Local Open Scope string_scope.

Definition code (c : ascii) : nat := nat_of_ascii c.

Definition between (lo hi n : nat) : bool := Nat.leb lo n && Nat.leb n hi.

(** White space and line terminators stripped by [trim]: TAB, LF, VT, FF,
    CR and SPACE. *)
Definition isWhiteSpace (c : ascii) : bool :=
  between 9 13 (code c) || Nat.eqb (code c) 32.

Definition isUpper (c : ascii) : bool := between 65 90 (code c).
Definition isLower (c : ascii) : bool := between 97 122 (code c).
Definition isDigit (c : ascii) : bool := between 48 57 (code c).

Definition upperChar (c : ascii) : ascii :=
  if isLower c then ascii_of_nat (code c - 32) else c.

Definition lowerChar (c : ascii) : ascii :=
  if isUpper c then ascii_of_nat (code c + 32) else c.

Fixpoint mapChars (f : ascii -> ascii) (s : string) : string :=
  match s with
  | EmptyString => EmptyString
  | String c s' => String (f c) (mapChars f s')
  end.

Fixpoint filterChars (p : ascii -> bool) (s : string) : string :=
  match s with
  | EmptyString => EmptyString
  | String c s' => if p c then String c (filterChars p s') else filterChars p s'
  end.

Fixpoint allChars (p : ascii -> bool) (s : string) : bool :=
  match s with
  | EmptyString => true
  | String c s' => p c && allChars p s'
  end.

Definition toUpperCase (s : string) : string := mapChars upperChar s.
Definition toLowerCase (s : string) : string := mapChars lowerChar s.

Fixpoint trimStart (s : string) : string :=
  match s with
  | EmptyString => EmptyString
  | String c s' => if isWhiteSpace c then trimStart s' else s
  end.

Fixpoint trimEnd (s : string) : string :=
  match s with
  | EmptyString => EmptyString
  | String c s' =>
      match trimEnd s' with
      | EmptyString => if isWhiteSpace c then EmptyString else String c EmptyString
      | r => String c r
      end
  end.

Definition trim (s : string) : string := trimEnd (trimStart s).

(** [s.slice(0, n)]. *)
Fixpoint sliceTo (n : nat) (s : string) : string :=
  match n, s with
  | S n', String c s' => String c (sliceTo n' s')
  | _, _ => EmptyString
  end.

(** A string in a boolean position: true unless it is empty. *)
Definition nonEmpty (s : string) : bool :=
  match s with
  | EmptyString => false
  | _ => true
  end.

(** [a || b] on strings. *)
Definition orElse (a b : string) : string := if nonEmpty a then a else b.

(** [s.padStart(n, c)] with a one-character filler. *)
Definition padStart (n : nat) (c : ascii) (s : string) : string :=
  Nat.iter (n - String.length s) (String c) s.

(** A character of ASCII, where the model of [trim], [toUpperCase] and
    [toLowerCase] above is exactly ECMAScript's. *)
Definition isAscii (c : ascii) : bool := Nat.ltb (code c) 128.

Definition isHexLower (c : ascii) : bool := isDigit c || between 97 102 (code c).
Definition isHexUpper (c : ascii) : bool := isDigit c || between 65 70 (code c).

(** [s.replace(/[^A-Z0-9]/g, "")]. *)
Definition isUpperAlnum (c : ascii) : bool := isUpper c || isDigit c.
Definition stripNonUpperAlnum (s : string) : string := filterChars isUpperAlnum s.

End JsString.
Export JsString.

(** ** Untyped JavaScript values

    What [JSON.parse] and the callers hand to the normalisers (type [any]
    in the source). *)

Module JsValue.

Local Open Scope string_scope.

Inductive value : Type :=
| VUndefined
| VNull
| VBool (b : bool)
| VNum (n : num)
| VStr (s : string)
| VArr (items : list value)
| VObj (fields : list (string * value)).

(** An object: its own properties, first binding of a key wins. *)
Definition object : Type := list (string * value).

(** The two conversions between numbers and their text, [Number::toString]
    and [StringToNumber] of ECMAScript, kept abstract. *)
Class Conversions : Type := {
  NumberToString : num -> string;
  StringToNumber : string -> num
}.

(** What a call does: it returns a value, or it throws. *)
Inductive completion (A : Type) : Type :=
| Returns (a : A)
| Throws.

Arguments Returns {A} a.
Arguments Throws {A}.

Definition isNullish (v : value) : bool :=
  match v with
  | VUndefined | VNull => true
  | _ => false
  end.

(** [a ?? b]. *)
Definition coalesce (a b : value) : value := if isNullish a then b else a.

Fixpoint lookup (k : string) (o : object) : value :=
  match o with
  | [] => VUndefined
  | (k', v) :: o' => if String.eqb k k' then v else lookup k o'
  end.

(** [o.k] on an object. *)
Definition prop (o : object) (k : string) : value := lookup k o.

(** [v?.[k]] for the property names the normalisers read (none of them
    is an index, [length] or a built-in of a prototype): only an object
    can hold one. *)
Definition get (v : value) (k : string) : value :=
  match v with
  | VObj o => lookup k o
  | _ => VUndefined
  end.

(** [{ ...a, ...b }]: the properties of [b] override those of [a]. *)
Definition spread (a b : object) : object := (b ++ a)%list.

Definition arrayItems (v : value) : list value :=
  match v with
  | VArr l => l
  | _ => []
  end.

(** [Number.isFinite(v) ? (v as number) : absent]; no coercion. *)
Definition finiteNumber (v : value) : option num :=
  match v with
  | VNum n => if isFinite n then Some n else None
  | _ => None
  end.

Definition ToBoolean (v : value) : bool :=
  match v with
  | VUndefined | VNull => false
  | VBool b => b
  | VNum NaN => false
  | VNum (Fin q) => negb (qeq q (Q2Qc 0))
  | VNum _ => true
  | VStr s => nonEmpty s
  | VArr _ | VObj _ => true
  end.

Section WithConversions.
Context {cv : Conversions}.

(** [String(v)]. *)
Fixpoint ToString (v : value) : string :=
  match v with
  | VUndefined => "undefined"
  | VNull => "null"
  | VBool true => "true"
  | VBool false => "false"
  | VNum n => NumberToString n
  | VStr s => s
  | VArr l =>
      String.concat ","
        (map (fun x => if isNullish x then "" else ToString x) l)
  | VObj _ => "[object Object]"
  end.

(** [Number(v)]. *)
Definition ToNumber (v : value) : num :=
  match v with
  | VUndefined => NaN
  | VNull => of_Z 0
  | VBool true => of_Z 1
  | VBool false => of_Z 0
  | VNum n => n
  | VStr s => StringToNumber s
  | VArr _ | VObj _ => StringToNumber (ToString v)
  end.

(** [String(v ?? "").trim()], the text fallback of every normaliser. *)
Definition text (v : value) : string := trim (ToString (coalesce v (VStr ""))).

End WithConversions.

End JsValue.
Export JsValue.

(** ** Sources of randomness *)

Module Random.

Local Open Scope string_scope.

(** What one call may draw: the UUID of [crypto.randomUUID] (and whether
    that function exists), the texts of [Math.random().toString(36)] and
    [Date.now().toString(36)], and the bytes of [crypto.getRandomValues]. *)
Record Entropy : Type := {
  hasRandomUUID : bool;
  randomUUID : string;
  mathRandomBase36 : string;
  dateNowBase36 : string;
  randomByte : nat -> Byte.byte
}.

Fixpoint sliceFrom (n : nat) (s : string) : string :=
  match n, s with
  | S n', String _ s' => sliceFrom n' s'
  | _, _ => s
  end.

(** [cryptoRandomId] (App.tsx, line 233). *)
Definition cryptoRandomId (e : Entropy) : string :=
  if hasRandomUUID e then randomUUID e
  else sliceFrom 2 (mathRandomBase36 e) ++ dateNowBase36 e.

(** [new Uint8Array(len)] filled by [crypto.getRandomValues]. *)
Definition getRandomValues (e : Entropy) (len : nat) : list Byte.byte :=
  map (randomByte e) (seq 0 len).

Definition hexDigit (d : nat) : ascii :=
  if Nat.ltb d 10 then ascii_of_nat (48 + d) else ascii_of_nat (87 + d).

(** [b.toString(16)] for a byte. *)
Definition byteToString16 (b : Byte.byte) : string :=
  let n := Byte.to_nat b in
  if Nat.ltb n 16 then String (hexDigit n) ""
  else String (hexDigit (n / 16)) (String (hexDigit (n mod 16)) "").

(** [generatePublicCode] (App.tsx, line 400). *)
Definition generatePublicCode (e : Entropy) : string :=
  toUpperCase
    (String.concat ""
       (map (fun b => padStart 2 "0"%char (byteToString16 b))
            (getRandomValues e 6))).

End Random.
Export Random.

(** ** Types and constants of the application *)

Module App.

Local Open Scope string_scope.

Inductive MpTier : Type :=
| TierNone | TierLow | TierMed | TierHigh | TierVeryHigh | TierExtreme.

Definition MpTier_text (t : MpTier) : string :=
  match t with
  | TierNone => "None"
  | TierLow => "Low"
  | TierMed => "Med"
  | TierHigh => "High"
  | TierVeryHigh => "Very High"
  | TierExtreme => "Extreme"
  end.

Definition MP_TIERS : list MpTier :=
  [TierNone; TierLow; TierMed; TierHigh; TierVeryHigh; TierExtreme].

Definition MP_TIER_TO_COST (t : MpTier) : num :=
  match t with
  | TierNone => of_Z 0
  | TierLow => of_Z 25
  | TierMed => of_Z 50
  | TierHigh => of_Z 100
  | TierVeryHigh => of_Z 150
  | TierExtreme => of_Z 200
  end.

Inductive Race : Type := Human | Elf | Automaton | Daemon | Scalekin.

Definition Race_text (r : Race) : string :=
  match r with
  | Human => "Human"
  | Elf => "Elf"
  | Automaton => "Automaton"
  | Daemon => "Daemon"
  | Scalekin => "Scalekin"
  end.

Definition RACES : list Race := [Human; Elf; Automaton; Daemon; Scalekin].

Inductive Rank : Type := Bronze | Silver | Gold | Diamond.

Definition Rank_text (r : Rank) : string :=
  match r with
  | Bronze => "Bronze"
  | Silver => "Silver"
  | Gold => "Gold"
  | Diamond => "Diamond"
  end.

Definition RANKS : list Rank := [Bronze; Silver; Gold; Diamond].

Record RaceStats : Type := { hp : num; mp : num; baseAc : num }.

Definition humanStats : RaceStats :=
  {| hp := of_Z 150; mp := of_Z 200; baseAc := of_Z 14 |}.

Definition RACE_STATS : list (string * RaceStats) :=
  [ ("Human", humanStats);
    ("Elf", {| hp := of_Z 125; mp := of_Z 250; baseAc := of_Z 13 |});
    ("Automaton", {| hp := of_Z 200; mp := of_Z 150; baseAc := of_Z 15 |});
    ("Daemon", {| hp := of_Z 150; mp := of_Z 225; baseAc := of_Z 13 |});
    ("Scalekin", {| hp := of_Z 150; mp := of_Z 225; baseAc := of_Z 14 |}) ].

(** [getRaceStats] (App.tsx, line 54); its callers pass a preset name. *)
Definition getRaceStats (race : string) : RaceStats :=
  match find (fun kv => String.eqb (fst kv) race) RACE_STATS with
  | Some kv => snd kv
  | None => humanStats
  end.

Inductive AbilityKey : Type := STR | DEX | CON | INT | WIS | CHA.

Definition AbilityKey_text (k : AbilityKey) : string :=
  match k with
  | STR => "str"
  | DEX => "dex"
  | CON => "con"
  | INT => "int"
  | WIS => "wis"
  | CHA => "cha"
  end.

Definition ABILITY_KEYS : list AbilityKey := [STR; DEX; CON; INT; WIS; CHA].

(** [Record<AbilityKey, A>]. *)
Record ByAbility (A : Type) : Type := {
  str : A; dex : A; con : A; int : A; wis : A; cha : A
}.
Arguments str {A} _.
Arguments dex {A} _.
Arguments con {A} _.
Arguments int {A} _.
Arguments wis {A} _.
Arguments cha {A} _.

Definition abilityAt {A} (r : ByAbility A) (k : AbilityKey) : A :=
  match k with
  | STR => str r
  | DEX => dex r
  | CON => con r
  | INT => int r
  | WIS => wis r
  | CHA => cha r
  end.

(** [r[k] = v]. *)
Definition setAbility {A} (r : ByAbility A) (k : AbilityKey) (v : A) : ByAbility A :=
  match k with
  | STR => {| str := v; dex := dex r; con := con r; int := int r; wis := wis r; cha := cha r |}
  | DEX => {| str := str r; dex := v; con := con r; int := int r; wis := wis r; cha := cha r |}
  | CON => {| str := str r; dex := dex r; con := v; int := int r; wis := wis r; cha := cha r |}
  | INT => {| str := str r; dex := dex r; con := con r; int := v; wis := wis r; cha := cha r |}
  | WIS => {| str := str r; dex := dex r; con := con r; int := int r; wis := v; cha := cha r |}
  | CHA => {| str := str r; dex := dex r; con := con r; int := int r; wis := wis r; cha := v |}
  end.

(** The loop [for (const k of ABILITY_KEYS) out[k] = f(k)] on a fresh
    object [out]. *)
Definition forAbilityKeys {A} (f : AbilityKey -> A) : ByAbility A :=
  {| str := f STR; dex := f DEX; con := f CON;
     int := f INT; wis := f WIS; cha := f CHA |}.

Definition Abilities : Type := ByAbility num.
Definition SaveProficiencies : Type := ByAbility bool.

Inductive SkillKey : Type :=
| acrobatics | animal_handling | arcana | athletics | deception | history
| insight | intimidation | investigation | medicine | nature | perception
| performance | persuasion | religion | sleight_of_hand | stealth | survival.

Definition SkillKey_text (k : SkillKey) : string :=
  match k with
  | acrobatics => "acrobatics"
  | animal_handling => "animal_handling"
  | arcana => "arcana"
  | athletics => "athletics"
  | deception => "deception"
  | history => "history"
  | insight => "insight"
  | intimidation => "intimidation"
  | investigation => "investigation"
  | medicine => "medicine"
  | nature => "nature"
  | perception => "perception"
  | performance => "performance"
  | persuasion => "persuasion"
  | religion => "religion"
  | sleight_of_hand => "sleight_of_hand"
  | stealth => "stealth"
  | survival => "survival"
  end.

Record SkillDef : Type := { key : SkillKey; name : string; ability : AbilityKey }.

Definition SKILLS : list SkillDef :=
  [ {| key := acrobatics; name := "Acrobatics"; ability := DEX |};
    {| key := animal_handling; name := "Animal Handling"; ability := WIS |};
    {| key := arcana; name := "Arcana"; ability := INT |};
    {| key := athletics; name := "Athletics"; ability := STR |};
    {| key := deception; name := "Deception"; ability := CHA |};
    {| key := history; name := "History"; ability := INT |};
    {| key := insight; name := "Insight"; ability := WIS |};
    {| key := intimidation; name := "Intimidation"; ability := CHA |};
    {| key := investigation; name := "Investigation"; ability := INT |};
    {| key := medicine; name := "Medicine"; ability := WIS |};
    {| key := nature; name := "Nature"; ability := INT |};
    {| key := perception; name := "Perception"; ability := WIS |};
    {| key := performance; name := "Performance"; ability := CHA |};
    {| key := persuasion; name := "Persuasion"; ability := CHA |};
    {| key := religion; name := "Religion"; ability := INT |};
    {| key := sleight_of_hand; name := "Sleight of Hand"; ability := DEX |};
    {| key := stealth; name := "Stealth"; ability := DEX |};
    {| key := survival; name := "Survival"; ability := WIS |} ].

(** [Record<SkillKey, boolean>]: the flags in insertion order. *)
Definition SkillProficiencies : Type := list (SkillKey * bool).

Definition SkillKey_eqb (a b : SkillKey) : bool :=
  String.eqb (SkillKey_text a) (SkillKey_text b).

(** [base[k] = b] on an object of flags. *)
Fixpoint setSkill (base : SkillProficiencies) (k : SkillKey) (b : bool)
  : SkillProficiencies :=
  match base with
  | [] => [(k, b)]
  | (k', b') :: rest =>
      if SkillKey_eqb k k' then (k', b) :: rest
      else (k', b') :: setSkill rest k b
  end.

Inductive CoinKey : Type := bronze | silver | gold | diamond.

Definition CoinKey_text (k : CoinKey) : string :=
  match k with
  | bronze => "bronze"
  | silver => "silver"
  | gold => "gold"
  | diamond => "diamond"
  end.

Definition COIN_KEYS : list CoinKey := [bronze; silver; gold; diamond].

(** [Record<CoinKey, number>]. *)
Record Bank : Type := {
  bronzeCount : num; silverCount : num; goldCount : num; diamondCount : num
}.

Definition coinAt (b : Bank) (k : CoinKey) : num :=
  match k with
  | bronze => bronzeCount b
  | silver => silverCount b
  | gold => goldCount b
  | diamond => diamondCount b
  end.

(** [{ ...b, [k]: n }] and [b[k] = n]. *)
Definition setCoin (b : Bank) (k : CoinKey) (n : num) : Bank :=
  match k with
  | bronze => {| bronzeCount := n; silverCount := silverCount b;
                 goldCount := goldCount b; diamondCount := diamondCount b |}
  | silver => {| bronzeCount := bronzeCount b; silverCount := n;
                 goldCount := goldCount b; diamondCount := diamondCount b |}
  | gold => {| bronzeCount := bronzeCount b; silverCount := silverCount b;
               goldCount := n; diamondCount := diamondCount b |}
  | diamond => {| bronzeCount := bronzeCount b; silverCount := silverCount b;
                  goldCount := goldCount b; diamondCount := n |}
  end.

Definition LEVEL : num := of_Z 5.
Definition PROF_BONUS : num := of_Z 3.

Record Spell : Type := {
  spell_id : string;
  spell_name : string;
  essence : string;
  mpTier : MpTier;
  mpCost : num;
  damage : string;
  range : string;
  description : string
}.

Record Armor : Type := {
  armor_id : string;
  armor_name : string;
  acBonus : num;
  effect : string;
  abilityBonuses : ByAbility (option num)
}.

Record Character : Type := {
  id : string;
  publicCode : string;
  char_name : string;
  race : string;
  subtype : string;
  rank : Rank;
  partyName : string;
  partyMembers : list string;
  partyMemberCodes : list string;
  missionDirective : string;
  notes : string;
  level : num;
  maxHp : num;
  maxMp : num;
  currentHp : num;
  currentMp : num;
  abilitiesBase : Abilities;
  skillProficiencies : SkillProficiencies;
  saveProficiencies : SaveProficiencies;
  knownSpellIds : list string;
  passiveIds : list string;
  equippedWeaponId : value;
  equippedArmorId : value;
  personalBank : Bank;
  partyBank : Bank;
  weapons : value;
  armors : value
}.

End App.
Export App.

(** ** Typed entities seen as plain objects

    A [Character] (or [Bank], ...) is an ordinary object at run time; these
    functions give the object a typed record stands for, so that it can be
    spread, updated and handed back to a normaliser. *)

Module AsObject.

Local Open Scope string_scope.

Definition stringsValue (l : list string) : value := VArr (map VStr l).

Definition abilitiesValue (a : Abilities) : value :=
  VObj (map (fun k => (AbilityKey_text k, VNum (abilityAt a k))) ABILITY_KEYS).

Definition savesValue (p : SaveProficiencies) : value :=
  VObj (map (fun k => (AbilityKey_text k, VBool (abilityAt p k))) ABILITY_KEYS).

Definition skillsValue (p : SkillProficiencies) : value :=
  VObj (map (fun kb => (SkillKey_text (fst kb), VBool (snd kb))) p).

Definition bankValue (b : Bank) : value :=
  VObj (map (fun k => (CoinKey_text k, VNum (coinAt b k))) COIN_KEYS).

Definition characterObject (c : Character) : object :=
  [ ("id", VStr (id c));
    ("publicCode", VStr (publicCode c));
    ("name", VStr (char_name c));
    ("race", VStr (race c));
    ("subtype", VStr (subtype c));
    ("rank", VStr (Rank_text (rank c)));
    ("partyName", VStr (partyName c));
    ("partyMembers", stringsValue (partyMembers c));
    ("partyMemberCodes", stringsValue (partyMemberCodes c));
    ("missionDirective", VStr (missionDirective c));
    ("notes", VStr (notes c));
    ("level", VNum (level c));
    ("maxHp", VNum (maxHp c));
    ("maxMp", VNum (maxMp c));
    ("currentHp", VNum (currentHp c));
    ("currentMp", VNum (currentMp c));
    ("abilitiesBase", abilitiesValue (abilitiesBase c));
    ("skillProficiencies", skillsValue (skillProficiencies c));
    ("saveProficiencies", savesValue (saveProficiencies c));
    ("knownSpellIds", stringsValue (knownSpellIds c));
    ("passiveIds", stringsValue (passiveIds c));
    ("equippedWeaponId", equippedWeaponId c);
    ("equippedArmorId", equippedArmorId c);
    ("personalBank", bankValue (personalBank c));
    ("partyBank", bankValue (partyBank c));
    ("weapons", weapons c);
    ("armors", armors c) ].

End AsObject.
Export AsObject.

(** ** The normalisers (App.tsx, lines 221 to 465) *)

Module Normalize.

Local Open Scope string_scope.

Section WithConversions.
Context {cv : Conversions}.

(** [normalizeStringArray] (line 221); [targetLen] is [None] when the
    argument is left out. *)
Definition normalizeStringArray (input : value) (targetLen : option nat)
  : list string :=
  let arr := arrayItems input in
  let out := map text arr in
  match targetLen with
  | Some n =>
      let padded := firstn n out in
      (padded ++ repeat "" (n - List.length padded))%list
  | None => filter nonEmpty out
  end.

(** [normalizeMpTier] (line 253). *)
Definition normalizeMpTier (v : value) : MpTier :=
  let raw := toLowerCase (text v) in
  match find (fun t => String.eqb (toLowerCase (MpTier_text t)) raw) MP_TIERS with
  | Some hit => hit
  | None => TierNone
  end.

(** [normalizeSpell] (line 259). *)
Definition normalizeSpell (e : Entropy) (s : value) : Spell :=
  let tier := normalizeMpTier (get s "mpTier") in
  let cost := MP_TIER_TO_COST tier in
  {| spell_id := ToString (coalesce (get s "id") (VStr (randomUUID e)));
     spell_name := text (get s "name");
     essence := text (get s "essence");
     mpTier := tier;
     mpCost := cost;
     damage := text (get s "damage");
     range := text (get s "range");
     description := text (get s "description") |}.

(** [normalizeAbilityBonuses] (line 291): a key is set only when its
    number is finite and not zero. *)
Definition normalizeAbilityBonuses (b : value) : ByAbility (option num) :=
  forAbilityKeys (fun k =>
    let n := ToNumber (get b (AbilityKey_text k)) in
    if isFinite n && negb (JsNumber.eq n (of_Z 0)) then Some n else None).

(** [normalizeArmor] (line 300). *)
Definition normalizeArmor (e : Entropy) (a : value) : Armor :=
  let n := ToNumber (get a "acBonus") in
  {| armor_id := ToString (coalesce (get a "id") (VStr (randomUUID e)));
     armor_name := text (get a "name");
     acBonus := if isFinite n then n else of_Z 0;
     effect := text (get a "effect");
     abilityBonuses := normalizeAbilityBonuses (get a "abilityBonuses") |}.

(** [normalizeRace] (line 320) and [normalizeRank] (line 326). *)
Definition normalizeRace (r : value) : Race :=
  let raw := toLowerCase (text r) in
  match find (fun x => String.eqb (toLowerCase (Race_text x)) raw) RACES with
  | Some hit => hit
  | None => Human
  end.

Definition normalizeRank (r : value) : Rank :=
  let raw := toLowerCase (text r) in
  match find (fun x => String.eqb (toLowerCase (Rank_text x)) raw) RANKS with
  | Some hit => hit
  | None => Bronze
  end.

(** [normalizeAbilitiesBase] (line 332). *)
Definition normalizeAbilitiesBase (v : value) : Abilities :=
  let fallback : Abilities := forAbilityKeys (fun _ => of_Z 10) in
  forAbilityKeys (fun k =>
    let n := ToNumber (get v (AbilityKey_text k)) in
    if isFinite n then clamp n (of_Z 1) (of_Z 30) else abilityAt fallback k).

(** [emptySkillProfs], [emptySaveProfs], [normalizeSkillProfs] and
    [normalizeSaveProfs] (lines 342 to 364). *)
Definition emptySkillProfs : SkillProficiencies :=
  fold_left (fun out s => setSkill out (key s) false) SKILLS [].

Definition emptySaveProfs : SaveProficiencies := forAbilityKeys (fun _ => false).

Definition normalizeSkillProfs (v : value) : SkillProficiencies :=
  fold_left
    (fun base s => setSkill base (key s) (ToBoolean (get v (SkillKey_text (key s)))))
    SKILLS emptySkillProfs.

Definition normalizeSaveProfs (v : value) : SaveProficiencies :=
  fold_left
    (fun base k => setAbility base k (ToBoolean (get v (AbilityKey_text k))))
    ABILITY_KEYS emptySaveProfs.

(** [emptyBank] and [normalizeBank] (lines 366 to 377). *)
Definition emptyBank : Bank :=
  {| bronzeCount := of_Z 0; silverCount := of_Z 0;
     goldCount := of_Z 0; diamondCount := of_Z 0 |}.

Definition normalizeBank (v : value) : Bank :=
  fold_left
    (fun base k =>
       let n := ToNumber (get v (CoinKey_text k)) in
       setCoin base k
         (if isFinite n then Math_max (of_Z 0) (Math_floor n) else of_Z 0))
    COIN_KEYS emptyBank.

(** [normalizePartyMembers] (line 379). *)
Definition normalizePartyMembers (v : value) : list string :=
  let arr := match v with VArr l => map text l | _ => [] end in
  let out := (arr ++ repeat "" (4 - List.length arr))%list in
  firstn 4 out.

(** [normalizePublicCode] (line 387): letters and digits, upper case, at
    most 16. *)
Definition normalizePublicCode (v : value) : string :=
  let raw := toUpperCase (text v) in
  sliceTo 16 (stripNonUpperAlnum raw).

(** [normalizePartyMemberCodes] (line 393). *)
Definition normalizePartyMemberCodes (v : value) : list string :=
  let arr := match v with VArr l => map normalizePublicCode l | _ => [] end in
  let out := (arr ++ repeat "" (4 - List.length arr))%list in
  firstn 4 out.

(** [normalizeCharacter] (line 410).  The parameter has type
    [Partial<Character>]: an object, none of whose properties is trusted. *)
Definition normalizeCharacter (e : Entropy) (c : object) : Character :=
  let id' := ToString (coalesce (prop c "id") (VStr (cryptoRandomId e))) in
  let name' := text (prop c "name") in
  let raceText := orElse (text (prop c "race")) "Human" in
  let subtype' := text (prop c "subtype") in
  let rank' := normalizeRank (prop c "rank") in
  let presetKey := normalizeRace (VStr raceText) in
  let defaults := getRaceStats (Race_text presetKey) in
  let level' :=
    match finiteNumber (prop c "level") with
    | Some n => clamp n (of_Z 1) (of_Z 20)
    | None => LEVEL
    end in
  let maxHp' :=
    match finiteNumber (prop c "maxHp") with
    | Some n => clamp n (of_Z 0) (of_Z 9999)
    | None => hp defaults
    end in
  let maxMp' :=
    match finiteNumber (prop c "maxMp") with
    | Some n => clamp n (of_Z 0) (of_Z 9999)
    | None => mp defaults
    end in
  let rawHp :=
    match finiteNumber (prop c "currentHp") with
    | Some n => n
    | None => maxHp'
    end in
  let rawMp :=
    match finiteNumber (prop c "currentMp") with
    | Some n => n
    | None => maxMp'
    end in
  {| id := id';
     publicCode :=
       orElse
         (toUpperCase
            (text (coalesce (prop c "publicCode") (prop c "public_code"))))
         (generatePublicCode e);
     char_name := name';
     race := raceText;
     subtype := subtype';
     rank := rank';
     partyName := text (prop c "partyName");
     partyMembers := normalizeStringArray (prop c "partyMembers") (Some 4%nat);
     partyMemberCodes :=
       map (fun s => toUpperCase (trim (ToString (VStr s))))
           (normalizeStringArray (prop c "partyMemberCodes") (Some 4%nat));
     missionDirective := text (prop c "missionDirective");
     notes := ToString (coalesce (prop c "notes") (VStr ""));
     level := level';
     maxHp := maxHp';
     maxMp := maxMp';
     currentHp := clamp rawHp (of_Z 0) maxHp';
     currentMp := clamp rawMp (of_Z 0) maxMp';
     abilitiesBase := normalizeAbilitiesBase (prop c "abilitiesBase");
     skillProficiencies := normalizeSkillProfs (prop c "skillProficiencies");
     saveProficiencies := normalizeSaveProfs (prop c "saveProficiencies");
     knownSpellIds := normalizeStringArray (prop c "knownSpellIds") None;
     passiveIds := normalizeStringArray (prop c "passiveIds") None;
     equippedWeaponId := coalesce (prop c "equippedWeaponId") VNull;
     equippedArmorId := coalesce (prop c "equippedArmorId") VNull;
     personalBank := normalizeBank (prop c "personalBank");
     partyBank := normalizeBank (prop c "partyBank");
     weapons := prop c "weapons";
     armors := prop c "armors" |}.

(** [c.key] without [?.], for the property names [normalizeCharacter]
    reads: [null] and [undefined] have no properties and reading one
    throws a TypeError; an object holds its own; a boolean, a number, a
    string or an array has none of these names. *)
Definition propertiesOf (c : value) : completion object :=
  match c with
  | VUndefined | VNull => Throws
  | VObj o => Returns o
  | VBool _ | VNum _ | VStr _ | VArr _ => Returns []
  end.

(** [normalizeCharacter] called on any value, as
    [safeParseArray(...).map(normalizeCharacter)] (line 2552) and
    [normalizeCharacter(row.data)] (line 1789) call it on what was stored.
    Its first step reads [c.id] (line 411).  Where the document brings no
    public code it calls [generatePublicCode], whose
    [crypto.getRandomValues] (line 403) is not tested for as
    [crypto.randomUUID] is in [cryptoRandomId]: [hasGetRandomValues] says
    whether the environment provides it. *)
Definition callNormalizeCharacter (hasGetRandomValues : bool) (e : Entropy) (c : value) :
  completion Character :=
  match propertiesOf c with
  | Returns o =>
      let code := toUpperCase (text (coalesce (prop o "publicCode") (prop o "public_code"))) in
      if nonEmpty code || hasGetRandomValues
      then Returns (normalizeCharacter e o)
      else Throws
  | Throws => Throws
  end.

End WithConversions.

End Normalize.
Export Normalize.

(** ** The character sheet and its mutations (App.tsx, lines 1599 to 1658)

    [onUpdateCharacter] is bound to [updateSelectedCharacter] (line 2686),
    which replaces the selected character [c] by
    [normalizeCharacter({ ...c, ...updates })]. *)

Module Sheet.

Local Open Scope string_scope.

(** The state the sheet's handlers read and write: the selected character
    and the two [useState] cells of the coin action. *)
Record State : Type := {
  character : Character;
  eatCoinOpen : bool;
  eatCoinType : CoinKey
}.

Definition withCharacter (st : State) (c : Character) : State :=
  {| character := c;
     eatCoinOpen := eatCoinOpen st;
     eatCoinType := eatCoinType st |}.

Definition setEatCoinOpen (st : State) (b : bool) : State :=
  {| character := character st;
     eatCoinOpen := b;
     eatCoinType := eatCoinType st |}.

Section WithConversions.
Context {cv : Conversions}.

Definition onUpdateCharacter (e : Entropy) (st : State) (updates : object) : State :=
  withCharacter st
    (normalizeCharacter e (spread (characterObject (character st)) updates)).

Definition setHp (e : Entropy) (st : State) (v : num) : State :=
  onUpdateCharacter e st
    [("currentHp", VNum (clamp v (of_Z 0) (maxHp (character st))))].

Definition setMp (e : Entropy) (st : State) (v : num) : State :=
  onUpdateCharacter e st
    [("currentMp", VNum (clamp v (of_Z 0) (maxMp (character st))))].

Definition bumpHp (e : Entropy) (st : State) (delta : num) : State :=
  setHp e st (add (currentHp (character st)) delta).

Definition bumpMp (e : Entropy) (st : State) (delta : num) : State :=
  setMp e st (add (currentMp (character st)) delta).

Definition healFull (e : Entropy) (st : State) : State :=
  onUpdateCharacter e st [("currentHp", VNum (maxHp (character st)))].

Definition restoreFull (e : Entropy) (st : State) : State :=
  onUpdateCharacter e st [("currentMp", VNum (maxMp (character st)))].

(** [castSpell] (line 1619). *)
Definition castSpell (e : Entropy) (st : State) (spell : Spell) : State :=
  let c := character st in
  if lt (currentMp c) (mpCost spell) then st
  else
    onUpdateCharacter e st
      [("currentMp",
        VNum (clamp (sub (currentMp c) (mpCost spell)) (of_Z 0) (maxMp c)))].

Inductive BankKey : Type := personalBankKey | partyBankKey.

Definition BankKey_text (k : BankKey) : string :=
  match k with
  | personalBankKey => "personalBank"
  | partyBankKey => "partyBank"
  end.

Definition bankOf (st : State) (k : BankKey) : Bank :=
  match k with
  | personalBankKey => personalBank (character st)
  | partyBankKey => partyBank (character st)
  end.

(** [setBank] and [bumpBank] (lines 1628 to 1637).  A count has no upper
    bound, so the sum of [bumpBank] is the rounded one, [add64]. *)
Definition setBank (e : Entropy) (st : State) (bankKey : BankKey)
  (coin : CoinKey) (v : num) : State :=
  let nextVal := Math_max (of_Z 0) (Math_floor (if isFinite v then v else of_Z 0)) in
  let current := bankOf st bankKey in
  onUpdateCharacter e st
    [(BankKey_text bankKey, bankValue (setCoin current coin nextVal))].

Definition bumpBank (e : Entropy) (st : State) (bankKey : BankKey)
  (coin : CoinKey) (delta : num) : State :=
  let current := bankOf st bankKey in
  setBank e st bankKey coin (add64 (coinAt current coin) delta).

(** [confirmEatCoin] (line 1652); [current - 1] is the rounded
    difference, [sub64]. *)
Definition confirmEatCoin (e : Entropy) (st : State) : State :=
  let personal := personalBank (character st) in
  let current := coinAt personal (eatCoinType st) in
  if le current (of_Z 0) then st
  else
    let nextPersonal := setCoin personal (eatCoinType st) (sub64 current (of_Z 1)) in
    let st' :=
      onUpdateCharacter e st
        [("personalBank", bankValue nextPersonal);
         ("currentMp", VNum (maxMp (character st)))] in
    setEatCoinOpen st' false.

End WithConversions.

End Sheet.
Export Sheet.

(** ** A concrete pair of conversions and a concrete entropy

    Used to evaluate the definitions on examples.  Integers print and
    parse in decimal as in ECMAScript; other finite numbers print as a
    decimal expansion cut after 17 fractional digits, and the parser reads
    signed decimal literals without exponent. *)

Module Sample.

Local Open Scope string_scope.

Definition digitChar (d : Z) : ascii := ascii_of_nat (48 + Z.to_nat d).

Fixpoint natDigits (fuel : nat) (z : Z) (acc : string) : string :=
  match fuel with
  | O => acc
  | S fuel' =>
      let acc' := String (digitChar (z mod 10)) acc in
      if (z / 10 =? 0)%Z then acc' else natDigits fuel' (z / 10)%Z acc'
  end.

Definition printNat (z : Z) : string := natDigits (S (Z.to_nat (Z.log2 z))) z "".

Fixpoint fractionDigits (fuel : nat) (n d : Z) : string :=
  match fuel with
  | O => ""
  | S fuel' =>
      if (n =? 0)%Z then ""
      else String (digitChar (10 * n / d)) (fractionDigits fuel' ((10 * n) mod d)%Z d)
  end.

Definition printQ (q : Q) : string :=
  let n := Z.abs (Qnum q) in
  let d := Zpos (Qden q) in
  let whole := printNat (n / d) in
  let frac := fractionDigits 17 (n mod d) d in
  let body := if nonEmpty frac then whole ++ "." ++ frac else whole in
  if (Qnum q <? 0)%Z then "-" ++ body else body.

Definition printNum (n : num) : string :=
  match n with
  | NaN => "NaN"
  | PosInf => "Infinity"
  | NegInf => "-Infinity"
  | Fin q => printQ q
  end.

Fixpoint readDigits (s : string) (acc : Z) (count : nat) : option (Z * nat * string) :=
  match s with
  | String c s' =>
      if isDigit c
      then readDigits s' (10 * acc + Z.of_nat (code c - 48))%Z (S count)
      else Some (acc, count, s)
  | EmptyString => Some (acc, count, s)
  end.

Definition readUnsigned (s : string) : num :=
  if String.eqb s "Infinity" then PosInf
  else
    match readDigits s 0%Z 0 with
    | Some (w, nw, EmptyString) => if Nat.eqb nw 0 then NaN else of_Z w
    | Some (w, nw, String "."%char rest) =>
        match readDigits rest 0%Z 0 with
        | Some (f, nf, EmptyString) =>
            if Nat.eqb (nw + nf) 0 then NaN
            else of_Q (Qmake (w * 10 ^ Z.of_nat nf + f) (Z.to_pos (10 ^ Z.of_nat nf)))
        | _ => NaN
        end
    | _ => NaN
    end.

Definition readNum (s : string) : num :=
  match trim s with
  | EmptyString => of_Z 0
  | String "-"%char r => neg (readUnsigned r)
  | String "+"%char r => readUnsigned r
  | t => readUnsigned t
  end.

Definition decimal : Conversions :=
  {| NumberToString := printNum; StringToNumber := readNum |}.

Definition entropy : Entropy :=
  {| hasRandomUUID := true;
     randomUUID := "3f2b8c1e-7a4d-4e1b-9c0a-5d6e7f8091a2";
     mathRandomBase36 := "0.k3j9x2m1q";
     dateNowBase36 := "lq2x9f3a";
     randomByte := fun i => nth i [Byte.x0a; Byte.xf3; Byte.x00; Byte.x7c; Byte.xe1; Byte.x45] Byte.x00 |}.

(** Inputs of the worked examples. *)
Definition sheetOf (x : object) (coin : CoinKey) : State :=
  {| character := normalizeCharacter (cv := decimal) entropy x;
     eatCoinOpen := true;
     eatCoinType := coin |}.

Definition medSpell : Spell :=
  normalizeSpell (cv := decimal) entropy
    (VObj [("name", VStr "Frost Lance"); ("mpTier", VStr " med ");
           ("mpCost", VNum (of_Z 1))]).

Definition bankOf2Bronze : value :=
  VObj [("bronze", VNum (of_Z 2)); ("silver", VNum (of_Z 0));
        ("gold", VNum (of_Z 0)); ("diamond", VNum (of_Z 0))].

(** The doubles of the Standard Library's specification of IEEE 754
    arithmetic ([SpecFloat], at 53 bits of precision), to compare [add64]
    and [sub64] with: the double nearest to an integer, and the number a
    double stands for. *)
Definition binary64 (z : Z) : SpecFloat.spec_float :=
  SpecFloat.binary_normalize 53 1024 z 0 false.

Definition ofBinary64 (f : SpecFloat.spec_float) : num :=
  match f with
  | SpecFloat.S754_zero _ => of_Z 0
  | SpecFloat.S754_infinity s => sign_inf (negb s)
  | SpecFloat.S754_nan => NaN
  | SpecFloat.S754_finite s m e =>
      of_Q (Qred (((if s then Z.neg m else Z.pos m) * 2 ^ Z.max 0 e)
                  # Z.to_pos (2 ^ Z.max 0 (- e))))
  end.

(** The integers [from], [from + step], ..., [count] of them. *)
Definition integersFrom (from step : Z) (count : nat) : list Z :=
  map (fun i => (from + step * Z.of_nat i)%Z) (seq 0 count).

(** A hoard of 2^53 + 2 bronze coins. *)
Definition hoard : value :=
  VObj [("bronze", VNum (of_Z 9007199254740994)); ("silver", VNum (of_Z 0));
        ("gold", VNum (of_Z 0)); ("diamond", VNum (of_Z 0))].

Definition halfPlate : value :=
  VObj [("id", VStr "a1"); ("name", VStr "Half plate");
        ("acBonus", VNum (of_Q (5 # 2)));
        ("abilityBonuses",
         VObj [("str", VNum (of_Q (3 # 2))); ("dex", VNum (of_Z 0));
               ("con", VBool true)])].

End Sample.

(** ** What a normalised character looks like

    The shape every [normalizeCharacter] result has; the properties below
    are stated through it. *)

Module Invariant.

Local Open Scope string_scope.

Definition trimmed (s : string) : Prop := trim s = s.

(** [lo <= n <= hi], which makes [n] finite. *)
Definition within (lo hi : Z) (n : num) : Prop :=
  le (of_Z lo) n = true /\ le n (of_Z hi) = true.

Definition nonNegInteger (n : num) : Prop :=
  exists z : Z, (0 <= z)%Z /\ n = of_Z z.

Record Normal (c : Character) : Prop := {
  normal_publicCode :
    nonEmpty (publicCode c) = true /\ toUpperCase (trim (publicCode c)) = publicCode c;
  normal_name : trimmed (char_name c);
  normal_race : nonEmpty (race c) = true /\ trimmed (race c);
  normal_subtype : trimmed (subtype c);
  normal_partyName : trimmed (partyName c);
  normal_partyMembers :
    List.length (partyMembers c) = 4%nat /\ Forall trimmed (partyMembers c);
  normal_partyMemberCodes :
    List.length (partyMemberCodes c) = 4%nat /\
    Forall (fun u => toUpperCase (trim u) = u) (partyMemberCodes c);
  normal_missionDirective : trimmed (missionDirective c);
  normal_level : within 1 20 (level c);
  normal_maxHp : within 0 9999 (maxHp c);
  normal_maxMp : within 0 9999 (maxMp c);
  normal_currentHp :
    le (of_Z 0) (currentHp c) = true /\ le (currentHp c) (maxHp c) = true;
  normal_currentMp :
    le (of_Z 0) (currentMp c) = true /\ le (currentMp c) (maxMp c) = true;
  normal_abilitiesBase : forall k, within 1 30 (abilityAt (abilitiesBase c) k);
  normal_skillProficiencies : map fst (skillProficiencies c) = map key SKILLS;
  normal_knownSpellIds :
    Forall (fun s => trimmed s /\ nonEmpty s = true) (knownSpellIds c);
  normal_passiveIds :
    Forall (fun s => trimmed s /\ nonEmpty s = true) (passiveIds c);
  normal_equippedWeaponId : equippedWeaponId c <> VUndefined;
  normal_equippedArmorId : equippedArmorId c <> VUndefined;
  normal_personalBank : forall k, nonNegInteger (coinAt (personalBank c) k);
  normal_partyBank : forall k, nonNegInteger (coinAt (partyBank c) k)
}.

(** The count [normalizeBank] and [setBank] store for a number. *)
Definition coinCount (n : num) : num :=
  if isFinite n then Math_max (of_Z 0) (Math_floor n) else of_Z 0.

(** Record updates used to state what a mutation changes. *)
Definition withVitalsAndBank (c : Character) (h m : num) (b : Bank) : Character :=
  {| id := id c; publicCode := publicCode c; char_name := char_name c;
     race := race c; subtype := subtype c; rank := rank c;
     partyName := partyName c; partyMembers := partyMembers c;
     partyMemberCodes := partyMemberCodes c;
     missionDirective := missionDirective c; notes := notes c;
     level := level c; maxHp := maxHp c; maxMp := maxMp c;
     currentHp := h; currentMp := m;
     abilitiesBase := abilitiesBase c;
     skillProficiencies := skillProficiencies c;
     saveProficiencies := saveProficiencies c;
     knownSpellIds := knownSpellIds c; passiveIds := passiveIds c;
     equippedWeaponId := equippedWeaponId c;
     equippedArmorId := equippedArmorId c;
     personalBank := b; partyBank := partyBank c;
     weapons := weapons c; armors := armors c |}.

Definition withCurrentHp (c : Character) (v : num) : Character :=
  withVitalsAndBank c v (currentMp c) (personalBank c).

Definition withCurrentMp (c : Character) (v : num) : Character :=
  withVitalsAndBank c (currentHp c) v (personalBank c).

Definition withMpAndPersonalBank (c : Character) (v : num) (b : Bank) : Character :=
  withVitalsAndBank c (currentHp c) v b.


End Invariant.
Export Invariant.

(** ** The rest of the library: weapons, passives, and entities as objects *)

Module Library.

Local Open Scope string_scope.

Record Weapon : Type := {
  weapon_id : string;
  weapon_name : string;
  weaponType : string;
  weapon_damage : string
}.

Record Passive : Type := {
  passive_id : string;
  passive_name : string;
  passive_description : string
}.

Definition spellObject (s : Spell) : object :=
  [ ("id", VStr (spell_id s));
    ("name", VStr (spell_name s));
    ("essence", VStr (essence s));
    ("mpTier", VStr (MpTier_text (mpTier s)));
    ("mpCost", VNum (mpCost s));
    ("damage", VStr (damage s));
    ("range", VStr (range s));
    ("description", VStr (description s)) ].

Definition weaponObject (w : Weapon) : object :=
  [ ("id", VStr (weapon_id w));
    ("name", VStr (weapon_name w));
    ("weaponType", VStr (weaponType w));
    ("damage", VStr (weapon_damage w)) ].

Definition passiveObject (p : Passive) : object :=
  [ ("id", VStr (passive_id p));
    ("name", VStr (passive_name p));
    ("description", VStr (passive_description p)) ].

(** A [Partial<Record<AbilityKey, number>>]: only the keys that were set,
    in the order of [ABILITY_KEYS]. *)
Definition bonusesObject (b : ByAbility (option num)) : object :=
  flat_map
    (fun k =>
       match abilityAt b k with
       | Some n => [(AbilityKey_text k, VNum n)]
       | None => []
       end)
    ABILITY_KEYS.

Definition armorObject (a : Armor) : object :=
  [ ("id", VStr (armor_id a));
    ("name", VStr (armor_name a));
    ("acBonus", VNum (acBonus a));
    ("effect", VStr (effect a));
    ("abilityBonuses", VObj (bonusesObject (abilityBonuses a))) ].

Section WithConversions.
Context {cv : Conversions}.

(** [normalizeWeapon] (line 282). *)
Definition normalizeWeapon (e : Entropy) (w : value) : Weapon :=
  {| weapon_id := ToString (coalesce (get w "id") (VStr (randomUUID e)));
     weapon_name := text (get w "name");
     weaponType := text (get w "weaponType");
     weapon_damage := text (get w "damage") |}.

(** [normalizePassive] (line 311). *)
Definition normalizePassive (e : Entropy) (p : value) : Passive :=
  {| passive_id := ToString (coalesce (get p "id") (VStr (randomUUID e)));
     passive_name := text (get p "name");
     passive_description := text (get p "description") |}.

End WithConversions.

End Library.
Export Library.

(** ** Derived statistics of the sheet (App.tsx, lines 484 to 485 and
    1553 to 1596)

    [equippedArmor] is the armour the sheet found for [equippedArmorId],
    if any. *)

Module Derived.

Local Open Scope string_scope.

Definition mul (a b : num) : num :=
  match a, b with
  | NaN, _ | _, NaN => NaN
  | Fin p, Fin q => Fin (p * q)%Qc
  | Fin p, x | x, Fin p =>
      if qeq p (Q2Qc 0) then NaN
      else if qle (Q2Qc 0) p then x else neg x
  | PosInf, PosInf | NegInf, NegInf => PosInf
  | _, _ => NegInf
  end.

(** The width, in percent, of a [Bar] (line 485). *)
Definition barPct (v max : num) : num :=
  if le max (of_Z 0) then of_Z 0
  else clamp (mul (div v max) (of_Z 100)) (of_Z 0) (of_Z 100).

Definition noBonuses : ByAbility (option num) := forAbilityKeys (fun _ => None).

(** [abilitiesTotal] (line 1561). *)
Definition abilitiesTotal (c : Character) (equippedArmor : option Armor) : Abilities :=
  let armorBonuses :=
    match equippedArmor with
    | Some a => abilityBonuses a
    | None => noBonuses
    end in
  forAbilityKeys (fun k =>
    let base := abilityAt (abilitiesBase c) k in
    let bonus :=
      match abilityAt armorBonuses k with
      | Some n => n
      | None => of_Z 0
      end in
    clamp (add base (if isFinite bonus then bonus else of_Z 0)) (of_Z 1) (of_Z 30)).

(** [abilityMods] (line 1571). *)
Definition abilityMods (total : Abilities) : ByAbility num :=
  forAbilityKeys (fun k => modFromScore (abilityAt total k)).

(** [profs[k]] in a boolean position: a missing flag is false. *)
Fixpoint skillFlag (profs : SkillProficiencies) (k : SkillKey) : bool :=
  match profs with
  | [] => false
  | (k', b) :: rest => if SkillKey_eqb k k' then b else skillFlag rest k
  end.

Definition profBonus (proficient : bool) : num :=
  if proficient then PROF_BONUS else of_Z 0.

(** [skillScores] (line 1577). *)
Definition skillScores (mods : ByAbility num) (profs : SkillProficiencies)
  : list (SkillKey * num) :=
  map (fun s => (key s, add (abilityAt mods (ability s)) (profBonus (skillFlag profs (key s)))))
      SKILLS.

(** The three passive scores (lines 1591 to 1593). *)
Definition passivePerception (mods : ByAbility num) (profs : SkillProficiencies) : num :=
  add (add (of_Z 10) (wis mods)) (profBonus (skillFlag profs perception)).

Definition passiveInvestigation (mods : ByAbility num) (profs : SkillProficiencies) : num :=
  add (add (of_Z 10) (int mods)) (profBonus (skillFlag profs investigation)).

Definition passiveInsight (mods : ByAbility num) (profs : SkillProficiencies) : num :=
  add (add (of_Z 10) (wis mods)) (profBonus (skillFlag profs insight)).

Section WithConversions.
Context {cv : Conversions}.


End WithConversions.

End Derived.
Export Derived.

(** ** More handlers of the sheet (App.tsx, lines 1472 to 1658) *)

Module SheetHandlers.

Local Open Scope string_scope.


(** The sheet together with the [passiveToAdd] cell that
    [addPassiveById] resets. *)
Record PassivePanel : Type := {
  sheetState : State;
  passiveToAdd : string
}.

(** [xs.includes(x)] and [set.has(x)] on strings. *)
Definition includes (xs : list string) (x : string) : bool :=
  existsb (String.eqb x) xs.

(** [xs.filter((y) => y !== x)]. *)
Definition without (xs : list string) (x : string) : list string :=
  filter (fun y => negb (String.eqb y x)) xs.


(** [totalPersonalCoins] (line 1640), a sum of counts: [add64]. *)
Definition totalPersonalCoins (st : State) : num :=
  fold_left (fun sum k => add64 sum (coinAt (personalBank (character st)) k))
            COIN_KEYS (of_Z 0).

Section WithConversions.
Context {cv : Conversions}.

(** [addSpellToCharacter] and [removeSpellFromCharacter] (lines 1472 to
    1480). *)
Definition addSpellToCharacter (e : Entropy) (st : State) (spellId : string) : State :=
  let known := knownSpellIds (character st) in
  if negb (nonEmpty spellId) then st
  else if includes known spellId then st
  else onUpdateCharacter e st [("knownSpellIds", stringsValue (spellId :: known))].

Definition removeSpellFromCharacter (e : Entropy) (st : State) (spellId : string) : State :=
  onUpdateCharacter e st
    [("knownSpellIds", stringsValue (without (knownSpellIds (character st)) spellId))].

(** [addPassiveById] and [removePassiveById] (lines 1502 to 1511); both
    pass the whole character along with the new list. *)
Definition addPassiveById (e : Entropy) (p : PassivePanel) (pid : string) : PassivePanel :=
  let st := sheetState p in
  let c := character st in
  if negb (nonEmpty pid) then p
  else if includes (passiveIds c) pid then p
  else
    {| sheetState :=
         onUpdateCharacter e st
           (spread (characterObject c)
              [("passiveIds", stringsValue (passiveIds c ++ [pid])%list)]);
       passiveToAdd := "" |}.

Definition removePassiveById (e : Entropy) (st : State) (pid : string) : State :=
  let c := character st in
  onUpdateCharacter e st
    (spread (characterObject c)
       [("passiveIds", stringsValue (without (passiveIds c) pid))]).

(** Equipping and unequipping (lines 1538 to 1551). *)
Definition equipWeaponById (e : Entropy) (st : State) (wid : string) : State :=
  if negb (nonEmpty wid) then st
  else onUpdateCharacter e st [("equippedWeaponId", VStr wid)].

Definition unequipWeapon (e : Entropy) (st : State) : State :=
  onUpdateCharacter e st [("equippedWeaponId", VNull)].

Definition equipArmorById (e : Entropy) (st : State) (aid : string) : State :=
  if negb (nonEmpty aid) then st
  else onUpdateCharacter e st [("equippedArmorId", VStr aid)].

Definition unequipArmor (e : Entropy) (st : State) : State :=
  onUpdateCharacter e st [("equippedArmorId", VNull)].

(** [toggleSkillProf] (line 1587). *)
Definition toggleSkillProf (e : Entropy) (st : State) (k : SkillKey) : State :=
  let profs := skillProficiencies (character st) in
  onUpdateCharacter e st
    [("skillProficiencies", skillsValue (setSkill profs k (negb (skillFlag profs k))))].

End WithConversions.

End SheetHandlers.
Export SheetHandlers.

(** ** The application state and the cloud row (App.tsx, lines 2551 to
    2701) *)

Module AppState.

Local Open Scope string_scope.

Inductive Page : Type := PageSpells | PageCreate | PageCharacters.

Record App : Type := {
  characters : list Character;
  selectedCharacterId : option string;
  page : Page
}.

(** [!!selectedCharacterId]. *)
Definition hasSelection (a : App) : bool :=
  match selectedCharacterId a with
  | Some s => nonEmpty s
  | None => false
  end.

Definition isSelected (a : App) (cid : string) : bool :=
  match selectedCharacterId a with
  | Some s => String.eqb s cid
  | None => false
  end.

(** [selectedCharacter] (line 2604). *)
Definition selectedCharacter (a : App) : option Character :=
  if hasSelection a then find (fun c => isSelected a (id c)) (characters a)
  else None.

Fixpoint mapFrom {A B} (i : nat) (f : nat -> A -> B) (l : list A) : list B :=
  match l with
  | [] => []
  | x :: l' => f i x :: mapFrom (S i) f l'
  end.

(** An object literal: a later property overrides an earlier one of the
    same name. *)
Definition objectLiteral (entries : list (string * value)) : object := rev entries.

(** The properties a spread [...v] copies that the normalisers can read:
    those of an object; the index keys of a string or an array are never
    read. *)
Definition spreadable (v : value) : object :=
  match v with
  | VObj o => o
  | _ => []
  end.

(** The form data [createCharacter] receives. *)
Record CreateInput : Type := {
  in_name : string;
  in_race : string;
  in_maxHp : num;
  in_maxMp : num;
  in_subtype : string;
  in_rank : Rank;
  in_abilitiesBase : Abilities;
  in_skillProficiencies : SkillProficiencies;
  in_saveProficiencies : SaveProficiencies
}.

Definition inputEntries (i : CreateInput) : list (string * value) :=
  [ ("name", VStr (in_name i));
    ("race", VStr (in_race i));
    ("maxHp", VNum (in_maxHp i));
    ("maxMp", VNum (in_maxMp i));
    ("subtype", VStr (in_subtype i));
    ("rank", VStr (Rank_text (in_rank i)));
    ("abilitiesBase", abilitiesValue (in_abilitiesBase i));
    ("skillProficiencies", skillsValue (in_skillProficiencies i));
    ("saveProficiencies", savesValue (in_saveProficiencies i)) ].

(** A row of the remote table; [user_id] and [updated_at] come from the
    session and the clock and are left out. *)
Record CloudRow : Type := {
  row_id : string;
  row_public_code : string;
  row_name : string;
  row_data : Character
}.

Definition rowValue (r : CloudRow) : value :=
  VObj [ ("id", VStr (row_id r));
         ("public_code", VStr (row_public_code r));
         ("name", VStr (row_name r));
         ("data", VObj (characterObject (row_data r))) ].

Section WithConversions.
Context {cv : Conversions}.

(** [updateSelectedCharacter] (line 2686); [es i] is what the call for
    the character at position [i] may draw. *)
Definition updateSelectedCharacter (es : nat -> Entropy) (a : App) (updates : object) : App :=
  if negb (hasSelection a) then a
  else
    {| characters :=
         mapFrom 0
           (fun i c =>
              if negb (isSelected a (id c)) then c
              else normalizeCharacter (es i) (spread (characterObject c) updates))
           (characters a);
       selectedCharacterId := selectedCharacterId a;
       page := page a |}.

(** [deleteCharacter] (line 2680) and [openCharacter] (line 2698). *)
Definition deleteCharacter (a : App) (cid : string) : App :=
  {| characters := filter (fun c => negb (String.eqb (id c) cid)) (characters a);
     selectedCharacterId :=
       if isSelected a cid then None else selectedCharacterId a;
     page := page a |}.

Definition openCharacter (a : App) (cid : string) : App :=
  {| characters := characters a;
     selectedCharacterId := Some cid;
     page := PageCharacters |}.

(** The character [createCharacter] builds (line 2644); [e] serves its own
    calls of [crypto.randomUUID] and [generatePublicCode], [e'] the
    normaliser. *)
Definition newCharacter (e e' : Entropy) (input : CreateInput) : Character :=
  let maxHp' :=
    if isFinite (in_maxHp input)
    then clamp (in_maxHp input) (of_Z 0) (of_Z 9999) else of_Z 30 in
  let maxMp' :=
    if isFinite (in_maxMp input)
    then clamp (in_maxMp input) (of_Z 0) (of_Z 9999) else of_Z 200 in
  normalizeCharacter e'
    (objectLiteral
       ([("id", VStr (randomUUID e))]
        ++ inputEntries input
        ++ [ ("partyName", VStr "");
             ("partyMembers", stringsValue [""; ""; ""; ""]);
             ("partyMemberCodes", stringsValue [""; ""; ""; ""]);
             ("publicCode", VStr (generatePublicCode e));
             ("missionDirective", VStr "");
             ("level", VNum LEVEL);
             ("currentHp", VNum maxHp');
             ("currentMp", VNum maxMp');
             ("knownSpellIds", VArr []);
             ("equippedWeaponId", VNull);
             ("equippedArmorId", VNull);
             ("personalBank", bankValue emptyBank);
             ("partyBank", bankValue emptyBank) ])%list).

Definition createCharacter (e e' : Entropy) (a : App) (input : CreateInput) : App :=
  {| characters := newCharacter e e' input :: characters a;
     selectedCharacterId := selectedCharacterId a;
     page := PageCharacters |}.

(** The row [upsertCharacterToCloud] sends (line 2609). *)
Definition upsertPayload (e e' : Entropy) (next : Character) : CloudRow :=
  let safeName := orElse (text (VStr (char_name next))) "Unnamed" in
  let code := orElse (normalizePublicCode (VStr (publicCode next))) (generatePublicCode e) in
  {| row_id := id next;
     row_public_code := code;
     row_name := safeName;
     row_data :=
       normalizeCharacter e'
         (spread (characterObject next)
            [("name", VStr safeName); ("publicCode", VStr code)]) |}.

(** A row read back from the store becomes a character (lines 2582 to
    2584). *)
Definition characterOfRow (e : Entropy) (row : value) : Character :=
  let data := coalesce (get row "data") (VObj []) in
  let rid :=
    ToString
      (coalesce (get row "id")
         (coalesce (get (get row "data") "id") (VStr (randomUUID e)))) in
  normalizeCharacter e
    (spread (spreadable data)
       [("id", VStr rid); ("public_code", get row "public_code")]).

End WithConversions.

End AppState.
Export AppState.

(** ** Record updates used to state what the other handlers change *)

Module Updates.

Definition withReferences (c : Character) (known passive : list string)
  (weapon armor : value) (skills : SkillProficiencies) (party : Bank) : Character :=
  {| id := id c; publicCode := publicCode c; char_name := char_name c;
     race := race c; subtype := subtype c; rank := rank c;
     partyName := partyName c; partyMembers := partyMembers c;
     partyMemberCodes := partyMemberCodes c;
     missionDirective := missionDirective c; notes := notes c;
     level := level c; maxHp := maxHp c; maxMp := maxMp c;
     currentHp := currentHp c; currentMp := currentMp c;
     abilitiesBase := abilitiesBase c;
     skillProficiencies := skills;
     saveProficiencies := saveProficiencies c;
     knownSpellIds := known; passiveIds := passive;
     equippedWeaponId := weapon;
     equippedArmorId := armor;
     personalBank := personalBank c; partyBank := party;
     weapons := weapons c; armors := armors c |}.

Definition withKnownSpellIds (c : Character) (known : list string) : Character :=
  withReferences c known (passiveIds c) (equippedWeaponId c) (equippedArmorId c)
    (skillProficiencies c) (partyBank c).

Definition withPassiveIds (c : Character) (passive : list string) : Character :=
  withReferences c (knownSpellIds c) passive (equippedWeaponId c) (equippedArmorId c)
    (skillProficiencies c) (partyBank c).

Definition withEquippedWeaponId (c : Character) (v : value) : Character :=
  withReferences c (knownSpellIds c) (passiveIds c) v (equippedArmorId c)
    (skillProficiencies c) (partyBank c).

Definition withEquippedArmorId (c : Character) (v : value) : Character :=
  withReferences c (knownSpellIds c) (passiveIds c) (equippedWeaponId c) v
    (skillProficiencies c) (partyBank c).

Definition withSkillProficiencies (c : Character) (p : SkillProficiencies) : Character :=
  withReferences c (knownSpellIds c) (passiveIds c) (equippedWeaponId c)
    (equippedArmorId c) p (partyBank c).

Definition withPartyBank (c : Character) (b : Bank) : Character :=
  withReferences c (knownSpellIds c) (passiveIds c) (equippedWeaponId c)
    (equippedArmorId c) (skillProficiencies c) b.

Definition withPersonalBank (c : Character) (b : Bank) : Character :=
  withVitalsAndBank c (currentHp c) (currentMp c) b.

Definition withNameAndCode (c : Character) (n code : string) : Character :=
  {| id := id c; publicCode := code; char_name := n;
     race := race c; subtype := subtype c; rank := rank c;
     partyName := partyName c; partyMembers := partyMembers c;
     partyMemberCodes := partyMemberCodes c;
     missionDirective := missionDirective c; notes := notes c;
     level := level c; maxHp := maxHp c; maxMp := maxMp c;
     currentHp := currentHp c; currentMp := currentMp c;
     abilitiesBase := abilitiesBase c;
     skillProficiencies := skillProficiencies c;
     saveProficiencies := saveProficiencies c;
     knownSpellIds := knownSpellIds c; passiveIds := passiveIds c;
     equippedWeaponId := equippedWeaponId c;
     equippedArmorId := equippedArmorId c;
     personalBank := personalBank c; partyBank := partyBank c;
     weapons := weapons c; armors := armors c |}.

(** The format [normalizePublicCode] produces. *)
Definition codeFormat (s : string) : Prop :=
  allChars isUpperAlnum s = true /\ (String.length s <= 16)%nat.

(** An integer between two bounds. *)
Definition integerWithin (lo hi : Z) (n : num) : Prop :=
  exists z : Z, n = of_Z z /\ (lo <= z <= hi)%Z.

End Updates.
Export Updates.

(** ** Editing the party roster (App.tsx, lines 1660 to 1662, 1862 to
    1873 and 1884 to 1898) *)

Module PartyEdits.

Local Open Scope string_scope.

(** [next[idx] = x] on a copy of an array: past the end the array grows,
    the slots in between being holes. *)
Fixpoint setAt (idx : nat) (x : value) (l : list value) : list value :=
  match idx, l with
  | O, [] => [x]
  | O, _ :: t => x :: t
  | S i, [] => VUndefined :: setAt i x []
  | S i, h :: t => h :: setAt i x t
  end.

(** The same on a list of strings, for a slot that exists. *)
Fixpoint replaceAt (idx : nat) (x : string) (l : list string) : list string :=
  match idx, l with
  | _, [] => []
  | O, _ :: t => x :: t
  | S i, h :: t => h :: replaceAt i x t
  end.

Definition withParty (c : Character) (members codes : list string) : Character :=
  {| id := id c; publicCode := publicCode c; char_name := char_name c;
     race := race c; subtype := subtype c; rank := rank c;
     partyName := partyName c; partyMembers := members;
     partyMemberCodes := codes;
     missionDirective := missionDirective c; notes := notes c;
     level := level c; maxHp := maxHp c; maxMp := maxMp c;
     currentHp := currentHp c; currentMp := currentMp c;
     abilitiesBase := abilitiesBase c;
     skillProficiencies := skillProficiencies c;
     saveProficiencies := saveProficiencies c;
     knownSpellIds := knownSpellIds c; passiveIds := passiveIds c;
     equippedWeaponId := equippedWeaponId c;
     equippedArmorId := equippedArmorId c;
     personalBank := personalBank c; partyBank := partyBank c;
     weapons := weapons c; armors := armors c |}.

Section WithConversions.
Context {cv : Conversions}.

(** The [onChange] of the member input number [idx]. *)
Definition editPartyMember (e : Entropy) (st : State) (idx : nat) (typed : string) : State :=
  let partyMembers := normalizePartyMembers (stringsValue (partyMembers (character st))) in
  let next := setAt idx (VStr typed) (map VStr partyMembers) in
  onUpdateCharacter e st [("partyMembers", VArr next)].

(** The [onChange] of the code input number [idx]. *)
Definition editPartyMemberCode (e : Entropy) (st : State) (idx : nat) (typed : string) : State :=
  let partyMemberCodes :=
    normalizePartyMemberCodes (stringsValue (partyMemberCodes (character st))) in
  let next :=
    setAt idx (VStr (normalizePublicCode (VStr typed))) (map VStr partyMemberCodes) in
  onUpdateCharacter e st [("partyMemberCodes", VArr next)].

End WithConversions.

End PartyEdits.
Export PartyEdits.

(** * Properties *)

(** ** Numbers *)

Module NumberFacts.

Lemma qle_true (p q : Qc) : qle p q = true <-> (p <= q)%Qc.
Proof. unfold qle, Qcle. apply Qle_bool_iff. Qed.

Lemma qle_false (p q : Qc) : qle p q = false <-> (q < p)%Qc.
Proof.
  split; intro H.
  - apply Qcnot_le_lt. intro L. apply qle_true in L. congruence.
  - destruct (qle p q) eqn:E; [|reflexivity].
    apply qle_true in E. exfalso. exact (Qclt_not_le _ _ H E).
Qed.

Lemma qle_refl (p : Qc) : qle p p = true.
Proof. apply qle_true. apply Qcle_refl. Qed.

Lemma qeq_true (p q : Qc) : qeq p q = true <-> p = q.
Proof.
  unfold qeq. rewrite Qeq_bool_iff. split.
  - apply Qc_is_canon.
  - intros ->. reflexivity.
Qed.

Lemma within_Fin lo hi n :
  within lo hi n -> exists q, n = Fin q /\ (Q2Qc (inject_Z lo) <= q <= Q2Qc (inject_Z hi))%Qc.
Proof.
  intros [H1 H2]. destruct n; simpl in *; try discriminate.
  exists q. split; [reflexivity|]. split; now apply qle_true.
Qed.

(** Inside the bounds [clamp] changes nothing. *)
Lemma clamp_fixed (q lo hi : Qc) :
  (lo <= q)%Qc -> (q <= hi)%Qc -> clamp (Fin q) (Fin lo) (Fin hi) = Fin q.
Proof.
  intros H1 H2. unfold clamp. simpl.
  destruct (qle hi q) eqn:E.
  - apply qle_true in E.
    assert (hi = q) by (apply Qcle_antisym; assumption). subst.
    apply qle_true in H1. now rewrite H1.
  - apply qle_true in H1. now rewrite H1.
Qed.

(** With ordered finite bounds [clamp] lands between them, whatever
    the number. *)
Lemma clamp_between (n : num) (lo hi : Qc) :
  (lo <= hi)%Qc ->
  exists r, clamp n (Fin lo) (Fin hi) = Fin r /\ (lo <= r)%Qc /\ (r <= hi)%Qc.
Proof.
  intros L. unfold clamp.
  destruct n as [| | |q]; simpl;
    try (exists lo; repeat split; [apply Qcle_refl | assumption]).
  destruct (qle hi q) eqn:E.
  - apply qle_true in L. rewrite L. exists hi. apply qle_true in L.
    repeat split; [assumption | apply Qcle_refl].
  - apply qle_false in E. destruct (qle lo q) eqn:F.
    + apply qle_true in F. exists q. repeat split; [assumption|].
      now apply Qclt_le_weak.
    + exists lo. repeat split; [apply Qcle_refl | assumption].
Qed.

Lemma clamp_not_finite (n lo hi : num) :
  isFinite n = false -> clamp n lo hi = lo.
Proof. unfold clamp. now intros ->. Qed.

Lemma Qfloor_Q2Qc_Z (z : Z) : Qfloor (Q2Qc (inject_Z z)) = z.
Proof.
  change (this (Q2Qc (inject_Z z))) with (Qred (inject_Z z)).
  rewrite (Qfloor_comp _ _ (Qred_correct (inject_Z z))).
  apply Qfloor_Z.
Qed.

Lemma Q2Qc_le (a b : Z) : (a <= b)%Z -> (Q2Qc (inject_Z a) <= Q2Qc (inject_Z b))%Qc.
Proof.
  intro H. unfold Qcle.
  change (Qred (inject_Z a) <= Qred (inject_Z b))%Q.
  rewrite !Qred_correct. now rewrite <- Zle_Qle.
Qed.

Lemma floor_of_Z (z : Z) : Math_floor (of_Z z) = of_Z z.
Proof.
  change (Math_floor (of_Z z)) with (of_Z (Qfloor (Q2Qc (inject_Z z)))).
  now rewrite Qfloor_Q2Qc_Z.
Qed.

Lemma coinCount_nonNeg (n : num) : nonNegInteger (coinCount n).
Proof.
  unfold coinCount. destruct n as [| | |q]; simpl;
    try (exists 0%Z; split; [lia | reflexivity]).
  destruct (qle (Q2Qc (inject_Z 0)) (Q2Qc (inject_Z (Qfloor q)))) eqn:E.
  - exists (Qfloor q). split; [|reflexivity].
    apply qle_true in E. unfold Qcle in E.
    change (Qred (inject_Z 0) <= Qred (inject_Z (Qfloor q)))%Q in E.
    rewrite !Qred_correct in E. now rewrite Zle_Qle.
  - exists 0%Z. split; [lia | reflexivity].
Qed.

Lemma coinCount_fixed (n : num) : nonNegInteger n -> coinCount n = n.
Proof.
  intros (z & Hz & ->). unfold coinCount.
  change (isFinite (of_Z z)) with true. cbv iota.
  rewrite floor_of_Z. unfold of_Z, of_Q. simpl.
  assert (E : qle (Q2Qc (inject_Z 0)) (Q2Qc (inject_Z z)) = true)
    by (apply qle_true; now apply Q2Qc_le).
  now rewrite E.
Qed.

Lemma within_finite lo hi n : within lo hi n -> isFinite n = true.
Proof. intros [H1 H2]. destruct n; simpl in *; congruence. Qed.

Lemma clamp_within (lo hi : Z) (n : num) :
  (lo <= hi)%Z -> within lo hi (clamp n (of_Z lo) (of_Z hi)).
Proof.
  intro L. destruct (clamp_between n _ _ (Q2Qc_le lo hi L)) as (r & E & H1 & H2).
  unfold of_Z, of_Q in *. rewrite E. split; simpl; now apply qle_true.
Qed.

Lemma clamp_within_fixed (lo hi : Z) (n : num) :
  within lo hi n -> clamp n (of_Z lo) (of_Z hi) = n.
Proof.
  intro W. destruct (within_Fin _ _ _ W) as (q & -> & H1 & H2).
  now apply clamp_fixed.
Qed.

Lemma clamp_le_between (n lo hi : num) :
  isFinite lo = true -> isFinite hi = true -> le lo hi = true ->
  le lo (clamp n lo hi) = true /\ le (clamp n lo hi) hi = true.
Proof.
  intros F G L. destruct lo as [| | |a]; try discriminate.
  destruct hi as [| | |b]; try discriminate.
  simpl in L. apply qle_true in L.
  destruct (clamp_between n a b L) as (r & E & H1 & H2).
  rewrite E. simpl. split; now apply qle_true.
Qed.

Lemma clamp_le_fixed (n lo hi : num) :
  isFinite lo = true -> isFinite hi = true ->
  le lo n = true -> le n hi = true -> clamp n lo hi = n.
Proof.
  intros F G H1 H2.
  destruct lo as [| | |a]; try discriminate.
  destruct hi as [| | |b]; try discriminate.
  destruct n as [| | |q]; try discriminate.
  simpl in *. apply clamp_fixed; now apply qle_true.
Qed.

(** Rounding to a double. *)

Lemma roundHalfEven_one (n : Z) : roundHalfEven n 1 = n.
Proof. unfold roundHalfEven. now rewrite Z.mod_1_r, Z.div_1_r. Qed.

(** The integer chosen is within one half of the quotient. *)
Lemma roundHalfEven_nearest (n d : Z) :
  (0 < d)%Z -> (Z.abs (2 * (n - d * roundHalfEven n d)) <= d)%Z.
Proof.
  intro D. unfold roundHalfEven.
  pose proof (Z.div_mod n d ltac:(lia)) as E.
  pose proof (Z.mod_pos_bound n d D) as B.
  destruct (2 * (n mod d) ?= d)%Z eqn:C.
  - apply Z.compare_eq in C. destruct (Z.even (n / d)); nia.
  - rewrite Z.compare_lt_iff in C. nia.
  - rewrite Z.compare_gt_iff in C. nia.
Qed.

Lemma binade_integer (n : Z) : (0 < n)%Z -> binade n 1 = Z.log2 n.
Proof.
  intro H. unfold binade. change (Z.log2 1) with 0%Z. rewrite Z.sub_0_r.
  pose proof (Z.log2_nonneg n) as L. pose proof (Z.log2_spec n H) as [S _].
  rewrite (Z.max_r 0 (Z.log2 n)) by lia. rewrite (Z.max_l 0 (- Z.log2 n)) by lia.
  rewrite Z.pow_0_r, Z.mul_1_r, Z.mul_1_l.
  destruct (2 ^ Z.log2 n <=? n)%Z eqn:E; [reflexivity|]. apply Z.leb_gt in E. lia.
Qed.

Lemma fraction_of_Z (z : Z) :
  Qnum (Q2Qc (inject_Z z)) = z /\ Qden (Q2Qc (inject_Z z)) = 1%positive.
Proof.
  assert (E : Qred (inject_Z z) = inject_Z z)
    by (apply Qred_identity; simpl; apply Z.gcd_1_r).
  unfold Q2Qc, this. rewrite E. split; reflexivity.
Qed.

(** An integer of magnitude at most [2^53] is a double: rounding keeps
    it. *)
Lemma round64_of_Z (z : Z) :
  (Z.abs z <= exactBound)%Z -> round64 (Q2Qc (inject_Z z)) = of_Z z.
Proof.
  intro B. unfold round64. destruct (fraction_of_Z z) as [En Ed]. rewrite En, Ed.
  destruct (Z.abs z =? 0)%Z eqn:Z0; [reflexivity|]. apply Z.eqb_neq in Z0.
  assert (P : (0 < Z.abs z)%Z) by lia.
  rewrite (binade_integer _ P).
  pose proof (Z.log2_nonneg (Z.abs z)) as L0.
  destruct (Z.log2_spec _ P) as [S1 S2].
  assert (L : (Z.log2 (Z.abs z) <= 53)%Z).
  { destruct (Z_le_gt_dec (Z.log2 (Z.abs z)) 53) as [|G]; [assumption|].
    assert (2 ^ 54 <= 2 ^ Z.log2 (Z.abs z))%Z by (apply Z.pow_le_mono_r; lia).
    unfold exactBound in B. lia. }
  rewrite (Z.max_l (Z.log2 (Z.abs z) - 52) (-1074)) by lia.
  destruct (Z.eq_dec (Z.log2 (Z.abs z)) 53) as [E53|N53].
  - assert (A : Z.abs z = exactBound).
    { rewrite E53 in S1. unfold exactBound in *.
      change (2 ^ 53)%Z with 9007199254740992%Z in S1. lia. }
    assert (C : z = exactBound \/ z = (- exactBound)%Z) by lia.
    unfold of_Z, of_Q.
    destruct C as [-> | ->]; vm_compute; f_equal; apply Qc_is_canon; reflexivity.
  - set (k := (52 - Z.log2 (Z.abs z))%Z).
    assert (K : (0 <= k)%Z) by (unfold k; lia).
    replace (Z.log2 (Z.abs z) - 52)%Z with (- k)%Z by (unfold k; lia).
    rewrite Z.opp_involutive, (Z.max_r 0 k), (Z.max_l 0 (- k)) by lia.
    change (2 ^ 0)%Z with 1%Z. change (1 * 1)%Z with 1%Z.
    rewrite roundHalfEven_one, !Z.mul_1_r.
    assert (M : (Z.abs z * 2 ^ k < 2 ^ 53)%Z).
    { replace 53%Z with ((Z.log2 (Z.abs z) + 1) + k)%Z by (unfold k; lia).
      rewrite Z.pow_add_r by lia.
      apply Z.mul_lt_mono_pos_r; [apply Z.pow_pos_nonneg; lia | exact S2]. }
    assert (O : (2 ^ 1024 <=? Z.abs z * 2 ^ k)%Z = false).
    { apply Z.leb_gt. eapply Z.lt_trans; [exact M|]. reflexivity. }
    rewrite O. unfold of_Z, of_Q. f_equal. apply Qc_is_canon.
    unfold Q2Qc, this. rewrite !Qred_correct. unfold Qeq, inject_Z, Qnum, Qden.
    assert (T : (0 < 2 ^ k)%Z) by (apply Z.pow_pos_nonneg; lia).
    rewrite Z2Pos.id by exact T. nia.
Qed.

End NumberFacts.

(** ** Strings *)

Module StringFacts.

Local Open Scope string_scope.

Ltac each_char c := destruct c as [[] [] [] [] [] [] [] []]; try reflexivity.

Lemma upperChar_idem (c : ascii) : upperChar (upperChar c) = upperChar c.
Proof. each_char c. Qed.

Lemma upperChar_space (c : ascii) : isWhiteSpace (upperChar c) = isWhiteSpace c.
Proof. each_char c. Qed.

Lemma mapChars_idem (f : ascii -> ascii) (s : string) :
  (forall c, f (f c) = f c) -> mapChars f (mapChars f s) = mapChars f s.
Proof.
  intro Hf. induction s as [|c s IH]; simpl; [reflexivity|].
  now rewrite Hf, IH.
Qed.

Lemma toUpperCase_idem (s : string) : toUpperCase (toUpperCase s) = toUpperCase s.
Proof. apply mapChars_idem, upperChar_idem. Qed.

Lemma trimStart_head (s : string) :
  trimStart s = "" \/
  exists c r, trimStart s = String c r /\ isWhiteSpace c = false.
Proof.
  induction s as [|c s IH]; simpl; [now left|].
  destruct (isWhiteSpace c) eqn:E; [exact IH|].
  right. now exists c, s.
Qed.

Lemma trimEnd_head (c : ascii) (s : string) :
  isWhiteSpace c = false -> exists r, trimEnd (String c s) = String c r.
Proof.
  intro E. simpl. rewrite E. destruct (trimEnd s); eauto.
Qed.

Lemma trimEnd_idem (s : string) : trimEnd (trimEnd s) = trimEnd s.
Proof.
  induction s as [|c s IH]; simpl; [reflexivity|].
  destruct (trimEnd s) as [|d r] eqn:E.
  - destruct (isWhiteSpace c) eqn:W; simpl; [reflexivity|]. now rewrite W.
  - simpl in *. now rewrite IH.
Qed.

Lemma trim_idem (s : string) : trim (trim s) = trim s.
Proof.
  unfold trim. destruct (trimStart_head s) as [E | (c & r & E & W)]; rewrite E.
  - reflexivity.
  - destruct (trimEnd_head c r W) as (r' & E'). rewrite E'.
    simpl trimStart. rewrite W. rewrite <- E'. apply trimEnd_idem.
Qed.

Lemma trimStart_mapChars (f : ascii -> ascii) (s : string) :
  (forall c, isWhiteSpace (f c) = isWhiteSpace c) ->
  trimStart (mapChars f s) = mapChars f (trimStart s).
Proof.
  intro Hf. induction s as [|c s IH]; simpl; [reflexivity|].
  rewrite Hf. now destruct (isWhiteSpace c).
Qed.

Lemma trimEnd_mapChars (f : ascii -> ascii) (s : string) :
  (forall c, isWhiteSpace (f c) = isWhiteSpace c) ->
  trimEnd (mapChars f s) = mapChars f (trimEnd s).
Proof.
  intro Hf. induction s as [|c s IH]; simpl; [reflexivity|].
  rewrite IH, Hf. destruct (trimEnd s); simpl; [|reflexivity].
  now destruct (isWhiteSpace c).
Qed.

Lemma trim_toUpperCase (s : string) : trim (toUpperCase s) = toUpperCase (trim s).
Proof.
  unfold trim, toUpperCase.
  rewrite trimStart_mapChars by apply upperChar_space.
  apply trimEnd_mapChars, upperChar_space.
Qed.

(** The shape of a code slot and of a public code: upper-casing the
    trimmed text gives the text back. *)
Lemma upper_trim_stable (s : string) :
  let u := toUpperCase (trim s) in toUpperCase (trim u) = u.
Proof.
  simpl. now rewrite trim_toUpperCase, trim_idem, toUpperCase_idem.
Qed.

Lemma trim_no_space (s : string) :
  allChars (fun c => negb (isWhiteSpace c)) s = true -> trim s = s.
Proof.
  intro H. unfold trim.
  assert (S : trimStart s = s).
  { destruct s as [|c s]; simpl in *; [reflexivity|].
    apply andb_prop in H. destruct H as [H _].
    now destruct (isWhiteSpace c). }
  rewrite S. clear S. induction s as [|c s IH]; simpl in *; [reflexivity|].
  apply andb_prop in H. destruct H as [Hc Hs]. rewrite (IH Hs).
  destruct s; [|reflexivity]. now destruct (isWhiteSpace c).
Qed.

Lemma mapChars_fixed (f : ascii -> ascii) (s : string) :
  allChars (fun c => Ascii.eqb (f c) c) s = true -> mapChars f s = s.
Proof.
  induction s as [|c s IH]; simpl; [reflexivity|].
  intro H. apply andb_prop in H. destruct H as [Hc Hs].
  apply Ascii.eqb_eq in Hc. now rewrite Hc, IH.
Qed.

Lemma allChars_app (p : ascii -> bool) (s t : string) :
  allChars p (s ++ t) = allChars p s && allChars p t.
Proof.
  induction s as [|c s IH]; simpl; [reflexivity|].
  now rewrite IH, andb_assoc.
Qed.

Lemma allChars_mapChars (p : ascii -> bool) (f : ascii -> ascii) (s : string) :
  allChars p (mapChars f s) = allChars (fun c => p (f c)) s.
Proof.
  induction s as [|c s IH]; simpl; [reflexivity|]. now rewrite IH.
Qed.

Lemma allChars_weaken (p q : ascii -> bool) (s : string) :
  (forall c, p c = true -> q c = true) ->
  allChars p s = true -> allChars q s = true.
Proof.
  intro Hpq. induction s as [|c s IH]; simpl; [reflexivity|].
  intro H. apply andb_prop in H. destruct H as [Hc Hs].
  now rewrite (Hpq c Hc), IH.
Qed.

Lemma length_mapChars (f : ascii -> ascii) (s : string) :
  String.length (mapChars f s) = String.length s.
Proof. induction s as [|c s IH]; simpl; [reflexivity|]. now rewrite IH. Qed.

Lemma length_append (s t : string) :
  String.length (s ++ t) = (String.length s + String.length t)%nat.
Proof. induction s as [|c s IH]; simpl; [reflexivity|]. now rewrite IH. Qed.

Lemma nonEmpty_length (s : string) : (0 < String.length s)%nat -> nonEmpty s = true.
Proof. destruct s; simpl; [lia | reflexivity]. Qed.

End StringFacts.

(** ** Generated public codes *)

Module RandomFacts.

Import StringFacts.
Local Open Scope string_scope.

Lemma hex_byte (b : Byte.byte) :
  let s := padStart 2 "0"%char (byteToString16 b) in
  String.length s = 2%nat /\ allChars isHexLower s = true.
Proof. destruct b; split; reflexivity. Qed.

Lemma concat_empty_cons (x : string) (xs : list string) :
  String.concat "" (x :: xs) = x ++ String.concat "" xs.
Proof.
  destruct xs; simpl; [|reflexivity].
  induction x as [|c x IH]; simpl; [reflexivity|]. now rewrite <- IH.
Qed.

Lemma concat_allChars (p : ascii -> bool) (l : list string) :
  Forall (fun s => allChars p s = true) l ->
  allChars p (String.concat "" l) = true.
Proof.
  induction 1 as [|x xs Hx _ IH]; [reflexivity|].
  rewrite concat_empty_cons, allChars_app. now rewrite Hx, IH.
Qed.

Lemma concat_length (n : nat) (l : list string) :
  Forall (fun s => String.length s = n) l ->
  String.length (String.concat "" l) = (List.length l * n)%nat.
Proof.
  induction 1 as [|x xs Hx _ IH]; [reflexivity|].
  rewrite concat_empty_cons, length_append, Hx, IH. reflexivity.
Qed.

Lemma upper_hex (c : ascii) : isHexLower c = true -> isHexUpper (upperChar c) = true.
Proof. each_char c; discriminate. Qed.

Lemma hexUpper_no_space (c : ascii) : isHexUpper c = true -> negb (isWhiteSpace c) = true.
Proof. each_char c; discriminate. Qed.

Lemma hexUpper_upper (c : ascii) : isHexUpper c = true -> Ascii.eqb (upperChar c) c = true.
Proof. each_char c; discriminate. Qed.

(** A generated code is twelve characters of [0-9A-F]. *)
Lemma generatePublicCode_format (e : Entropy) :
  String.length (generatePublicCode e) = 12%nat /\
  allChars isHexUpper (generatePublicCode e) = true.
Proof.
  unfold generatePublicCode, toUpperCase. split.
  - rewrite length_mapChars.
    rewrite (concat_length 2).
    + unfold getRandomValues. now rewrite !length_map, length_seq.
    + apply Forall_forall. intros s Hs. apply in_map_iff in Hs.
      destruct Hs as (b & <- & _). apply hex_byte.
  - rewrite allChars_mapChars.
    apply allChars_weaken with (p := isHexLower); [apply upper_hex|].
    apply concat_allChars. apply Forall_forall. intros s Hs.
    apply in_map_iff in Hs. destruct Hs as (b & <- & _). apply hex_byte.
Qed.

Lemma generatePublicCode_stable (e : Entropy) :
  nonEmpty (generatePublicCode e) = true /\
  toUpperCase (trim (generatePublicCode e)) = generatePublicCode e.
Proof.
  destruct (generatePublicCode_format e) as [L H]. split.
  - apply nonEmpty_length. rewrite L. lia.
  - rewrite trim_no_space
      by (revert H; apply allChars_weaken, hexUpper_no_space).
    apply mapChars_fixed. revert H. apply allChars_weaken, hexUpper_upper.
Qed.

End RandomFacts.

(** ** The normalisers, field by field *)

Module NormalizeFacts.

Import NumberFacts StringFacts RandomFacts.
Local Open Scope string_scope.

Lemma Forall_take {A} (P : A -> Prop) (n : nat) (l : list A) :
  Forall P l -> Forall P (firstn n l).
Proof.
  intro H. revert n. induction H as [|x l Hx _ IH]; intros [|n]; simpl; auto.
Qed.

Section WithConversions.
Context {cv : Conversions}.

Lemma text_VStr (s : string) : text (VStr s) = trim s.
Proof. reflexivity. Qed.

Lemma text_trimmed (v : value) : trimmed (text v).
Proof. apply trim_idem. Qed.

Lemma normalizeRank_text (r : Rank) : normalizeRank (VStr (Rank_text r)) = r.
Proof. destruct r; reflexivity. Qed.

Lemma finiteNumber_finite (n : num) : isFinite n = true -> finiteNumber (VNum n) = Some n.
Proof. simpl. now intros ->. Qed.

Lemma preset_hp_within (r : Race) : within 0 9999 (hp (getRaceStats (Race_text r))).
Proof. destruct r; split; reflexivity. Qed.

Lemma preset_mp_within (r : Race) : within 0 9999 (mp (getRaceStats (Race_text r))).
Proof. destruct r; split; reflexivity. Qed.

Lemma map_text_strings (l : list string) : map text (map VStr l) = map trim l.
Proof. rewrite map_map. reflexivity. Qed.

Lemma map_trim_trimmed (l : list string) : Forall trimmed l -> map trim l = l.
Proof.
  induction 1 as [|s l Hs _ IH]; simpl; [reflexivity|]. now rewrite Hs, IH.
Qed.

Lemma padded_length (n : nat) (v : value) :
  List.length (normalizeStringArray v (Some n)) = n.
Proof.
  unfold normalizeStringArray. rewrite length_app, repeat_length, length_firstn. lia.
Qed.

Lemma padded_trimmed (n : nat) (v : value) :
  Forall trimmed (normalizeStringArray v (Some n)).
Proof.
  unfold normalizeStringArray. apply Forall_app. split.
  - apply Forall_take, Forall_forall. intros s Hs.
    apply in_map_iff in Hs. destruct Hs as (x & <- & _). apply text_trimmed.
  - apply Forall_forall. intros s Hs. apply repeat_spec in Hs. now subst.
Qed.

Lemma padded_fixed (l : list string) :
  List.length l = 4%nat -> Forall trimmed l ->
  normalizeStringArray (stringsValue l) (Some 4%nat) = l.
Proof.
  intros L T. unfold normalizeStringArray, stringsValue, arrayItems.
  rewrite map_text_strings, (map_trim_trimmed l T).
  rewrite firstn_all2 by lia. rewrite L. simpl. apply app_nil_r.
Qed.

Lemma compact_shape (v : value) :
  Forall (fun s => trimmed s /\ nonEmpty s = true) (normalizeStringArray v None).
Proof.
  unfold normalizeStringArray. apply Forall_forall. intros s Hs.
  apply filter_In in Hs. destruct Hs as [Hs Hn]. split; [|exact Hn].
  apply in_map_iff in Hs. destruct Hs as (x & <- & _). apply text_trimmed.
Qed.

Lemma compact_fixed (l : list string) :
  Forall (fun s => trimmed s /\ nonEmpty s = true) l ->
  normalizeStringArray (stringsValue l) None = l.
Proof.
  intro H. unfold normalizeStringArray, stringsValue, arrayItems.
  rewrite map_text_strings.
  induction H as [|s l [Hs Hn] _ IH]; simpl; [reflexivity|].
  rewrite Hs, Hn. now rewrite IH.
Qed.

Lemma codes_fixed (l : list string) :
  List.length l = 4%nat -> Forall (fun u => toUpperCase (trim u) = u) l ->
  map (fun s => toUpperCase (trim (ToString (VStr s))))
      (normalizeStringArray (stringsValue l) (Some 4%nat)) = l.
Proof.
  intros L U. unfold normalizeStringArray, stringsValue, arrayItems.
  rewrite map_text_strings, length_firstn, length_map, L. simpl repeat.
  rewrite app_nil_r, firstn_all2 by (rewrite length_map; lia).
  rewrite map_map. clear L.
  induction U as [|u l Hu _ IH]; simpl; [reflexivity|].
  f_equal; [now rewrite trim_idem | exact IH].
Qed.

Lemma codes_shape (v : value) :
  let l := map (fun s => toUpperCase (trim (ToString (VStr s))))
               (normalizeStringArray v (Some 4%nat)) in
  List.length l = 4%nat /\ Forall (fun u => toUpperCase (trim u) = u) l.
Proof.
  cbv zeta. split.
  - now rewrite length_map, padded_length.
  - apply Forall_forall. intros u Hu. apply in_map_iff in Hu.
    destruct Hu as (s & <- & _). apply upper_trim_stable.
Qed.

Lemma normalizeSkillProfs_flags (v : value) :
  normalizeSkillProfs v =
  map (fun s => (key s, ToBoolean (get v (SkillKey_text (key s))))) SKILLS.
Proof. reflexivity. Qed.

Lemma skills_shape (v : value) : map fst (normalizeSkillProfs v) = map key SKILLS.
Proof. reflexivity. Qed.

Lemma skills_fixed (p : SkillProficiencies) :
  map fst p = map key SKILLS -> normalizeSkillProfs (skillsValue p) = p.
Proof.
  intro H. cbn in H.
  repeat (destruct p as [|[? ?] p]; [discriminate H|];
          cbn in H; injection H as -> H).
  destruct p; [|discriminate H]. reflexivity.
Qed.

Lemma saves_fixed (p : SaveProficiencies) : normalizeSaveProfs (savesValue p) = p.
Proof. destruct p; reflexivity. Qed.

Lemma normalizeBank_counts (v : value) :
  normalizeBank v =
  {| bronzeCount := coinCount (ToNumber (get v "bronze"));
     silverCount := coinCount (ToNumber (get v "silver"));
     goldCount := coinCount (ToNumber (get v "gold"));
     diamondCount := coinCount (ToNumber (get v "diamond")) |}.
Proof. reflexivity. Qed.

Lemma bank_shape (v : value) (k : CoinKey) : nonNegInteger (coinAt (normalizeBank v) k).
Proof. rewrite normalizeBank_counts. destruct k; apply coinCount_nonNeg. Qed.

Lemma bank_fixed (b : Bank) :
  (forall k, nonNegInteger (coinAt b k)) -> normalizeBank (bankValue b) = b.
Proof.
  intro H. rewrite normalizeBank_counts. destruct b as [b1 b2 b3 b4].
  change (ToNumber (get (bankValue _) "bronze")) with b1.
  change (ToNumber (get (bankValue _) "silver")) with b2.
  change (ToNumber (get (bankValue _) "gold")) with b3.
  change (ToNumber (get (bankValue _) "diamond")) with b4.
  f_equal; [apply (coinCount_fixed _ (H bronze)) | apply (coinCount_fixed _ (H silver))
           | apply (coinCount_fixed _ (H gold)) | apply (coinCount_fixed _ (H diamond))].
Qed.

Lemma score_within (n : num) :
  within 1 30 (if isFinite n then clamp n (of_Z 1) (of_Z 30) else of_Z 10).
Proof.
  destruct (isFinite n).
  - apply clamp_within. lia.
  - split; reflexivity.
Qed.

Lemma score_fixed (n : num) :
  within 1 30 n -> (if isFinite n then clamp n (of_Z 1) (of_Z 30) else of_Z 10) = n.
Proof.
  intro W. rewrite (within_finite _ _ _ W). now apply clamp_within_fixed.
Qed.

Lemma abilities_shape (v : value) (k : AbilityKey) :
  within 1 30 (abilityAt (normalizeAbilitiesBase v) k).
Proof. destruct k; apply score_within. Qed.

Lemma abilities_fixed (a : Abilities) :
  (forall k, within 1 30 (abilityAt a k)) ->
  normalizeAbilitiesBase (abilitiesValue a) = a.
Proof.
  intro H. destruct a as [a1 a2 a3 a4 a5 a6].
  unfold normalizeAbilitiesBase, forAbilityKeys.
  f_equal; [apply (score_fixed _ (H STR)) | apply (score_fixed _ (H DEX))
           | apply (score_fixed _ (H CON)) | apply (score_fixed _ (H INT))
           | apply (score_fixed _ (H WIS)) | apply (score_fixed _ (H CHA))].
Qed.

Lemma reference_shape (v : value) : coalesce v VNull <> VUndefined.
Proof. destruct v; discriminate. Qed.

Lemma reference_fixed (v : value) : v <> VUndefined -> coalesce v VNull = v.
Proof. destruct v; try reflexivity. intro H. now elim H. Qed.

Lemma publicCode_shape (v : value) (e : Entropy) :
  let p := orElse (toUpperCase (text v)) (generatePublicCode e) in
  nonEmpty p = true /\ toUpperCase (trim p) = p.
Proof.
  cbv zeta. unfold orElse.
  destruct (nonEmpty (toUpperCase (text v))) eqn:E.
  - split; [exact E|]. apply upper_trim_stable.
  - apply generatePublicCode_stable.
Qed.

Lemma publicCode_fixed (p g : string) :
  nonEmpty p = true -> toUpperCase (trim p) = p ->
  orElse (toUpperCase (text (coalesce (VStr p) VUndefined))) g = p.
Proof.
  intros N U. change (text (coalesce (VStr p) VUndefined)) with (trim p).
  rewrite U. unfold orElse. now rewrite N.
Qed.

Lemma race_shape (v : value) :
  let r := orElse (text v) "Human" in nonEmpty r = true /\ trimmed r.
Proof.
  cbv zeta. unfold orElse. destruct (nonEmpty (text v)) eqn:E.
  - split; [exact E | apply text_trimmed].
  - split; reflexivity.
Qed.

Lemma race_fixed (r : string) :
  nonEmpty r = true -> trimmed r -> orElse (text (VStr r)) "Human" = r.
Proof.
  intros N T. rewrite text_VStr, T. unfold orElse. now rewrite N.
Qed.

Lemma max_shape (v : value) (d : num) :
  within 0 9999 d ->
  within 0 9999
    match finiteNumber v with
    | Some n => clamp n (of_Z 0) (of_Z 9999)
    | None => d
    end.
Proof.
  intro D. destruct (finiteNumber v); [apply clamp_within; lia | exact D].
Qed.

Lemma current_shape (raw m : num) :
  within 0 9999 m ->
  le (of_Z 0) (clamp raw (of_Z 0) m) = true /\ le (clamp raw (of_Z 0) m) m = true.
Proof.
  intro M. apply clamp_le_between;
    [reflexivity | exact (within_finite _ _ _ M) | apply M].
Qed.

Lemma current_fixed (n m : num) :
  within 0 9999 m -> le (of_Z 0) n = true -> le n m = true ->
  clamp n (of_Z 0) m = n.
Proof.
  intros M H1 H2. apply clamp_le_fixed;
    [reflexivity | exact (within_finite _ _ _ M) | exact H1 | exact H2].
Qed.

Ltac eval_props :=
  repeat match goal with
  | |- context [prop ?o ?k] =>
      let v := eval cbv [prop lookup spread characterObject app
                         String.eqb Ascii.eqb Bool.eqb] in (prop o k) in
      change (prop o k) with v
  end.

Ltac fields :=
  cbn [id publicCode char_name race subtype rank partyName partyMembers
       partyMemberCodes missionDirective notes level maxHp maxMp currentHp
       currentMp abilitiesBase skillProficiencies saveProficiencies
       knownSpellIds passiveIds equippedWeaponId equippedArmorId
       personalBank partyBank weapons armors].

(** Every result of [normalizeCharacter] has the normal shape. *)
Lemma normalizeCharacter_Normal (e : Entropy) (c : object) :
  Normal (normalizeCharacter e c).
Proof.
  assert (MH : within 0 9999 (maxHp (normalizeCharacter e c)))
    by (apply max_shape, preset_hp_within).
  assert (MM : within 0 9999 (maxMp (normalizeCharacter e c)))
    by (apply max_shape, preset_mp_within).
  constructor; try assumption; unfold normalizeCharacter; cbv zeta; fields.
  - apply publicCode_shape.
  - apply text_trimmed.
  - apply race_shape.
  - apply text_trimmed.
  - apply text_trimmed.
  - split; [apply padded_length | apply padded_trimmed].
  - apply codes_shape.
  - apply text_trimmed.
  - destruct (finiteNumber (prop c "level"));
      [apply clamp_within; lia | split; reflexivity].
  - apply current_shape, MH.
  - apply current_shape, MM.
  - apply abilities_shape.
  - apply skills_shape.
  - apply compact_shape.
  - apply compact_shape.
  - apply reference_shape.
  - apply reference_shape.
  - apply bank_shape.
  - apply bank_shape.
Qed.

(** Normalising a normal character again, with its current vitals and
    personal bank replaced by untrusted values, only renormalises these
    three fields. *)
Lemma renormalize (e : Entropy) (c : Character) (hv mv bv : value) :
  Normal c ->
  normalizeCharacter e
    (spread (characterObject c)
       [("currentHp", hv); ("currentMp", mv); ("personalBank", bv)]) =
  withVitalsAndBank c
    (clamp match finiteNumber hv with Some n => n | None => maxHp c end
           (of_Z 0) (maxHp c))
    (clamp match finiteNumber mv with Some n => n | None => maxMp c end
           (of_Z 0) (maxMp c))
    (normalizeBank bv).
Proof.
  intros [[Hp1 Hp2] Hn [Hr1 Hr2] Hs Hpn [Hm1 Hm2] [Hc1 Hc2] Hd Hl Hmh Hmm
          _ _ Ha Hk Hks Hps Hw Har _ Hpb].
  unfold normalizeCharacter, withVitalsAndBank. cbv zeta. eval_props.
  rewrite (finiteNumber_finite _ (within_finite _ _ _ Hl)).
  rewrite (finiteNumber_finite _ (within_finite _ _ _ Hmh)).
  rewrite (finiteNumber_finite _ (within_finite _ _ _ Hmm)).
  rewrite (clamp_within_fixed _ _ _ Hl), (clamp_within_fixed _ _ _ Hmh),
          (clamp_within_fixed _ _ _ Hmm).
  rewrite (publicCode_fixed _ _ Hp1 Hp2), (race_fixed _ Hr1 Hr2).
  rewrite !text_VStr, Hn, Hs, Hpn, Hd.
  rewrite normalizeRank_text.
  rewrite (padded_fixed _ Hm1 Hm2), (codes_fixed _ Hc1 Hc2).
  rewrite (abilities_fixed _ Ha), (skills_fixed _ Hk), saves_fixed.
  rewrite (compact_fixed _ Hks), (compact_fixed _ Hps).
  rewrite (reference_fixed _ Hw), (reference_fixed _ Har).
  rewrite (bank_fixed _ Hpb).
  reflexivity.
Qed.

Lemma withVitalsAndBank_same (c : Character) :
  withVitalsAndBank c (currentHp c) (currentMp c) (personalBank c) = c.
Proof. destruct c; reflexivity. Qed.

Lemma current_finite (n m : num) :
  within 0 9999 m -> le (of_Z 0) n = true -> le n m = true -> isFinite n = true.
Proof.
  intros M H1 H2. destruct n; try reflexivity; try discriminate.
  apply within_finite in M. destruct m; discriminate.
Qed.

(** A normal character is a fixed point of [normalizeCharacter]. *)
Lemma normalizeCharacter_fixed (e : Entropy) (c : Character) :
  Normal c -> normalizeCharacter e (characterObject c) = c.
Proof.
  intro N.
  transitivity
    (normalizeCharacter e
       (spread (characterObject c)
          [("currentHp", VNum (currentHp c)); ("currentMp", VNum (currentMp c));
           ("personalBank", bankValue (personalBank c))])).
  { unfold normalizeCharacter. cbv zeta. eval_props. reflexivity. }
  rewrite (renormalize e c _ _ _ N).
  destruct N as [_ _ _ _ _ _ _ _ _ Hmh Hmm [Hh1 Hh2] [Hm1 Hm2] _ _ _ _ _ _ Hpb _].
  rewrite (finiteNumber_finite _ (current_finite _ _ Hmh Hh1 Hh2)).
  rewrite (finiteNumber_finite _ (current_finite _ _ Hmm Hm1 Hm2)).
  rewrite (current_fixed _ _ Hmh Hh1 Hh2), (current_fixed _ _ Hmm Hm1 Hm2).
  rewrite (bank_fixed _ Hpb). apply withVitalsAndBank_same.
Qed.

(** The three updates the sheet's vitals and coin handlers make. *)
Lemma update_currentHp (e : Entropy) (c : Character) (v : num) :
  Normal c ->
  normalizeCharacter e (spread (characterObject c) [("currentHp", VNum v)]) =
  withCurrentHp c (clamp (if isFinite v then v else maxHp c) (of_Z 0) (maxHp c)).
Proof.
  intro N.
  transitivity
    (normalizeCharacter e
       (spread (characterObject c)
          [("currentHp", VNum v); ("currentMp", VNum (currentMp c));
           ("personalBank", bankValue (personalBank c))])).
  { unfold normalizeCharacter. cbv zeta. eval_props. reflexivity. }
  rewrite (renormalize e c _ _ _ N).
  destruct N as [_ _ _ _ _ _ _ _ _ _ Hmm _ [Hm1 Hm2] _ _ _ _ _ _ Hpb _].
  rewrite (finiteNumber_finite _ (current_finite _ _ Hmm Hm1 Hm2)).
  rewrite (current_fixed _ _ Hmm Hm1 Hm2), (bank_fixed _ Hpb).
  unfold withCurrentHp, finiteNumber. now destruct (isFinite v).
Qed.

Lemma update_currentMp_personalBank (e : Entropy) (c : Character) (v : num) (b : Bank) :
  Normal c ->
  normalizeCharacter e
    (spread (characterObject c)
       [("personalBank", bankValue b); ("currentMp", VNum v)]) =
  withMpAndPersonalBank c
    (clamp (if isFinite v then v else maxMp c) (of_Z 0) (maxMp c))
    (normalizeBank (bankValue b)).
Proof.
  intro N.
  transitivity
    (normalizeCharacter e
       (spread (characterObject c)
          [("currentHp", VNum (currentHp c)); ("currentMp", VNum v);
           ("personalBank", bankValue b)])).
  { unfold normalizeCharacter. cbv zeta. eval_props. reflexivity. }
  rewrite (renormalize e c _ _ _ N).
  destruct N as [_ _ _ _ _ _ _ _ _ Hmh _ [Hh1 Hh2] _ _ _ _ _ _ _ _ _].
  rewrite (finiteNumber_finite _ (current_finite _ _ Hmh Hh1 Hh2)).
  rewrite (current_fixed _ _ Hmh Hh1 Hh2).
  unfold withMpAndPersonalBank, finiteNumber. now destruct (isFinite v).
Qed.

Lemma update_currentMp (e : Entropy) (c : Character) (v : num) :
  Normal c ->
  normalizeCharacter e (spread (characterObject c) [("currentMp", VNum v)]) =
  withCurrentMp c (clamp (if isFinite v then v else maxMp c) (of_Z 0) (maxMp c)).
Proof.
  intro N.
  transitivity
    (normalizeCharacter e
       (spread (characterObject c)
          [("personalBank", bankValue (personalBank c)); ("currentMp", VNum v)])).
  { unfold normalizeCharacter. cbv zeta. eval_props. reflexivity. }
  rewrite (update_currentMp_personalBank e c v _ N).
  rewrite (bank_fixed _ (normal_personalBank _ N)). reflexivity.
Qed.

End WithConversions.

End NormalizeFacts.

(** ** The sheet's handlers on a normal character *)

Module SheetFacts.

Import NumberFacts StringFacts RandomFacts NormalizeFacts.
Local Open Scope string_scope.

Lemma of_Z_sub (a b : Z) : sub (of_Z a) (of_Z b) = of_Z (a - b).
Proof.
  unfold of_Z, of_Q, sub. f_equal. apply Qc_is_canon.
  unfold Qcminus, Qcplus, Qcopp, Q2Qc, this.
  rewrite !Qred_correct. unfold Z.sub.
  now rewrite inject_Z_plus, inject_Z_opp.
Qed.

Lemma of_Z_le (a b : Z) : le (of_Z a) (of_Z b) = (a <=? b)%Z.
Proof.
  unfold of_Z, of_Q, le. destruct (a <=? b)%Z eqn:E.
  - apply qle_true, Q2Qc_le. lia.
  - apply qle_false. apply Qcnot_le_lt. intro H. unfold Qcle in H.
    change (Qred (inject_Z a) <= Qred (inject_Z b))%Q in H.
    rewrite !Qred_correct, <- Zle_Qle in H. lia.
Qed.

Lemma of_Z_eq (a b : Z) : JsNumber.eq (of_Z a) (of_Z b) = (a =? b)%Z.
Proof.
  unfold of_Z, of_Q, JsNumber.eq. destruct (a =? b)%Z eqn:E.
  - apply qeq_true. f_equal. f_equal. lia.
  - destruct (qeq _ _) eqn:F; [|reflexivity].
    apply qeq_true in F. apply (f_equal this) in F.
    change (Qred (inject_Z a) = Qred (inject_Z b)) in F.
    assert (G : (inject_Z a == inject_Z b)%Q)
      by (rewrite <- (Qred_correct (inject_Z a)), <- (Qred_correct (inject_Z b)), F;
          reflexivity).
    apply Z.eqb_neq in E. elim E. exact (proj1 (inject_Z_injective a b) G).
Qed.

Lemma of_Z_floor_half (n : Z) : Math_floor (div (of_Z n) (of_Z 2)) = of_Z (n / 2).
Proof.
  unfold of_Z at 1 2, of_Q, div.
  change (qeq (Q2Qc (inject_Z 2)) (Q2Qc 0)) with false. cbv iota.
  unfold Math_floor. f_equal. rewrite Zdiv_Qdiv.
  apply Qfloor_comp.
  unfold Qcdiv, Qcmult, Qcinv, Q2Qc, this.
  rewrite !Qred_correct. reflexivity.
Qed.

(** Clamping twice between the same bounds is clamping once. *)
Lemma clamp_twice (v m : num) :
  within 0 9999 m ->
  let w := clamp v (of_Z 0) m in
  clamp (if isFinite w then w else m) (of_Z 0) m = w.
Proof.
  intro M. cbv zeta. destruct (current_shape v m M) as [H1 H2].
  rewrite (current_finite _ _ M H1 H2). now apply current_fixed.
Qed.

Lemma max_fixed (m : num) :
  within 0 9999 m -> clamp (if isFinite m then m else m) (of_Z 0) m = m.
Proof.
  intro M. rewrite (within_finite _ _ _ M). apply current_fixed; try assumption.
  - apply M.
  - destruct (within_Fin _ _ _ M) as (q & -> & _). apply qle_refl.
Qed.


Section WithConversions.
Context {cv : Conversions}.

Lemma setHp_normal (e : Entropy) (st : State) (v : num) :
  Normal (character st) ->
  setHp e st v =
  withCharacter st
    (withCurrentHp (character st) (clamp v (of_Z 0) (maxHp (character st)))).
Proof.
  intro N. unfold setHp, onUpdateCharacter.
  rewrite (update_currentHp e _ _ N).
  now rewrite (clamp_twice v _ (normal_maxHp _ N)).
Qed.

Lemma setMp_normal (e : Entropy) (st : State) (v : num) :
  Normal (character st) ->
  setMp e st v =
  withCharacter st
    (withCurrentMp (character st) (clamp v (of_Z 0) (maxMp (character st)))).
Proof.
  intro N. unfold setMp, onUpdateCharacter.
  rewrite (update_currentMp e _ _ N).
  now rewrite (clamp_twice v _ (normal_maxMp _ N)).
Qed.

Lemma castSpell_normal (e : Entropy) (st : State) (spell : Spell) :
  Normal (character st) ->
  castSpell e st spell =
  if lt (currentMp (character st)) (mpCost spell) then st
  else
    withCharacter st
      (withCurrentMp (character st)
         (clamp (sub (currentMp (character st)) (mpCost spell))
                (of_Z 0) (maxMp (character st)))).
Proof.
  intro N. unfold castSpell. cbv zeta.
  destruct (lt _ _); [reflexivity|].
  unfold onUpdateCharacter. rewrite (update_currentMp e _ _ N).
  now rewrite (clamp_twice _ _ (normal_maxMp _ N)).
Qed.

(** A cost taken from the tier table, when affordable, is subtracted
    exactly: the clamp has nothing to do. *)
Lemma affordable_cost (c : Character) (t : MpTier) :
  Normal c ->
  lt (currentMp c) (MP_TIER_TO_COST t) = false ->
  clamp (sub (currentMp c) (MP_TIER_TO_COST t)) (of_Z 0) (maxMp c) =
  sub (currentMp c) (MP_TIER_TO_COST t).
Proof.
  intros N L. destruct (normal_currentMp _ N) as [H1 H2].
  pose proof (normal_maxMp _ N) as M.
  destruct (within_Fin _ _ _ M) as (m & Em & _). rewrite Em in *.
  destruct (currentMp c) as [| | |p] eqn:Ep; try discriminate.
  simpl in H1, H2. apply qle_true in H1, H2.
  assert (exists z, (0 <= z)%Z /\ MP_TIER_TO_COST t = of_Z z) as (z & Hz & Et)
    by (destruct t; eexists; (split; [|reflexivity]); lia).
  rewrite Et in *. unfold of_Z, of_Q in L |- *. simpl in L.
  apply negb_false_iff, qle_true in L.
  pose proof (Q2Qc_le 0 z Hz) as Z0.
  simpl sub. apply clamp_fixed.
  - apply Qcle_minus_iff in L. exact L.
  - apply Qcle_trans with p; [|exact H2].
    apply Qcle_minus_iff.
    replace (p + - (p - Q2Qc (inject_Z z)))%Qc with (Q2Qc (inject_Z z)) by ring.
    exact Z0.
Qed.

Lemma setCoin_shape (b : Bank) (k : CoinKey) (n : num) :
  (forall j, nonNegInteger (coinAt b j)) -> nonNegInteger n ->
  forall j, nonNegInteger (coinAt (setCoin b k n) j).
Proof.
  intros B Hn j. pose proof (B bronze). pose proof (B silver).
  pose proof (B gold). pose proof (B diamond).
  destruct k, j; assumption.
Qed.

(** The difference of two integers as the machine computes it is exact
    when it is at most [2^53] in magnitude. *)
Lemma sub64_of_Z (a b : Z) :
  (Z.abs (a - b) <= exactBound)%Z -> sub64 (of_Z a) (of_Z b) = of_Z (a - b).
Proof.
  intro H. unfold sub64. rewrite of_Z_sub. unfold of_Z at 1, of_Q.
  now apply round64_of_Z.
Qed.

(** A bank with one count replaced by any number, once normalised. *)
Lemma bank_stored (b : Bank) (k : CoinKey) (n : num) :
  (forall j, nonNegInteger (coinAt b j)) ->
  normalizeBank (bankValue (setCoin b k n)) = setCoin b k (coinCount n).
Proof.
  intro H. rewrite normalizeBank_counts.
  pose proof (coinCount_fixed _ (H bronze)) as B1.
  pose proof (coinCount_fixed _ (H silver)) as B2.
  pose proof (coinCount_fixed _ (H gold)) as B3.
  pose proof (coinCount_fixed _ (H diamond)) as B4.
  destruct b as [b1 b2 b3 b4]. cbn [coinAt bronzeCount silverCount goldCount diamondCount] in *.
  destruct k; cbn [setCoin bronzeCount silverCount goldCount diamondCount];
    match goal with
    | |- context [bankValue ?x] =>
        change (ToNumber (get (bankValue x) "bronze")) with (bronzeCount x);
        change (ToNumber (get (bankValue x) "silver")) with (silverCount x);
        change (ToNumber (get (bankValue x) "gold")) with (goldCount x);
        change (ToNumber (get (bankValue x) "diamond")) with (diamondCount x)
    end;
    cbn [bronzeCount silverCount goldCount diamondCount];
    rewrite ?B1, ?B2, ?B3, ?B4; reflexivity.
Qed.

(** The count [confirmEatCoin] leaves of a count: one less up to [2^53],
    and beyond what [normalizeBank] stores for the rounded difference. *)
Lemma eaten_count (z : Z) :
  (0 < z)%Z ->
  coinCount (sub64 (of_Z z) (of_Z 1)) =
  if le (of_Z z) (of_Z exactBound) then sub (of_Z z) (of_Z 1)
  else coinCount (sub64 (of_Z z) (of_Z 1)).
Proof.
  intro H. rewrite of_Z_le. destruct (z <=? exactBound)%Z eqn:E; [|reflexivity].
  apply Z.leb_le in E. rewrite sub64_of_Z by (unfold exactBound in *; lia).
  rewrite of_Z_sub. apply coinCount_fixed. exists (z - 1)%Z. split; [lia | reflexivity].
Qed.

Lemma confirmEatCoin_normal (e : Entropy) (st : State) :
  Normal (character st) ->
  let c := character st in
  let count := coinAt (personalBank c) (eatCoinType st) in
  confirmEatCoin e st =
  if JsNumber.eq count (of_Z 0) then st
  else
    setEatCoinOpen
      (withCharacter st
         (withMpAndPersonalBank c (maxMp c)
            (setCoin (personalBank c) (eatCoinType st)
               (if le count (of_Z exactBound) then sub count (of_Z 1)
                else coinCount (sub64 count (of_Z 1))))))
      false.
Proof.
  intro N. cbv zeta. unfold confirmEatCoin. cbv zeta.
  destruct (normal_personalBank _ N (eatCoinType st)) as (z & Hz & Ez).
  rewrite Ez, (of_Z_le z 0), of_Z_eq.
  destruct (z =? 0)%Z eqn:E0.
  - replace (z <=? 0)%Z with true by lia. reflexivity.
  - replace (z <=? 0)%Z with false by lia.
    unfold onUpdateCharacter.
    rewrite (update_currentMp_personalBank e _ _ _ N).
    rewrite (max_fixed _ (normal_maxMp _ N)).
    rewrite (bank_stored _ _ _ (normal_personalBank _ N)).
    rewrite <- (eaten_count z) by lia. reflexivity.
Qed.

End WithConversions.

End SheetFacts.

(** ** Party codes: the two paths *)

Module CodeFacts.

Import StringFacts NormalizeFacts.
Local Open Scope string_scope.

Lemma filterChars_all (p : ascii -> bool) (s : string) :
  allChars p (filterChars p s) = true.
Proof.
  induction s as [|c s IH]; simpl; [reflexivity|].
  destruct (p c) eqn:E; simpl; [now rewrite E, IH | exact IH].
Qed.

Lemma sliceTo_all (p : ascii -> bool) (n : nat) (s : string) :
  allChars p s = true -> allChars p (sliceTo n s) = true.
Proof.
  revert s. induction n as [|n IH]; intros [|c s] H; simpl in *; try reflexivity.
  apply andb_prop in H. destruct H as [Hc Hs]. now rewrite Hc, IH.
Qed.

Lemma sliceTo_length (n : nat) (s : string) : (String.length (sliceTo n s) <= n)%nat.
Proof.
  revert s. induction n as [|n IH]; intros [|c s]; simpl; try lia.
  specialize (IH s). lia.
Qed.

Section WithConversions.
Context {cv : Conversions}.

(** [normalizePublicCode] gives upper-case letters and digits, at most
    sixteen of them. *)
Lemma normalizePublicCode_format (v : value) :
  allChars isUpperAlnum (normalizePublicCode v) = true /\
  (String.length (normalizePublicCode v) <= 16)%nat.
Proof.
  unfold normalizePublicCode. cbv zeta. split.
  - apply sliceTo_all, filterChars_all.
  - apply sliceTo_length.
Qed.

(** The sheet's own [normalizePartyMemberCodes] gives four slots of that
    format. *)
Lemma normalizePartyMemberCodes_format (v : value) :
  List.length (normalizePartyMemberCodes v) = 4%nat /\
  Forall (fun s => allChars isUpperAlnum s = true /\ (String.length s <= 16)%nat)
         (normalizePartyMemberCodes v).
Proof.
  unfold normalizePartyMemberCodes. cbv zeta. split.
  - rewrite length_firstn, length_app, repeat_length. lia.
  - apply Forall_take, Forall_app. split.
    + destruct v; try constructor. apply Forall_forall. intros s Hs.
      apply in_map_iff in Hs. destruct Hs as (x & <- & _).
      apply normalizePublicCode_format.
    + apply Forall_forall. intros s Hs. apply repeat_spec in Hs. subst.
      split; [reflexivity | simpl; lia].
Qed.

(** [normalizeCharacter] always yields four code slots. *)
Lemma partyMemberCodes_length (e : Entropy) (c : object) :
  List.length (partyMemberCodes (normalizeCharacter e c)) = 4%nat.
Proof. apply (normal_partyMemberCodes _ (normalizeCharacter_Normal e c)). Qed.

End WithConversions.

End CodeFacts.

(** * The properties of the specification *)

Section Claims.

Import NumberFacts StringFacts RandomFacts NormalizeFacts SheetFacts CodeFacts.
Local Open Scope string_scope.

Context {cv : Conversions}.

(** C1.  Normalising a character is idempotent: normalising the result of
    [normalizeCharacter] again, whatever the random draws of the second
    call, gives that result back. *)
Theorem C1_normalizeCharacter_idempotent (e1 e2 : Entropy) (x : object) :
  normalizeCharacter e2 (characterObject (normalizeCharacter e1 x)) =
  normalizeCharacter e1 x.
Proof. apply normalizeCharacter_fixed, normalizeCharacter_Normal. Qed.

(** C2.  For every raw input the normalised character has
    [0 <= currentHp <= maxHp <= 9999], [0 <= currentMp <= maxMp <= 9999]
    and each of its six base ability scores in [[1,30]]. *)
Theorem C2_normalizeCharacter_bounds (e : Entropy) (x : object) :
  let c := normalizeCharacter e x in
  (le (of_Z 0) (currentHp c) = true /\
   le (currentHp c) (maxHp c) = true /\
   le (maxHp c) (of_Z 9999) = true) /\
  (le (of_Z 0) (currentMp c) = true /\
   le (currentMp c) (maxMp c) = true /\
   le (maxMp c) (of_Z 9999) = true) /\
  forall k : AbilityKey,
    le (of_Z 1) (abilityAt (abilitiesBase c) k) = true /\
    le (abilityAt (abilitiesBase c) k) (of_Z 30) = true.
Proof.
  cbv zeta. pose proof (normalizeCharacter_Normal e x) as N.
  repeat split;
    try apply (normal_currentHp _ N); try apply (normal_currentMp _ N);
    try apply (normal_maxHp _ N); try apply (normal_maxMp _ N);
    apply (normal_abilitiesBase _ N).
Qed.

(** C3.  For every raw spell the normalised spell's [mpCost] is the table
    value of its normalised [mpTier] (None 0, Low 25, Med 50, High 100,
    Very High 150, Extreme 200), and an [mpCost] supplied on input changes
    nothing. *)
Theorem C3_normalizeSpell_mpCost (e : Entropy) (s : value) :
  mpCost (normalizeSpell e s) =
    match mpTier (normalizeSpell e s) with
    | TierNone => of_Z 0
    | TierLow => of_Z 25
    | TierMed => of_Z 50
    | TierHigh => of_Z 100
    | TierVeryHigh => of_Z 150
    | TierExtreme => of_Z 200
    end /\
  mpTier (normalizeSpell e s) = normalizeMpTier (get s "mpTier") /\
  forall (fields : object) (supplied : value),
    normalizeSpell e (VObj (("mpCost", supplied) :: fields)) =
    normalizeSpell e (VObj fields).
Proof.
  split; [|split].
  - unfold normalizeSpell. cbv zeta. simpl mpCost. simpl mpTier.
    now destruct (normalizeMpTier (get s "mpTier")).
  - reflexivity.
  - reflexivity.
Qed.

(** C4.  On a normalised character [castSpell] changes nothing when
    [currentMp < spell.mpCost]; otherwise only [currentMp] changes, to the
    difference clamped into [[0, maxMp]], which is never below 0.  For a
    normalised spell the new [currentMp] is exactly the difference. *)
Theorem C4_castSpell (e0 e es : Entropy) (x : object) (st0 : State)
  (spell : Spell) (s : value) :
  let c := normalizeCharacter e0 x in
  let st := withCharacter st0 c in
  castSpell e st spell =
    (if lt (currentMp c) (mpCost spell) then st
     else withCharacter st
            (withCurrentMp c
               (clamp (sub (currentMp c) (mpCost spell)) (of_Z 0) (maxMp c)))) /\
  le (of_Z 0) (currentMp (character (castSpell e st spell))) = true /\
  currentMp (character (castSpell e st (normalizeSpell es s))) =
    (if lt (currentMp c) (mpCost (normalizeSpell es s)) then currentMp c
     else sub (currentMp c) (mpCost (normalizeSpell es s))).
Proof.
  cbv zeta. pose proof (normalizeCharacter_Normal e0 x) as N.
  set (c := normalizeCharacter e0 x) in *.
  assert (E : forall sp,
    castSpell e (withCharacter st0 c) sp =
    if lt (currentMp c) (mpCost sp) then withCharacter st0 c
    else withCharacter (withCharacter st0 c)
           (withCurrentMp c (clamp (sub (currentMp c) (mpCost sp)) (of_Z 0) (maxMp c))))
    by (intro sp; apply (castSpell_normal e (withCharacter st0 c) sp N)).
  split; [apply E|]. split.
  - rewrite E. destruct (lt _ _).
    + apply (normal_currentMp _ N).
    + apply current_shape, (normal_maxMp _ N).
  - rewrite E. destruct (lt _ _) eqn:L; [reflexivity|].
    apply (affordable_cost c _ N L).
Qed.

(** C5 (amended).  On a normalised character, eating a coin whose
    personal-bank count is 0 changes nothing; otherwise one update sets
    [currentMp] to [maxMp], closes the panel and, for a count of at most
    2^53 = 9007199254740992, takes exactly 1 from that count.  Above
    2^53 the count stored is what [normalizeBank] makes of the double
    nearest to the count less 1. *)
Theorem C5_confirmEatCoin (e0 e : Entropy) (x : object) (st0 : State) :
  let c := normalizeCharacter e0 x in
  let st := withCharacter st0 c in
  let coin := eatCoinType st in
  let count := coinAt (personalBank c) coin in
  confirmEatCoin e st =
    (if JsNumber.eq count (of_Z 0) then st
     else setEatCoinOpen
            (withCharacter st
               (withMpAndPersonalBank c (maxMp c)
                  (setCoin (personalBank c) coin
                     (if le count (of_Z 9007199254740992) then sub count (of_Z 1)
                      else coinCount (sub64 count (of_Z 1))))))
            false).
Proof.
  cbv zeta.
  apply (confirmEatCoin_normal e (withCharacter st0 (normalizeCharacter e0 x))).
  apply normalizeCharacter_Normal.
Qed.

(** C6.  The failing input of the party-code claim: [normalizeCharacter]
    keeps four slots but only trims and upper-cases them, so punctuation
    and more than 16 characters survive, where the sheet's own
    [normalizePartyMemberCodes] strips and cuts the same input. *)
Theorem C6_partyMemberCodes_not_stripped (e : Entropy) :
  let raw := VArr [VStr " ab-cd! "; VStr "abcdefghijklmnopqrstuvwxyz"] in
  partyMemberCodes (normalizeCharacter e [("partyMemberCodes", raw)]) =
    ["AB-CD!"; "ABCDEFGHIJKLMNOPQRSTUVWXYZ"; ""; ""] /\
  normalizePartyMemberCodes raw = ["ABCD"; "ABCDEFGHIJKLMNOP"; ""; ""].
Proof. split; reflexivity. Qed.

(** C7 (amended).  [normalizeArmor] returns a finite [acBonus], the
    number of the input when that is finite and 0 otherwise; an ability
    key has a bonus exactly when the number of the input's value for it is
    finite and not zero, and the bonus kept is that number.  Nothing is
    rounded. *)
Theorem C7_normalizeArmor_finite (e : Entropy) (a : value) :
  let r := normalizeArmor e a in
  let n := ToNumber (get a "acBonus") in
  isFinite (acBonus r) = true /\
  acBonus r = (if isFinite n then n else of_Z 0) /\
  forall k : AbilityKey,
    let b := ToNumber (get (get a "abilityBonuses") (AbilityKey_text k)) in
    match abilityAt (abilityBonuses r) k with
    | Some q => q = b /\ isFinite q = true /\ JsNumber.eq q (of_Z 0) = false
    | None => isFinite b && negb (JsNumber.eq b (of_Z 0)) = false
    end.
Proof.
  cbv zeta. split; [|split].
  - simpl acBonus. now destruct (isFinite (ToNumber (get a "acBonus"))) eqn:E.
  - reflexivity.
  - intro k.
    assert (E : abilityAt (abilityBonuses (normalizeArmor e a)) k =
      let b := ToNumber (get (get a "abilityBonuses") (AbilityKey_text k)) in
      if isFinite b && negb (JsNumber.eq b (of_Z 0)) then Some b else None)
      by (destruct k; reflexivity).
    rewrite E. cbv zeta.
    destruct (isFinite _ && negb _) eqn:F; [|reflexivity].
    apply andb_prop in F. destruct F as [F1 F2].
    apply negb_true_iff in F2. auto.
Qed.

(** C8.  The ability modifier of an integer score is [(score - 10) / 2]
    rounded toward minus infinity; 1, 8, 9, 10, 11 and 20 give -5, -1, -1,
    0, 0 and 5. *)
Theorem C8_modFromScore (z : Z) :
  modFromScore (of_Z z) = of_Z ((z - 10) / 2) /\
  (2 * ((z - 10) / 2) <= z - 10 < 2 * ((z - 10) / 2) + 2)%Z /\
  modFromScore (of_Z 1) = of_Z (-5) /\
  modFromScore (of_Z 8) = of_Z (-1) /\
  modFromScore (of_Z 9) = of_Z (-1) /\
  modFromScore (of_Z 10) = of_Z 0 /\
  modFromScore (of_Z 11) = of_Z 0 /\
  modFromScore (of_Z 20) = of_Z 5.
Proof.
  assert (E : forall n, modFromScore (of_Z n) = of_Z ((n - 10) / 2))
    by (intro n; unfold modFromScore; now rewrite of_Z_sub, of_Z_floor_half).
  split; [apply E|]. split.
  - pose proof (Z.div_mod (z - 10) 2). pose proof (Z.mod_pos_bound (z - 10) 2). lia.
  - rewrite !E. repeat split.
Qed.


(** C10.  When the input's [currentHp] (or [currentMp]) is missing or not
    a finite number, the normalised character has it equal to the
    normalised [maxHp] (or [maxMp]): full, not zero. *)
Theorem C10_missing_current_defaults_to_max (e : Entropy) (x : object) :
  let c := normalizeCharacter e x in
  currentHp c =
    match finiteNumber (prop x "currentHp") with
    | Some n => clamp n (of_Z 0) (maxHp c)
    | None => maxHp c
    end /\
  currentMp c =
    match finiteNumber (prop x "currentMp") with
    | Some n => clamp n (of_Z 0) (maxMp c)
    | None => maxMp c
    end.
Proof.
  cbv zeta. pose proof (normalizeCharacter_Normal e x) as N.
  pose proof (normal_maxHp _ N) as MH. pose proof (normal_maxMp _ N) as MM.
  split.
  - destruct (finiteNumber (prop x "currentHp")) eqn:E.
    + unfold normalizeCharacter at 1. cbv zeta. simpl currentHp. now rewrite E.
    + transitivity (clamp (maxHp (normalizeCharacter e x)) (of_Z 0)
                          (maxHp (normalizeCharacter e x))).
      * unfold normalizeCharacter. cbv zeta. simpl currentHp. simpl maxHp.
        now rewrite E.
      * rewrite <- (max_fixed _ MH) at 3. now rewrite (within_finite _ _ _ MH).
  - destruct (finiteNumber (prop x "currentMp")) eqn:E.
    + unfold normalizeCharacter at 1. cbv zeta. simpl currentMp. now rewrite E.
    + transitivity (clamp (maxMp (normalizeCharacter e x)) (of_Z 0)
                          (maxMp (normalizeCharacter e x))).
      * unfold normalizeCharacter. cbv zeta. simpl currentMp. simpl maxMp.
        now rewrite E.
      * rewrite <- (max_fixed _ MM) at 3. now rewrite (within_finite _ _ _ MM).
Qed.

End Claims.

(** * Worked examples

    The examples of the specification's section 8, evaluated with the
    sample conversions and entropy. *)

Module Examples.

Import Sample.
Local Open Scope string_scope.

#[local] Existing Instance decimal.

Example medSpell_cost : mpCost medSpell = of_Z 50 /\ mpTier medSpell = TierMed.
Proof. split; reflexivity. Qed.

(** Casting a 50 MP spell with 40 MP left changes nothing. *)
Example cast_rejected :
  let st := sheetOf [("maxMp", VNum (of_Z 200)); ("currentMp", VNum (of_Z 40))] bronze in
  castSpell entropy st medSpell = st /\ currentMp (character st) = of_Z 40.
Proof. split; reflexivity. Qed.

Example cast_accepted :
  let st := sheetOf [("maxMp", VNum (of_Z 200)); ("currentMp", VNum (of_Z 120))] bronze in
  currentMp (character (castSpell entropy st medSpell)) = of_Z 70.
Proof. reflexivity. Qed.

(** Two bronze coins and [maxMp = 200]: eating a bronze coin leaves one
    and refills the pool; eating a silver coin does nothing. *)
Example eat_bronze :
  let st := sheetOf [("maxMp", VNum (of_Z 200)); ("currentMp", VNum (of_Z 10));
                     ("personalBank", bankOf2Bronze)] bronze in
  let c' := character (confirmEatCoin entropy st) in
  coinAt (personalBank c') bronze = of_Z 1 /\ currentMp c' = of_Z 200 /\
  eatCoinOpen (confirmEatCoin entropy st) = false.
Proof. repeat split; reflexivity. Qed.

Example eat_silver :
  let st := sheetOf [("maxMp", VNum (of_Z 200)); ("currentMp", VNum (of_Z 10));
                     ("personalBank", bankOf2Bronze)] silver in
  confirmEatCoin entropy st = st /\ currentMp (character st) = of_Z 10.
Proof. split; reflexivity. Qed.

(** Party slots are cut or padded to four. *)
Example party_padded :
  partyMembers (normalizeCharacter entropy [("partyMembers", VArr [VStr "A"])]) =
  ["A"; ""; ""; ""].
Proof. reflexivity. Qed.

Example party_cut :
  partyMembers
    (normalizeCharacter entropy
       [("partyMembers", VArr [VStr "A"; VStr "B"; VStr "C"; VStr "D"; VStr "E"])]) =
  ["A"; "B"; "C"; "D"].
Proof. reflexivity. Qed.

(** A document without vitals comes out at the Human preset, full. *)
Example empty_document :
  let c := normalizeCharacter entropy [] in
  maxHp c = of_Z 150 /\ currentHp c = of_Z 150 /\
  maxMp c = of_Z 200 /\ currentMp c = of_Z 200 /\
  publicCode c = "0AF3007CE145" /\ race c = "Human" /\ level c = of_Z 5.
Proof. repeat split; reflexivity. Qed.

Example corrupted_vitals :
  let c := normalizeCharacter entropy
             [("race", VStr "elf"); ("currentHp", VStr "12"); ("currentMp", VNum NaN)] in
  currentHp c = of_Z 125 /\ currentMp c = of_Z 250.
Proof. split; reflexivity. Qed.

Example setHp_NaN :
  let st := sheetOf [("maxHp", VNum (of_Z 90)); ("currentHp", VNum (of_Z 30))] bronze in
  currentHp (character (setHp entropy st NaN)) = of_Z 0 /\
  currentHp (character (setHp entropy st (of_Z 500))) = of_Z 90.
Proof. split; reflexivity. Qed.

(** C5, counterexample.  With 2^53 + 2 = 9007199254740994 bronze coins,
    eating one refills the pool and leaves 2^53 = 9007199254740992: two
    coins are gone, not one. *)
Lemma C5_counterexample :
  let st := sheetOf [("maxMp", VNum (of_Z 200)); ("currentMp", VNum (of_Z 10));
                     ("personalBank", hoard)] bronze in
  let c' := character (confirmEatCoin entropy st) in
  coinAt (personalBank (character st)) bronze = of_Z 9007199254740994 /\
  coinAt (personalBank c') bronze = of_Z 9007199254740992 /\
  coinAt (personalBank c') bronze <> sub (of_Z 9007199254740994) (of_Z 1) /\
  currentMp c' = of_Z 200.
Proof.
  cbv zeta. split; [reflexivity|]. split; [vm_compute; reflexivity|].
  split; [|vm_compute; reflexivity].
  intro H.
  apply (f_equal (fun n => match n with Fin q => Qnum q | _ => 0%Z end)) in H.
  vm_compute in H. discriminate H.
Qed.

(** The same subtraction in the Standard Library's specification of
    IEEE 754 arithmetic: 2^53 + 2 is [4503599627370497 * 2^1] and the
    difference is [4503599627370496 * 2^1]. *)
Example hoard_less_one_binary64 :
  SpecFloat.SFsub 53 1024 (binary64 9007199254740994) (binary64 1) =
  SpecFloat.S754_finite false 4503599627370496 1 /\
  sub64 (of_Z 9007199254740994) (of_Z 1) = of_Z (4503599627370496 * 2 ^ 1).
Proof. split; vm_compute; reflexivity. Qed.

(** [add64] and [sub64] against that specification, on the doubles
    around 2^53, 2^54 and 10^21 and steps of up to 3. *)
Example add64_sub64_binary64 :
  forallb
    (fun a =>
       forallb
         (fun b =>
            JsNumber.eq (add64 (ofBinary64 (binary64 a)) (of_Z b))
                        (ofBinary64 (SpecFloat.SFadd 53 1024 (binary64 a) (binary64 b)))
            && JsNumber.eq (sub64 (ofBinary64 (binary64 a)) (of_Z b))
                           (ofBinary64 (SpecFloat.SFsub 53 1024 (binary64 a) (binary64 b))))
         (integersFrom (-3) 1 7))
    (integersFrom (2 ^ 53 - 20) 1 60 ++ integersFrom (2 ^ 54 - 40) 2 60
     ++ integersFrom (10 ^ 21 - 2 ^ 20) (2 ^ 16) 40)%list = true.
Proof. vm_compute. reflexivity. Qed.

(** With 10^21 coins eating one takes none, and still refills the
    pool. *)
Example eat_one_of_1e21 :
  let many := VObj [("bronze", VNum (of_Z (10 ^ 21)))] in
  let st := sheetOf [("maxMp", VNum (of_Z 200)); ("currentMp", VNum (of_Z 10));
                     ("personalBank", many)] bronze in
  let c' := character (confirmEatCoin entropy st) in
  coinAt (personalBank c') bronze = of_Z (10 ^ 21) /\ currentMp c' = of_Z 200.
Proof. split; vm_compute; reflexivity. Qed.

(** Rounding to a double: ties go to the even neighbour, and what
    reaches 2^1024 is an infinity. *)
Example round64_cases :
  add64 (of_Z 9007199254740992) (of_Z 1) = of_Z 9007199254740992 /\
  add64 (of_Z 9007199254740994) (of_Z 1) = of_Z 9007199254740996 /\
  add64 (of_Z 9007199254740992) (of_Z 3) = of_Z 9007199254740996 /\
  add64 (of_Q (1 # 2)) (of_Q (1 # 4)) = of_Q (3 # 4) /\
  add64 (of_Z (2 ^ 1023)) (of_Z (2 ^ 1023)) = PosInf /\
  sub64 (of_Z (- 2 ^ 1023)) (of_Z (2 ^ 1023)) = NegInf.
Proof. repeat split; vm_compute; reflexivity. Qed.


(** Without [crypto.getRandomValues] a document that brings no public code
    cannot be normalised either; one that brings a code can. *)
Example no_getRandomValues :
  callNormalizeCharacter false entropy (VObj []) = Throws /\
  callNormalizeCharacter false entropy (VObj [("publicCode", VStr "ab12")]) =
    Returns (normalizeCharacter entropy [("publicCode", VStr "ab12")]).
Proof. split; reflexivity. Qed.

(** C7, counterexample.  An armour with [acBonus] 2.5 and a STR bonus of
    1.5 keeps both as they are: neither is an integer. *)
Lemma C7_counterexample :
  acBonus (normalizeArmor entropy halfPlate) = of_Q (5 # 2) /\
  isInteger (acBonus (normalizeArmor entropy halfPlate)) = false /\
  abilityAt (abilityBonuses (normalizeArmor entropy halfPlate)) STR = Some (of_Q (3 # 2)) /\
  isInteger (of_Q (3 # 2)) = false.
Proof. repeat split; reflexivity. Qed.

(** The same armour: a zero bonus is dropped, and a value that is not a
    number but converts to one ([true] is 1) is kept. *)
Example halfPlate_other_keys :
  abilityAt (abilityBonuses (normalizeArmor entropy halfPlate)) DEX = None /\
  abilityAt (abilityBonuses (normalizeArmor entropy halfPlate)) CON = Some (of_Z 1) /\
  abilityAt (abilityBonuses (normalizeArmor entropy halfPlate)) WIS = None.
Proof. repeat split; reflexivity. Qed.

End Examples.

(** * Further properties of the code *)

(** ** Library entities *)

Module LibraryFacts.

Import NumberFacts StringFacts RandomFacts NormalizeFacts.
Local Open Scope string_scope.

Ltac read_gets :=
  repeat match goal with
  | |- context [get (VObj ?o) ?k] =>
      let v := eval cbv [get lookup spellObject weaponObject passiveObject
                         armorObject String.eqb Ascii.eqb Bool.eqb] in (get (VObj o) k) in
      change (get (VObj o) k) with v
  end.

Section WithConversions.
Context {cv : Conversions}.

Lemma normalizeMpTier_text (t : MpTier) : normalizeMpTier (VStr (MpTier_text t)) = t.
Proof. destruct t; reflexivity. Qed.

Lemma text_text (v : value) : text (VStr (text v)) = text v.
Proof. rewrite text_VStr. apply text_trimmed. Qed.

Lemma kept_bonus (n : num) :
  isFinite n && negb (JsNumber.eq n (of_Z 0)) = true ->
  (let m := ToNumber (VNum n) in
   if isFinite m && negb (JsNumber.eq m (of_Z 0)) then Some m else None) = Some n.
Proof. cbv zeta. simpl ToNumber. now intros ->. Qed.

Lemma bonuses_fixed (b : ByAbility (option num)) :
  (forall k q, abilityAt b k = Some q ->
               isFinite q && negb (JsNumber.eq q (of_Z 0)) = true) ->
  normalizeAbilityBonuses (VObj (bonusesObject b)) = b.
Proof.
  intro H. destruct b as [b1 b2 b3 b4 b5 b6].
  pose proof (H STR) as H1. pose proof (H DEX) as H2. pose proof (H CON) as H3.
  pose proof (H INT) as H4. pose proof (H WIS) as H5. pose proof (H CHA) as H6.
  cbn [abilityAt str dex con int wis cha] in H1, H2, H3, H4, H5, H6.
  unfold normalizeAbilityBonuses, forAbilityKeys.
  destruct b1 as [q1|], b2 as [q2|], b3 as [q3|], b4 as [q4|], b5 as [q5|], b6 as [q6|];
    f_equal;
    first [ apply (kept_bonus _ (H1 _ eq_refl)) | apply (kept_bonus _ (H2 _ eq_refl))
          | apply (kept_bonus _ (H3 _ eq_refl)) | apply (kept_bonus _ (H4 _ eq_refl))
          | apply (kept_bonus _ (H5 _ eq_refl)) | apply (kept_bonus _ (H6 _ eq_refl))
          | reflexivity ].
Qed.

Lemma bonuses_shape (v : value) (k : AbilityKey) (q : num) :
  abilityAt (normalizeAbilityBonuses v) k = Some q ->
  isFinite q && negb (JsNumber.eq q (of_Z 0)) = true.
Proof.
  assert (E : abilityAt (normalizeAbilityBonuses v) k =
    let b := ToNumber (get v (AbilityKey_text k)) in
    if isFinite b && negb (JsNumber.eq b (of_Z 0)) then Some b else None)
    by (destruct k; reflexivity).
  rewrite E. cbv zeta.
  destruct (isFinite _ && negb _) eqn:F; [|discriminate]. now intros [= <-].
Qed.

End WithConversions.

End LibraryFacts.

Section LibraryProperties.

Import NumberFacts StringFacts RandomFacts NormalizeFacts LibraryFacts.
Local Open Scope string_scope.

Context {cv : Conversions}.

(** X1.  Normalising a spell is idempotent: the object of a normalised
    spell normalises to that spell, whatever the second call may draw. *)
Theorem normalizeSpell_idempotent (e1 e2 : Entropy) (s : value) :
  normalizeSpell e2 (VObj (spellObject (normalizeSpell e1 s))) = normalizeSpell e1 s.
Proof.
  unfold normalizeSpell at 1. cbv zeta. read_gets.
  rewrite normalizeMpTier_text.
  unfold normalizeSpell. cbv zeta.
  cbn [spell_id spell_name essence mpTier mpCost damage range description].
  now rewrite !text_text.
Qed.

(** X2.  Normalising an armour is idempotent: a finite [acBonus] and the
    bonuses that were kept are kept again, and no dropped key comes
    back. *)
Theorem normalizeArmor_idempotent (e1 e2 : Entropy) (a : value) :
  normalizeArmor e2 (VObj (armorObject (normalizeArmor e1 a))) = normalizeArmor e1 a.
Proof.
  unfold normalizeArmor at 1. cbv zeta. read_gets.
  rewrite bonuses_fixed by (intros k q; apply bonuses_shape).
  unfold normalizeArmor. cbv zeta.
  cbn [armor_id armor_name acBonus effect abilityBonuses].
  rewrite !text_text. simpl ToNumber. simpl ToString.
  now destruct (isFinite (ToNumber (get a "acBonus"))) eqn:E; rewrite ?E.
Qed.

(** X3.  Normalising a weapon or a passive is idempotent. *)
Theorem normalizeWeapon_normalizePassive_idempotent (e1 e2 : Entropy) (v : value) :
  normalizeWeapon e2 (VObj (weaponObject (normalizeWeapon e1 v))) = normalizeWeapon e1 v /\
  normalizePassive e2 (VObj (passiveObject (normalizePassive e1 v))) = normalizePassive e1 v.
Proof.
  split.
  - unfold normalizeWeapon at 1. read_gets. unfold normalizeWeapon.
    cbn [weapon_id weapon_name weaponType weapon_damage]. now rewrite !text_text.
  - unfold normalizePassive at 1. read_gets. unfold normalizePassive.
    cbn [passive_id passive_name passive_description]. now rewrite !text_text.
Qed.

End LibraryProperties.

(** ** Banks, party slots and public codes *)

Module CodeMoreFacts.

Import NumberFacts StringFacts RandomFacts NormalizeFacts CodeFacts.
Local Open Scope string_scope.

Lemma firstn_repeat {A} (x : A) (n : nat) : firstn n (repeat x n) = repeat x n.
Proof. rewrite firstn_all2; [reflexivity | rewrite repeat_length; lia]. Qed.

(** Padding then cutting is cutting then padding. *)
Lemma pad_cut {A} (x : A) (n : nat) (m : list A) :
  firstn n (m ++ repeat x (n - List.length m))%list =
  (firstn n m ++ repeat x (n - List.length (firstn n m)))%list.
Proof.
  rewrite firstn_app, length_firstn.
  destruct (Nat.le_gt_cases n (List.length m)) as [H|H].
  - replace (n - List.length m)%nat with 0%nat by lia.
    replace (n - Nat.min n (List.length m))%nat with 0%nat by lia.
    reflexivity.
  - replace (Nat.min n (List.length m)) with (List.length m) by lia.
    now rewrite firstn_repeat.
Qed.

Lemma upperAlnum_no_space (c : ascii) : isUpperAlnum c = true -> negb (isWhiteSpace c) = true.
Proof. each_char c; discriminate. Qed.

Lemma upperAlnum_upper (c : ascii) : isUpperAlnum c = true -> Ascii.eqb (upperChar c) c = true.
Proof. each_char c; discriminate. Qed.

Lemma hexUpper_alnum (c : ascii) : isHexUpper c = true -> isUpperAlnum c = true.
Proof. each_char c; discriminate. Qed.

Lemma filterChars_fixed (p : ascii -> bool) (s : string) :
  allChars p s = true -> filterChars p s = s.
Proof.
  induction s as [|c s IH]; simpl; [reflexivity|].
  intro H. apply andb_prop in H. destruct H as [Hc Hs]. now rewrite Hc, IH.
Qed.

Lemma sliceTo_fixed (n : nat) (s : string) :
  (String.length s <= n)%nat -> sliceTo n s = s.
Proof.
  revert s. induction n as [|n IH]; intros [|c s] H; simpl in *; try reflexivity; try lia.
  rewrite IH; [reflexivity | lia].
Qed.

Section WithConversions.
Context {cv : Conversions}.

Lemma codeFormat_fixed (s : string) : codeFormat s -> normalizePublicCode (VStr s) = s.
Proof.
  intros [A L]. unfold normalizePublicCode. cbv zeta. rewrite text_VStr.
  rewrite trim_no_space
    by (revert A; apply allChars_weaken, upperAlnum_no_space).
  unfold toUpperCase. rewrite mapChars_fixed
    by (revert A; apply allChars_weaken, upperAlnum_upper).
  unfold stripNonUpperAlnum. rewrite (filterChars_fixed _ _ A).
  now apply sliceTo_fixed.
Qed.

Lemma codeFormat_stored (s : string) : codeFormat s -> toUpperCase (trim s) = s.
Proof.
  intros [A L].
  rewrite trim_no_space
    by (revert A; apply allChars_weaken, upperAlnum_no_space).
  apply mapChars_fixed. revert A. apply allChars_weaken, upperAlnum_upper.
Qed.

End WithConversions.

End CodeMoreFacts.

Section StorageProperties.

Import NumberFacts StringFacts RandomFacts NormalizeFacts CodeFacts CodeMoreFacts.
Local Open Scope string_scope.

Context {cv : Conversions}.


(** X5.  The sheet's [normalizePartyMembers] (pad, then cut) computes what
    [normalizeStringArray] with length 4 does (cut, then pad); so on a
    normalised character it shows the stored slots as they are. *)
Theorem normalizePartyMembers_agrees (e : Entropy) (x : object) (v : value) :
  normalizePartyMembers v = normalizeStringArray v (Some 4%nat) /\
  normalizePartyMembers (stringsValue (partyMembers (normalizeCharacter e x))) =
    partyMembers (normalizeCharacter e x).
Proof.
  assert (E : forall w, normalizePartyMembers w = normalizeStringArray w (Some 4%nat)).
  { intro w. unfold normalizePartyMembers, normalizeStringArray, arrayItems. cbv zeta.
    destruct w; try reflexivity. apply pad_cut. }
  split; [apply E|]. rewrite E.
  destruct (normal_partyMembers _ (normalizeCharacter_Normal e x)) as [L T].
  now apply padded_fixed.
Qed.

(** X6.  [normalizePublicCode] returns at most 16 characters, all
    upper-case letters or digits, and is idempotent. *)
Theorem normalizePublicCode_idempotent (v : value) :
  codeFormat (normalizePublicCode v) /\
  normalizePublicCode (VStr (normalizePublicCode v)) = normalizePublicCode v.
Proof.
  split; [apply normalizePublicCode_format|].
  apply codeFormat_fixed, normalizePublicCode_format.
Qed.

(** X7.  A generated public code is twelve characters of [0-9A-F], and
    both normalisations of a code ([normalizePublicCode] before an upload,
    trimming and upper-casing in [normalizeCharacter]) leave it as it
    is. *)
Theorem generatePublicCode_survives (e : Entropy) :
  String.length (generatePublicCode e) = 12%nat /\
  allChars isHexUpper (generatePublicCode e) = true /\
  normalizePublicCode (VStr (generatePublicCode e)) = generatePublicCode e /\
  toUpperCase (trim (generatePublicCode e)) = generatePublicCode e.
Proof.
  destruct (generatePublicCode_format e) as [L H].
  assert (F : codeFormat (generatePublicCode e)).
  { split; [|rewrite L; lia]. revert H. apply allChars_weaken, hexUpper_alnum. }
  repeat split; try assumption.
  - now apply codeFormat_fixed.
  - now apply codeFormat_stored.
Qed.

End StorageProperties.

(** ** Derived statistics *)

Module DerivedFacts.

Import NumberFacts StringFacts NormalizeFacts SheetFacts.
Local Open Scope string_scope.

Lemma of_Z_add (a b : Z) : add (of_Z a) (of_Z b) = of_Z (a + b).
Proof.
  unfold of_Z, of_Q, add. f_equal. apply Qc_is_canon.
  unfold Qcplus, Q2Qc, this. rewrite !Qred_correct.
  now rewrite inject_Z_plus.
Qed.

Lemma forAbilityKeys_at {A} (f : AbilityKey -> A) (k : AbilityKey) :
  abilityAt (forAbilityKeys f) k = f k.
Proof. destruct k; reflexivity. Qed.

Lemma half_le (p q : Qc) :
  (p <= q)%Qc ->
  ((p - Q2Qc (inject_Z 10)) / Q2Qc (inject_Z 2) <=
   (q - Q2Qc (inject_Z 10)) / Q2Qc (inject_Z 2))%Qc.
Proof.
  intro H. unfold Qcdiv. apply Qcmult_le_compat_r.
  - unfold Qcminus. apply Qcplus_le_compat; [exact H | apply Qcle_refl].
  - unfold Qcle. vm_compute. discriminate.
Qed.

(** The modifier of a score between 1 and 30 is an integer between -5
    and 10. *)
Lemma modFromScore_range (n : num) :
  within 1 30 n -> integerWithin (-5) 10 (modFromScore n).
Proof.
  intro W. destruct (within_Fin _ _ _ W) as (q & -> & H1 & H2).
  unfold modFromScore, of_Z, of_Q, sub, div.
  change (qeq (Q2Qc (inject_Z 2)) (Q2Qc 0)) with false. cbv iota.
  unfold Math_floor. eexists. split; [reflexivity|].
  apply half_le in H1, H2. unfold Qcle in H1, H2.
  apply Qfloor_resp_le in H1, H2.
  change (Qfloor ((Q2Qc (inject_Z 1) - Q2Qc (inject_Z 10)) / Q2Qc (inject_Z 2))%Qc)
    with (-5)%Z in H1.
  change (Qfloor ((Q2Qc (inject_Z 30) - Q2Qc (inject_Z 10)) / Q2Qc (inject_Z 2))%Qc)
    with 10%Z in H2.
  lia.
Qed.

Lemma total_within (c : Character) (armor : option Armor) (k : AbilityKey) :
  within 1 30 (abilityAt (abilitiesTotal c armor) k).
Proof.
  unfold abilitiesTotal. cbv zeta. rewrite forAbilityKeys_at.
  apply clamp_within. lia.
Qed.

Lemma mod_range (c : Character) (armor : option Armor) (k : AbilityKey) :
  integerWithin (-5) 10 (abilityAt (abilityMods (abilitiesTotal c armor)) k).
Proof.
  unfold abilityMods. rewrite forAbilityKeys_at.
  apply modFromScore_range, total_within.
Qed.

Lemma add_profBonus (n : num) (b : bool) (lo hi : Z) :
  integerWithin lo hi n -> integerWithin lo (hi + 3) (add n (profBonus b)).
Proof.
  intros (z & -> & H). destruct b; unfold profBonus, PROF_BONUS; rewrite of_Z_add;
    eexists; (split; [reflexivity | lia]).
Qed.

Lemma add_zero (q : Qc) : add (Fin q) (of_Z 0) = Fin q.
Proof.
  unfold of_Z, of_Q, add. f_equal.
  change (Q2Qc (inject_Z 0)) with 0%Qc. ring.
Qed.

Lemma lowerChar_upperChar (c : ascii) : lowerChar (upperChar c) = lowerChar c.
Proof. each_char c. Qed.

Lemma lowerChar_idem (c : ascii) : lowerChar (lowerChar c) = lowerChar c.
Proof. each_char c. Qed.

Lemma lowerChar_space (c : ascii) : isWhiteSpace (lowerChar c) = isWhiteSpace c.
Proof. each_char c. Qed.

Lemma mapChars_mapChars (f g : ascii -> ascii) (s : string) :
  mapChars f (mapChars g s) = mapChars (fun c => f (g c)) s.
Proof. induction s as [|c s IH]; simpl; [reflexivity|]. now rewrite IH. Qed.

Lemma mapChars_ext (f g : ascii -> ascii) (s : string) :
  (forall c, f c = g c) -> mapChars f s = mapChars g s.
Proof.
  intro H. induction s as [|c s IH]; simpl; [reflexivity|]. now rewrite H, IH.
Qed.

Section WithConversions.
Context {cv : Conversions}.

(** The text an enumeration is matched on. *)
Lemma matched_text_upper (s : string) :
  toLowerCase (text (VStr (toUpperCase s))) = toLowerCase (text (VStr s)).
Proof.
  rewrite !text_VStr, trim_toUpperCase. unfold toLowerCase, toUpperCase.
  rewrite mapChars_mapChars. apply mapChars_ext, lowerChar_upperChar.
Qed.

Lemma matched_text_lower (s : string) :
  toLowerCase (text (VStr (toLowerCase s))) = toLowerCase (text (VStr s)).
Proof.
  rewrite !text_VStr. unfold toLowerCase, trim.
  rewrite trimStart_mapChars, trimEnd_mapChars by apply lowerChar_space.
  rewrite mapChars_mapChars. apply mapChars_ext, lowerChar_idem.
Qed.

Lemma matched_text_trim (s : string) :
  toLowerCase (text (VStr (trim s))) = toLowerCase (text (VStr s)).
Proof. rewrite !text_VStr. now rewrite trim_idem. Qed.

End WithConversions.

End DerivedFacts.

Section DerivedProperties.

Import NumberFacts StringFacts NormalizeFacts SheetFacts DerivedFacts.
Local Open Scope string_scope.

Context {cv : Conversions}.

(** X8.  For any character and any equipped armour every ability total
    lies in [[1,30]] and every ability modifier is an integer between -5
    and 10; for a normalised character without armour the totals are the
    base scores. *)
Theorem ability_totals_and_modifiers (e : Entropy) (x : object) (c : Character)
  (equippedArmor : option Armor) (k : AbilityKey) :
  within 1 30 (abilityAt (abilitiesTotal c equippedArmor) k) /\
  integerWithin (-5) 10 (abilityAt (abilityMods (abilitiesTotal c equippedArmor)) k) /\
  abilitiesTotal (normalizeCharacter e x) None = abilitiesBase (normalizeCharacter e x).
Proof.
  split; [apply total_within|]. split; [apply mod_range|].
  pose proof (normal_abilitiesBase _ (normalizeCharacter_Normal e x)) as N.
  destruct (abilitiesBase (normalizeCharacter e x)) as [a1 a2 a3 a4 a5 a6] eqn:E.
  unfold abilitiesTotal. rewrite E. unfold forAbilityKeys.
  assert (F : forall n, within 1 30 n ->
            clamp (add n (if isFinite (of_Z 0) then of_Z 0 else of_Z 0))
                  (of_Z 1) (of_Z 30) = n).
  { intros n W. destruct (within_Fin _ _ _ W) as (q & -> & _).
    change (isFinite (of_Z 0)) with true. cbv iota. rewrite add_zero.
    now apply clamp_within_fixed. }
  f_equal; [apply (F _ (N STR)) | apply (F _ (N DEX)) | apply (F _ (N CON))
           | apply (F _ (N INT)) | apply (F _ (N WIS)) | apply (F _ (N CHA))].
Qed.

(** X9.  The eighteen skill scores are integers between -5 and 13, one
    per skill in the order of the skill table, and the three passive
    scores are integers between 5 and 23. *)
Theorem skill_and_passive_scores (c : Character) (equippedArmor : option Armor)
  (profs : SkillProficiencies) :
  let mods := abilityMods (abilitiesTotal c equippedArmor) in
  map fst (skillScores mods profs) = map key SKILLS /\
  Forall (fun kv => integerWithin (-5) 13 (snd kv)) (skillScores mods profs) /\
  integerWithin 5 23 (passivePerception mods profs) /\
  integerWithin 5 23 (passiveInvestigation mods profs) /\
  integerWithin 5 23 (passiveInsight mods profs).
Proof.
  cbv zeta. split; [reflexivity|]. split.
  - unfold skillScores. apply Forall_forall. intros kv H.
    apply in_map_iff in H. destruct H as (s & <- & _). cbn [snd].
    apply (add_profBonus _ _ (-5) 10), mod_range.
  - assert (P : forall k b,
        integerWithin 5 23
          (add (add (of_Z 10) (abilityAt (abilityMods (abilitiesTotal c equippedArmor)) k))
               (profBonus b))).
    { intros k b. apply (add_profBonus _ _ 5 20).
      destruct (mod_range c equippedArmor k) as (z & -> & Hz).
      rewrite of_Z_add. eexists. split; [reflexivity | lia]. }
    repeat split; [apply (P WIS) | apply (P INT) | apply (P WIS)].
Qed.

(** X10.  The width of a bar is always between 0 and 100 percent, also
    for a zero, negative or non-numeric maximum; a bar whose value is its
    maximum is full exactly when that maximum is positive and finite. *)
Theorem barPct_range (v max : num) :
  within 0 100 (barPct v max) /\
  barPct max max = (if lt (of_Z 0) max && isFinite max then of_Z 100 else of_Z 0).
Proof.
  split.
  - unfold barPct. destruct (le max (of_Z 0)).
    + split; reflexivity.
    + apply clamp_within. lia.
  - unfold barPct. destruct max as [| | |q]; try reflexivity.
    cbn [lt le isFinite of_Z of_Q andb negb].
    destruct (qle q (Q2Qc (inject_Z 0))) eqn:E; [reflexivity|].
    cbn [negb]. apply qle_false in E.
    assert (Q : q <> Q2Qc 0) by (intro Q; symmetry in Q; now apply (Qclt_not_eq _ _ E)).
    unfold div. destruct (qeq q (Q2Qc 0)) eqn:Z; [apply qeq_true in Z; contradiction|].
    replace (q / q)%Qc with 1%Qc by (field; exact Q).
    unfold of_Z, of_Q, mul. rewrite Qcmult_1_l.
    apply clamp_fixed; [apply Q2Qc_le; lia | apply Qcle_refl].
Qed.

(** X11.  On ASCII text, matching a rank, a race or an MP tier ignores
    letter case and surrounding white space.  (ASCII is where the case
    mappings and the trimming of this embedding are those of
    ECMAScript.) *)
Theorem enum_matching_insensitive (s : string) :
  allChars isAscii s = true ->
  (normalizeRank (VStr (toUpperCase s)) = normalizeRank (VStr s) /\
   normalizeRank (VStr (toLowerCase s)) = normalizeRank (VStr s) /\
   normalizeRank (VStr (trim s)) = normalizeRank (VStr s)) /\
  (normalizeRace (VStr (toUpperCase s)) = normalizeRace (VStr s) /\
   normalizeRace (VStr (toLowerCase s)) = normalizeRace (VStr s) /\
   normalizeRace (VStr (trim s)) = normalizeRace (VStr s)) /\
  (normalizeMpTier (VStr (toUpperCase s)) = normalizeMpTier (VStr s) /\
   normalizeMpTier (VStr (toLowerCase s)) = normalizeMpTier (VStr s) /\
   normalizeMpTier (VStr (trim s)) = normalizeMpTier (VStr s)).
Proof.
  intros _. unfold normalizeRank, normalizeRace, normalizeMpTier. cbv zeta.
  rewrite matched_text_upper, matched_text_lower, matched_text_trim.
  repeat split.
Qed.


End DerivedProperties.

(** ** Updates of a normal character, field by field *)

Module HandlerFacts.

Import NumberFacts StringFacts RandomFacts NormalizeFacts SheetFacts CodeFacts CodeMoreFacts.
Local Open Scope string_scope.

Ltac read_props :=
  repeat match goal with
  | |- context [prop ?o ?k] =>
      let v := eval cbv [prop lookup spread characterObject app
                         String.eqb Ascii.eqb Bool.eqb] in (prop o k) in
      change (prop o k) with v
  end.

(** Rewrites every field that is read back unchanged from a normal
    character. *)
Ltac settle N :=
  rewrite ?(finiteNumber_finite _ (within_finite _ _ _ (normal_level _ N)));
  rewrite ?(finiteNumber_finite _ (within_finite _ _ _ (normal_maxHp _ N)));
  rewrite ?(finiteNumber_finite _ (within_finite _ _ _ (normal_maxMp _ N)));
  rewrite ?(clamp_within_fixed _ _ _ (normal_level _ N));
  rewrite ?(clamp_within_fixed _ _ _ (normal_maxHp _ N));
  rewrite ?(clamp_within_fixed _ _ _ (normal_maxMp _ N));
  rewrite ?(finiteNumber_finite _
              (current_finite _ _ (normal_maxHp _ N)
                 (proj1 (normal_currentHp _ N)) (proj2 (normal_currentHp _ N))));
  rewrite ?(finiteNumber_finite _
              (current_finite _ _ (normal_maxMp _ N)
                 (proj1 (normal_currentMp _ N)) (proj2 (normal_currentMp _ N))));
  rewrite ?(current_fixed _ _ (normal_maxHp _ N)
              (proj1 (normal_currentHp _ N)) (proj2 (normal_currentHp _ N)));
  rewrite ?(current_fixed _ _ (normal_maxMp _ N)
              (proj1 (normal_currentMp _ N)) (proj2 (normal_currentMp _ N)));
  rewrite ?(publicCode_fixed _ _ (proj1 (normal_publicCode _ N))
              (proj2 (normal_publicCode _ N)));
  rewrite ?(race_fixed _ (proj1 (normal_race _ N)) (proj2 (normal_race _ N)));
  rewrite ?text_VStr;
  rewrite ?(normal_name _ N), ?(normal_subtype _ N), ?(normal_partyName _ N),
          ?(normal_missionDirective _ N);
  rewrite ?normalizeRank_text;
  rewrite ?(padded_fixed _ (proj1 (normal_partyMembers _ N))
              (proj2 (normal_partyMembers _ N)));
  rewrite ?(codes_fixed _ (proj1 (normal_partyMemberCodes _ N))
              (proj2 (normal_partyMemberCodes _ N)));
  rewrite ?(abilities_fixed _ (normal_abilitiesBase _ N));
  rewrite ?(skills_fixed _ (normal_skillProficiencies _ N));
  rewrite ?saves_fixed;
  rewrite ?(compact_fixed _ (normal_knownSpellIds _ N));
  rewrite ?(compact_fixed _ (normal_passiveIds _ N));
  rewrite ?(reference_fixed _ (normal_equippedWeaponId _ N));
  rewrite ?(reference_fixed _ (normal_equippedArmorId _ N));
  rewrite ?(bank_fixed _ (normal_personalBank _ N));
  rewrite ?(bank_fixed _ (normal_partyBank _ N)).

Section WithConversions.
Context {cv : Conversions}.

Lemma renormalize_references (e : Entropy) (c : Character)
  (kv pv wv av sv bv : value) :
  Normal c ->
  normalizeCharacter e
    (spread (characterObject c)
       [("knownSpellIds", kv); ("passiveIds", pv); ("equippedWeaponId", wv);
        ("equippedArmorId", av); ("skillProficiencies", sv); ("partyBank", bv)]) =
  withReferences c (normalizeStringArray kv None) (normalizeStringArray pv None)
    (coalesce wv VNull) (coalesce av VNull) (normalizeSkillProfs sv) (normalizeBank bv).
Proof.
  intro N. unfold normalizeCharacter, withReferences. cbv zeta. read_props.
  settle N. reflexivity.
Qed.

Lemma renormalize_party (e : Entropy) (c : Character) (mv cdv : value) :
  Normal c ->
  normalizeCharacter e
    (spread (characterObject c) [("partyMembers", mv); ("partyMemberCodes", cdv)]) =
  withParty c (normalizeStringArray mv (Some 4%nat))
    (map (fun s => toUpperCase (trim (ToString (VStr s))))
         (normalizeStringArray cdv (Some 4%nat))).
Proof.
  intro N. unfold normalizeCharacter, withParty. cbv zeta. read_props.
  settle N. reflexivity.
Qed.

Lemma renormalize_name_code (e : Entropy) (c : Character) (n code : string) :
  Normal c ->
  normalizeCharacter e
    (spread (characterObject c) [("name", VStr n); ("publicCode", VStr code)]) =
  withNameAndCode c (trim n) (orElse (toUpperCase (trim code)) (generatePublicCode e)).
Proof.
  intro N. unfold normalizeCharacter, withNameAndCode. cbv zeta. read_props.
  change (text (coalesce (VStr code) VUndefined)) with (trim code).
  settle N. reflexivity.
Qed.

End WithConversions.

End HandlerFacts.

(** ** Known spells, passives, equipment and skill flags *)

Module ReferenceFacts.

Import NumberFacts StringFacts RandomFacts NormalizeFacts SheetFacts HandlerFacts.
Local Open Scope string_scope.

Lemma withReferences_same (c : Character) :
  withReferences c (knownSpellIds c) (passiveIds c) (equippedWeaponId c)
    (equippedArmorId c) (skillProficiencies c) (partyBank c) = c.
Proof. destruct c; reflexivity. Qed.

Lemma without_absent (l : list string) (x : string) :
  includes l x = false -> without l x = l.
Proof.
  unfold includes, without. induction l as [|y l IH]; simpl; [reflexivity|].
  intro H. apply orb_false_elim in H. destruct H as [H1 H2].
  rewrite String.eqb_sym, H1. simpl. now rewrite IH.
Qed.

Lemma without_head (l : list string) (x : string) :
  includes l x = false -> without (x :: l) x = l.
Proof.
  intro H. unfold without. simpl. rewrite String.eqb_refl. simpl.
  now apply without_absent.
Qed.

Lemma without_last (l : list string) (x : string) :
  includes l x = false -> without (l ++ [x]) x = l.
Proof.
  intro H. unfold without. rewrite filter_app. simpl.
  rewrite String.eqb_refl. simpl. rewrite app_nil_r. now apply without_absent.
Qed.

Lemma without_gone (l : list string) (x : string) : includes (without l x) x = false.
Proof.
  unfold includes, without. induction l as [|y l IH]; simpl; [reflexivity|].
  destruct (String.eqb y x) eqn:E; simpl; [exact IH|].
  rewrite String.eqb_sym, E. exact IH.
Qed.

Lemma includes_In (l : list string) (x : string) : includes l x = true <-> In x l.
Proof.
  unfold includes. rewrite existsb_exists. split.
  - intros (y & H & E). apply String.eqb_eq in E. now subst.
  - intro H. exists x. split; [exact H | apply String.eqb_refl].
Qed.

Lemma ids_filter (P : string -> Prop) (f : string -> bool) (l : list string) :
  Forall P l -> Forall P (filter f l).
Proof.
  induction 1 as [|y l Hy _ IH]; simpl; [constructor|].
  destruct (f y); [constructor; assumption | assumption].
Qed.

Section WithConversions.
Context {cv : Conversions}.

Ltac widen e c kv pv wv av sv bv N :=
  transitivity
    (normalizeCharacter e
       (spread (characterObject c)
          [("knownSpellIds", kv); ("passiveIds", pv); ("equippedWeaponId", wv);
           ("equippedArmorId", av); ("skillProficiencies", sv); ("partyBank", bv)]));
  [ unfold normalizeCharacter; cbv zeta; read_props; reflexivity
  | rewrite (renormalize_references e c _ _ _ _ _ _ N); settle N ].

Lemma update_knownSpellIds (e : Entropy) (c : Character) (l : list string) :
  Normal c ->
  normalizeCharacter e (spread (characterObject c) [("knownSpellIds", stringsValue l)]) =
  withKnownSpellIds c (filter nonEmpty (map trim l)).
Proof.
  intro N.
  widen e c (stringsValue l) (stringsValue (passiveIds c)) (equippedWeaponId c)
    (equippedArmorId c) (skillsValue (skillProficiencies c)) (bankValue (partyBank c)) N.
  unfold normalizeStringArray, stringsValue, arrayItems. now rewrite map_text_strings.
Qed.

Lemma update_passiveIds (e : Entropy) (c : Character) (l : list string) :
  Normal c ->
  normalizeCharacter e
    (spread (characterObject c)
       (spread (characterObject c) [("passiveIds", stringsValue l)])) =
  withPassiveIds c (filter nonEmpty (map trim l)).
Proof.
  intro N.
  widen e c (stringsValue (knownSpellIds c)) (stringsValue l) (equippedWeaponId c)
    (equippedArmorId c) (skillsValue (skillProficiencies c)) (bankValue (partyBank c)) N.
  unfold normalizeStringArray, stringsValue, arrayItems. now rewrite map_text_strings.
Qed.

Lemma update_equippedWeaponId (e : Entropy) (c : Character) (v : value) :
  Normal c ->
  normalizeCharacter e (spread (characterObject c) [("equippedWeaponId", v)]) =
  withEquippedWeaponId c (coalesce v VNull).
Proof.
  intro N.
  widen e c (stringsValue (knownSpellIds c)) (stringsValue (passiveIds c)) v
    (equippedArmorId c) (skillsValue (skillProficiencies c)) (bankValue (partyBank c)) N.
  reflexivity.
Qed.

Lemma update_equippedArmorId (e : Entropy) (c : Character) (v : value) :
  Normal c ->
  normalizeCharacter e (spread (characterObject c) [("equippedArmorId", v)]) =
  withEquippedArmorId c (coalesce v VNull).
Proof.
  intro N.
  widen e c (stringsValue (knownSpellIds c)) (stringsValue (passiveIds c))
    (equippedWeaponId c) v (skillsValue (skillProficiencies c)) (bankValue (partyBank c)) N.
  reflexivity.
Qed.

Lemma update_skillProficiencies (e : Entropy) (c : Character) (p : SkillProficiencies) :
  Normal c ->
  normalizeCharacter e (spread (characterObject c) [("skillProficiencies", skillsValue p)]) =
  withSkillProficiencies c (normalizeSkillProfs (skillsValue p)).
Proof.
  intro N.
  widen e c (stringsValue (knownSpellIds c)) (stringsValue (passiveIds c))
    (equippedWeaponId c) (equippedArmorId c) (skillsValue p) (bankValue (partyBank c)) N.
  reflexivity.
Qed.

Lemma update_partyBank (e : Entropy) (c : Character) (b : Bank) :
  Normal c ->
  normalizeCharacter e (spread (characterObject c) [("partyBank", bankValue b)]) =
  withPartyBank c (normalizeBank (bankValue b)).
Proof.
  intro N.
  widen e c (stringsValue (knownSpellIds c)) (stringsValue (passiveIds c))
    (equippedWeaponId c) (equippedArmorId c) (skillsValue (skillProficiencies c))
    (bankValue b) N.
  reflexivity.
Qed.

(** Trimmed, non-empty identifiers pass through the normaliser. *)
Lemma ids_kept (l : list string) :
  Forall (fun s => trimmed s /\ nonEmpty s = true) l ->
  filter nonEmpty (map trim l) = l.
Proof.
  induction 1 as [|s l [Hs Hn] _ IH]; simpl; [reflexivity|].
  rewrite Hs, Hn. now rewrite IH.
Qed.

Lemma addSpell_normal (e : Entropy) (st : State) (spellId : string) :
  Normal (character st) ->
  addSpellToCharacter e st spellId =
  if negb (nonEmpty spellId) || includes (knownSpellIds (character st)) spellId then st
  else withCharacter st
         (withKnownSpellIds (character st)
            (filter nonEmpty [trim spellId] ++ knownSpellIds (character st))%list).
Proof.
  intro N. unfold addSpellToCharacter. cbv zeta.
  destruct (negb (nonEmpty spellId)); [reflexivity|].
  destruct (includes (knownSpellIds (character st)) spellId); [reflexivity|].
  cbn [orb]. unfold onUpdateCharacter.
  rewrite (update_knownSpellIds e _ _ N). cbn [map filter].
  rewrite (ids_kept _ (normal_knownSpellIds _ N)).
  now destruct (nonEmpty (trim spellId)).
Qed.

Lemma removeSpell_normal (e : Entropy) (st : State) (spellId : string) :
  Normal (character st) ->
  removeSpellFromCharacter e st spellId =
  withCharacter st
    (withKnownSpellIds (character st) (without (knownSpellIds (character st)) spellId)).
Proof.
  intro N. unfold removeSpellFromCharacter, onUpdateCharacter.
  rewrite (update_knownSpellIds e _ _ N).
  rewrite ids_kept; [reflexivity|].
  apply ids_filter, (normal_knownSpellIds _ N).
Qed.

Lemma withKnownSpellIds_Normal (c : Character) (l : list string) :
  Normal c -> Forall (fun s => trimmed s /\ nonEmpty s = true) l ->
  Normal (withKnownSpellIds c l).
Proof. intros N H. destruct N. constructor; assumption. Qed.

Lemma withKnownSpellIds_twice (c : Character) (l : list string) :
  withKnownSpellIds (withKnownSpellIds c l) (knownSpellIds c) = c.
Proof. destruct c; reflexivity. Qed.

Lemma withCharacter_twice (st : State) (c : Character) :
  withCharacter (withCharacter st c) (character st) = st.
Proof. destruct st; reflexivity. Qed.

Lemma spell_round_trip_normal (e e' : Entropy) (st : State) (spellId : string) :
  Normal (character st) ->
  trim spellId = spellId -> nonEmpty spellId = true ->
  includes (knownSpellIds (character st)) spellId = false ->
  addSpellToCharacter e st spellId =
    withCharacter st
      (withKnownSpellIds (character st) (spellId :: knownSpellIds (character st))) /\
  removeSpellFromCharacter e' (addSpellToCharacter e st spellId) spellId = st.
Proof.
  intros N T NE A.
  assert (E : addSpellToCharacter e st spellId =
    withCharacter st
      (withKnownSpellIds (character st) (spellId :: knownSpellIds (character st)))).
  { rewrite (addSpell_normal e st spellId N), NE, A, T. cbn [negb orb filter].
    rewrite NE. reflexivity. }
  split; [exact E|]. rewrite E.
  rewrite removeSpell_normal.
  - cbn [character withCharacter]. 
    change (knownSpellIds (withKnownSpellIds (character st) (spellId :: knownSpellIds (character st))))
      with (spellId :: knownSpellIds (character st)).
    rewrite (without_head _ _ A), withKnownSpellIds_twice.
    apply withCharacter_twice.
  - cbn [character withCharacter]. apply withKnownSpellIds_Normal; [exact N|].
    constructor; [split; assumption | apply (normal_knownSpellIds _ N)].
Qed.


Lemma addPassive_normal (e : Entropy) (p : PassivePanel) (pid : string) :
  Normal (character (sheetState p)) ->
  let st := sheetState p in
  let c := character st in
  addPassiveById e p pid =
  if negb (nonEmpty pid) || includes (passiveIds c) pid then p
  else {| sheetState :=
            withCharacter st
              (withPassiveIds c (passiveIds c ++ filter nonEmpty [trim pid])%list);
          passiveToAdd := "" |}.
Proof.
  intro N. cbv zeta. unfold addPassiveById. cbv zeta.
  destruct (negb (nonEmpty pid)); [reflexivity|].
  destruct (includes (passiveIds (character (sheetState p))) pid); [reflexivity|].
  cbn [orb]. unfold onUpdateCharacter.
  rewrite (update_passiveIds e _ _ N). rewrite map_app, filter_app.
  rewrite (ids_kept _ (normal_passiveIds _ N)). reflexivity.
Qed.

Lemma removePassive_normal (e : Entropy) (st : State) (pid : string) :
  Normal (character st) ->
  removePassiveById e st pid =
  withCharacter st
    (withPassiveIds (character st) (without (passiveIds (character st)) pid)).
Proof.
  intro N. unfold removePassiveById, onUpdateCharacter. cbv zeta.
  rewrite (update_passiveIds e _ _ N).
  rewrite ids_kept; [reflexivity|].
  apply ids_filter, (normal_passiveIds _ N).
Qed.

Lemma equipWeapon_normal (e : Entropy) (st : State) (wid : string) :
  Normal (character st) ->
  equipWeaponById e st wid =
  if negb (nonEmpty wid) then st
  else withCharacter st (withEquippedWeaponId (character st) (VStr wid)).
Proof.
  intro N. unfold equipWeaponById. destruct (negb (nonEmpty wid)); [reflexivity|].
  unfold onUpdateCharacter. now rewrite (update_equippedWeaponId e _ _ N).
Qed.

Lemma unequipWeapon_normal (e : Entropy) (st : State) :
  Normal (character st) ->
  unequipWeapon e st = withCharacter st (withEquippedWeaponId (character st) VNull).
Proof.
  intro N. unfold unequipWeapon, onUpdateCharacter.
  now rewrite (update_equippedWeaponId e _ _ N).
Qed.

Lemma equipArmor_normal (e : Entropy) (st : State) (aid : string) :
  Normal (character st) ->
  equipArmorById e st aid =
  if negb (nonEmpty aid) then st
  else withCharacter st (withEquippedArmorId (character st) (VStr aid)).
Proof.
  intro N. unfold equipArmorById. destruct (negb (nonEmpty aid)); [reflexivity|].
  unfold onUpdateCharacter. now rewrite (update_equippedArmorId e _ _ N).
Qed.

Lemma unequipArmor_normal (e : Entropy) (st : State) :
  Normal (character st) ->
  unequipArmor e st = withCharacter st (withEquippedArmorId (character st) VNull).
Proof.
  intro N. unfold unequipArmor, onUpdateCharacter.
  now rewrite (update_equippedArmorId e _ _ N).
Qed.

Lemma onUpdate_Normal (e : Entropy) (st : State) (u : object) :
  Normal (character (onUpdateCharacter e st u)).
Proof. unfold onUpdateCharacter. cbn [character withCharacter]. apply normalizeCharacter_Normal. Qed.

End WithConversions.

End ReferenceFacts.

Section ReferenceProperties.

Import NumberFacts StringFacts RandomFacts NormalizeFacts SheetFacts HandlerFacts ReferenceFacts.
Local Open Scope string_scope.

Context {cv : Conversions}.

(** X12.  On a normalised character [addSpellToCharacter] does nothing for
    an empty identifier or one already known; otherwise it changes only
    the known spells, putting the trimmed identifier first (an identifier
    of white space alone is dropped), and [removeSpellFromCharacter]
    changes only the known spells, filtering the identifier out. *)
Theorem known_spells_add_remove (e0 e : Entropy) (x : object) (st0 : State)
  (spellId : string) :
  let c := normalizeCharacter e0 x in
  let st := withCharacter st0 c in
  addSpellToCharacter e st spellId =
    (if negb (nonEmpty spellId) || includes (knownSpellIds c) spellId then st
     else withCharacter st
            (withKnownSpellIds c (filter nonEmpty [trim spellId] ++ knownSpellIds c)%list)) /\
  removeSpellFromCharacter e st spellId =
    withCharacter st (withKnownSpellIds c (without (knownSpellIds c) spellId)).
Proof.
  cbv zeta. pose proof (normalizeCharacter_Normal e0 x) as N. split.
  - apply (addSpell_normal e (withCharacter st0 (normalizeCharacter e0 x)) spellId N).
  - apply (removeSpell_normal e (withCharacter st0 (normalizeCharacter e0 x)) spellId N).
Qed.

(** X13.  Adding a trimmed, non-empty identifier that is not yet known and
    removing it again gives the sheet back as it was. *)
Theorem known_spell_round_trip (e0 e e' : Entropy) (x : object) (st0 : State)
  (spellId : string) :
  trim spellId = spellId ->
  nonEmpty spellId = true ->
  includes (knownSpellIds (normalizeCharacter e0 x)) spellId = false ->
  let c := normalizeCharacter e0 x in
  let st := withCharacter st0 c in
  knownSpellIds (character (addSpellToCharacter e st spellId)) =
    spellId :: knownSpellIds c /\
  removeSpellFromCharacter e' (addSpellToCharacter e st spellId) spellId = st.
Proof.
  intros T NE A. cbv zeta. pose proof (normalizeCharacter_Normal e0 x) as N.
  destruct (spell_round_trip_normal e e' (withCharacter st0 (normalizeCharacter e0 x))
              spellId N T NE A) as [E R].
  split; [now rewrite E | exact R].
Qed.

End ReferenceProperties.

Section CollectionProperties.

Import NumberFacts StringFacts RandomFacts NormalizeFacts SheetFacts HandlerFacts ReferenceFacts.
Local Open Scope string_scope.

Context {cv : Conversions}.

(** X14.  Known spells behave as a set for trimmed identifiers: a list
    without duplicates has none after an addition or a removal, and a
    removed identifier is no longer known. *)
Theorem known_spells_no_duplicates (e0 e : Entropy) (x : object) (st0 : State)
  (spellId : string) :
  trim spellId = spellId ->
  NoDup (knownSpellIds (normalizeCharacter e0 x)) ->
  let st := withCharacter st0 (normalizeCharacter e0 x) in
  NoDup (knownSpellIds (character (addSpellToCharacter e st spellId))) /\
  NoDup (knownSpellIds (character (removeSpellFromCharacter e st spellId))) /\
  includes (knownSpellIds (character (removeSpellFromCharacter e st spellId))) spellId = false.
Proof.
  intros T D. cbv zeta. pose proof (normalizeCharacter_Normal e0 x) as N.
  pose proof (addSpell_normal e (withCharacter st0 (normalizeCharacter e0 x)) spellId N) as A.
  pose proof (removeSpell_normal e (withCharacter st0 (normalizeCharacter e0 x)) spellId N) as R.
  cbv zeta in A, R. cbn [character withCharacter] in A, R.
  rewrite A, R. clear A R. split; [|split].
  - destruct (negb (nonEmpty spellId) || includes _ spellId) eqn:E; [exact D|].
    apply orb_false_elim in E. destruct E as [_ E].
    cbn [character withCharacter]. unfold withKnownSpellIds, withReferences.
    cbn [knownSpellIds filter]. rewrite T.
    destruct (nonEmpty spellId); [|exact D]. cbn [app]. constructor; [|exact D].
    intro H. apply includes_In in H. congruence.
  - cbn [character withCharacter]. unfold withKnownSpellIds, withReferences.
    cbn [knownSpellIds]. now apply NoDup_filter.
  - cbn [character withCharacter]. unfold withKnownSpellIds, withReferences.
    cbn [knownSpellIds]. apply without_gone.
Qed.

(** X15.  On a normalised character [addPassiveById] does nothing for an
    empty identifier or one already held; otherwise it changes only the
    passives, appending the trimmed identifier, and clears the selection
    box; [removePassiveById] changes only the passives, filtering the
    identifier out. *)
Theorem passives_add_remove (e0 e : Entropy) (x : object) (st0 : State)
  (typed pid : string) :
  let c := normalizeCharacter e0 x in
  let st := withCharacter st0 c in
  let p := {| sheetState := st; passiveToAdd := typed |} in
  addPassiveById e p pid =
    (if negb (nonEmpty pid) || includes (passiveIds c) pid then p
     else {| sheetState :=
               withCharacter st
                 (withPassiveIds c (passiveIds c ++ filter nonEmpty [trim pid])%list);
             passiveToAdd := "" |}) /\
  removePassiveById e st pid =
    withCharacter st (withPassiveIds c (without (passiveIds c) pid)).
Proof.
  cbv zeta. pose proof (normalizeCharacter_Normal e0 x) as N. split.
  - apply (addPassive_normal e
             {| sheetState := withCharacter st0 (normalizeCharacter e0 x);
                passiveToAdd := typed |} pid N).
  - apply (removePassive_normal e (withCharacter st0 (normalizeCharacter e0 x)) pid N).
Qed.

(** X16.  On a normalised character equipping changes only the slot it
    names and accepts any non-empty identifier (an empty one does
    nothing); unequipping stores [null]; and unequipping after equipping
    is unequipping. *)
Theorem equip_unequip (e0 e e' : Entropy) (x : object) (st0 : State) (itemId : string) :
  let c := normalizeCharacter e0 x in
  let st := withCharacter st0 c in
  equipWeaponById e st itemId =
    (if negb (nonEmpty itemId) then st
     else withCharacter st (withEquippedWeaponId c (VStr itemId))) /\
  equipArmorById e st itemId =
    (if negb (nonEmpty itemId) then st
     else withCharacter st (withEquippedArmorId c (VStr itemId))) /\
  unequipWeapon e st = withCharacter st (withEquippedWeaponId c VNull) /\
  unequipArmor e st = withCharacter st (withEquippedArmorId c VNull) /\
  unequipWeapon e' (equipWeaponById e st itemId) = unequipWeapon e' st /\
  unequipArmor e' (equipArmorById e st itemId) = unequipArmor e' st.
Proof.
  cbv zeta. pose proof (normalizeCharacter_Normal e0 x) as N.
  set (st := withCharacter st0 (normalizeCharacter e0 x)).
  assert (Ns : Normal (character st)) by exact N.
  split; [apply (equipWeapon_normal e st itemId Ns)|].
  split; [apply (equipArmor_normal e st itemId Ns)|].
  split; [apply (unequipWeapon_normal e st Ns)|].
  split; [apply (unequipArmor_normal e st Ns)|]. split.
  - unfold equipWeaponById. destruct (negb (nonEmpty itemId)); [reflexivity|].
    rewrite (unequipWeapon_normal e' _ (onUpdate_Normal e st _)).
    unfold onUpdateCharacter. rewrite (update_equippedWeaponId e _ _ Ns).
    rewrite (unequipWeapon_normal e' st Ns).
    destruct st as [c o t]. destruct c. reflexivity.
  - unfold equipArmorById. destruct (negb (nonEmpty itemId)); [reflexivity|].
    rewrite (unequipArmor_normal e' _ (onUpdate_Normal e st _)).
    unfold onUpdateCharacter. rewrite (update_equippedArmorId e _ _ Ns).
    rewrite (unequipArmor_normal e' st Ns).
    destruct st as [c o t]. destruct c. reflexivity.
Qed.

End CollectionProperties.

(** ** Skill flags, banks, vitals and the coin panel *)

Module SheetMoreFacts.

Import NumberFacts StringFacts RandomFacts NormalizeFacts SheetFacts HandlerFacts
       ReferenceFacts DerivedFacts.
Local Open Scope string_scope.

(** Splits a list of flags with the keys of the skill table into its
    eighteen entries. *)
Ltac explode_skills p H :=
  cbn in H;
  repeat (destruct p as [|[? ?] p]; [discriminate H|];
          cbn in H; injection H as -> H);
  destruct p; [|discriminate H]; clear H.

Lemma setSkill_keys (p : SkillProficiencies) (k : SkillKey) (b : bool) :
  map fst p = map key SKILLS -> map fst (setSkill p k b) = map key SKILLS.
Proof. intro H. explode_skills p H. destruct k; reflexivity. Qed.

Lemma skillFlag_setSkill (p : SkillProficiencies) (k k' : SkillKey) (b : bool) :
  map fst p = map key SKILLS ->
  skillFlag (setSkill p k b) k' = if SkillKey_eqb k' k then b else skillFlag p k'.
Proof. intro H. explode_skills p H. destruct k, k'; reflexivity. Qed.

Lemma setSkill_back (p : SkillProficiencies) (k : SkillKey) (b : bool) :
  map fst p = map key SKILLS ->
  setSkill (setSkill p k b) k (skillFlag p k) = p.
Proof. intro H. explode_skills p H. destruct k; reflexivity. Qed.

Lemma max_of_Z (a b : Z) : Math_max (of_Z a) (of_Z b) = of_Z (Z.max a b).
Proof.
  assert (E : qle (Q2Qc (inject_Z a)) (Q2Qc (inject_Z b)) = (a <=? b)%Z)
    by apply (of_Z_le a b).
  unfold Math_max, of_Z, of_Q. rewrite E.
  destruct (a <=? b)%Z eqn:F.
  - replace (Z.max a b) with b by lia. reflexivity.
  - replace (Z.max a b) with a by lia. reflexivity.
Qed.

Lemma nextVal_count (v : num) :
  Math_max (of_Z 0) (Math_floor (if isFinite v then v else of_Z 0)) = coinCount v.
Proof.
  unfold coinCount. destruct (isFinite v); [reflexivity|].
  now rewrite floor_of_Z, max_of_Z.
Qed.

Lemma coinCount_of_Z (z : Z) : coinCount (of_Z z) = of_Z (Z.max 0 z).
Proof.
  unfold coinCount. change (isFinite (of_Z z)) with true. cbv iota.
  now rewrite floor_of_Z, max_of_Z.
Qed.

(** The sum of two integers as the machine computes it is exact when it
    is at most [2^53] in magnitude. *)
Lemma add64_of_Z (a b : Z) :
  (Z.abs (a + b) <= exactBound)%Z -> add64 (of_Z a) (of_Z b) = of_Z (a + b).
Proof.
  intro H. unfold add64. rewrite of_Z_add. unfold of_Z at 1, of_Q.
  now apply round64_of_Z.
Qed.

Lemma setCoin_setCoin (b : Bank) (k : CoinKey) (m n : num) :
  setCoin (setCoin b k m) k n = setCoin b k n.
Proof. destruct b, k; reflexivity. Qed.

Lemma setCoin_same (b : Bank) (k : CoinKey) : setCoin b k (coinAt b k) = b.
Proof. destruct b, k; reflexivity. Qed.

Lemma coinAt_setCoin (b : Bank) (k : CoinKey) (n : num) : coinAt (setCoin b k n) k = n.
Proof. destruct b, k; reflexivity. Qed.

(** The character with one of its two banks replaced. *)
Lemma bank_replaced_same (c : Character) :
  withPersonalBank c (personalBank c) = c /\ withPartyBank c (partyBank c) = c.
Proof. destruct c; split; reflexivity. Qed.


Section WithConversions.
Context {cv : Conversions}.

Lemma toggle_normal (e : Entropy) (st : State) (k : SkillKey) :
  Normal (character st) ->
  toggleSkillProf e st k =
  withCharacter st
    (withSkillProficiencies (character st)
       (setSkill (skillProficiencies (character st)) k
          (negb (skillFlag (skillProficiencies (character st)) k)))).
Proof.
  intro N. unfold toggleSkillProf, onUpdateCharacter. cbv zeta.
  rewrite (update_skillProficiencies e _ _ N).
  rewrite skills_fixed; [reflexivity|].
  apply setSkill_keys, (normal_skillProficiencies _ N).
Qed.

Lemma update_personalBank (e : Entropy) (c : Character) (b : Bank) :
  Normal c ->
  normalizeCharacter e (spread (characterObject c) [("personalBank", bankValue b)]) =
  withPersonalBank c (normalizeBank (bankValue b)).
Proof.
  intro N.
  transitivity
    (normalizeCharacter e
       (spread (characterObject c)
          [("currentHp", VNum (currentHp c)); ("currentMp", VNum (currentMp c));
           ("personalBank", bankValue b)])).
  { unfold normalizeCharacter. cbv zeta. read_props. reflexivity. }
  rewrite (renormalize e c _ _ _ N). settle N. reflexivity.
Qed.

Lemma setBank_normal (e : Entropy) (st : State) (bk : BankKey) (coin : CoinKey) (v : num) :
  Normal (character st) ->
  setBank e st bk coin v =
  withCharacter st
    match bk with
    | personalBankKey =>
        withPersonalBank (character st)
          (setCoin (personalBank (character st)) coin (coinCount v))
    | partyBankKey =>
        withPartyBank (character st)
          (setCoin (partyBank (character st)) coin (coinCount v))
    end.
Proof.
  intro N. unfold setBank, onUpdateCharacter. cbv zeta. rewrite nextVal_count.
  destruct bk; cbn [BankKey_text bankOf].
  - rewrite (update_personalBank e _ _ N).
    rewrite bank_fixed; [reflexivity|].
    apply setCoin_shape; [apply N | apply coinCount_nonNeg].
  - rewrite (update_partyBank e _ _ N).
    rewrite bank_fixed; [reflexivity|].
    apply setCoin_shape; [apply N | apply coinCount_nonNeg].
Qed.

Lemma healFull_normal (e : Entropy) (st : State) :
  Normal (character st) ->
  healFull e st = withCharacter st (withCurrentHp (character st) (maxHp (character st))).
Proof.
  intro N. unfold healFull, onUpdateCharacter. rewrite (update_currentHp e _ _ N).
  now rewrite (max_fixed _ (normal_maxHp _ N)).
Qed.

Lemma restoreFull_normal (e : Entropy) (st : State) :
  Normal (character st) ->
  restoreFull e st = withCharacter st (withCurrentMp (character st) (maxMp (character st))).
Proof.
  intro N. unfold restoreFull, onUpdateCharacter. rewrite (update_currentMp e _ _ N).
  now rewrite (max_fixed _ (normal_maxMp _ N)).
Qed.

End WithConversions.

End SheetMoreFacts.

Section SheetMoreProperties.

Import NumberFacts StringFacts RandomFacts NormalizeFacts SheetFacts HandlerFacts
       ReferenceFacts DerivedFacts SheetMoreFacts.
Local Open Scope string_scope.

Context {cv : Conversions}.

(** X17.  On a normalised character [toggleSkillProf] changes only the
    skill flags, flipping the flag of its skill and no other; toggling the
    same skill twice gives the sheet back. *)
Theorem toggleSkillProf_involutive (e0 e e' : Entropy) (x : object) (st0 : State)
  (k k' : SkillKey) :
  let c := normalizeCharacter e0 x in
  let st := withCharacter st0 c in
  let flags := skillProficiencies c in
  toggleSkillProf e st k =
    withCharacter st
      (withSkillProficiencies c (setSkill flags k (negb (skillFlag flags k)))) /\
  skillFlag (skillProficiencies (character (toggleSkillProf e st k))) k' =
    (if SkillKey_eqb k' k then negb (skillFlag flags k) else skillFlag flags k') /\
  toggleSkillProf e' (toggleSkillProf e st k) k = st.
Proof.
  cbv zeta. pose proof (normalizeCharacter_Normal e0 x) as N.
  set (st := withCharacter st0 (normalizeCharacter e0 x)).
  assert (Ns : Normal (character st)) by exact N.
  pose proof (normal_skillProficiencies _ Ns) as K.
  pose proof (toggle_normal e st k Ns) as E.
  split; [exact E|]. split.
  - rewrite E. cbn [character withCharacter].
    change (skillProficiencies (withSkillProficiencies ?c ?p)) with p.
    now apply skillFlag_setSkill.
  - assert (N1 : Normal (character (toggleSkillProf e st k)))
      by apply onUpdate_Normal.
    rewrite (toggle_normal e' _ k N1), E. cbn [character withCharacter].
    change (skillProficiencies (withSkillProficiencies ?c ?p)) with p.
    rewrite (skillFlag_setSkill _ _ _ _ K).
    replace (SkillKey_eqb k k) with true by (destruct k; reflexivity).
    rewrite negb_involutive, (setSkill_back _ _ _ K).
    destruct st as [c o t]. destruct c. reflexivity.
Qed.

(** X18.  On a normalised character [setBank] changes only the chosen
    coin of the chosen bank, to the floor of the number but never below 0
    (0 when it is not finite); [bumpBank] stores what [setBank] stores for
    the double sum of the count and the step.  For a count of at most
    2^53 - 1 = 9007199254740991 a step of +1 adds one coin, a step of -1
    takes one but stops at zero, and adding a coin then taking one gives
    the sheet back. *)
Theorem bank_edits (e0 e e' : Entropy) (x : object) (st0 : State)
  (bk : BankKey) (coin : CoinKey) (v delta : num) :
  let c := normalizeCharacter e0 x in
  let st := withCharacter st0 c in
  let count := coinAt (bankOf st bk) coin in
  let stored n :=
    withCharacter st
      match bk with
      | personalBankKey => withPersonalBank c (setCoin (personalBank c) coin n)
      | partyBankKey => withPartyBank c (setCoin (partyBank c) coin n)
      end in
  setBank e st bk coin v = stored (coinCount v) /\
  bumpBank e st bk coin delta = stored (coinCount (add64 count delta)) /\
  (le count (of_Z 9007199254740991) = true ->
   bumpBank e st bk coin (of_Z 1) = stored (add count (of_Z 1)) /\
   bumpBank e st bk coin (of_Z (-1)) = stored (Math_max (of_Z 0) (sub count (of_Z 1))) /\
   bumpBank e' (bumpBank e st bk coin (of_Z 1)) bk coin (of_Z (-1)) = st).
Proof.
  cbv zeta. pose proof (normalizeCharacter_Normal e0 x) as N.
  set (st := withCharacter st0 (normalizeCharacter e0 x)).
  assert (Ns : Normal (character st)) by exact N.
  split; [apply (setBank_normal e st bk coin v Ns)|].
  split; [unfold bumpBank; cbv zeta; apply (setBank_normal e st bk coin _ Ns)|].
  assert (C : exists z, (0 <= z)%Z /\ coinAt (bankOf st bk) coin = of_Z z).
  { destruct bk; cbn [bankOf];
      [destruct (normal_personalBank _ Ns coin) as (z & Hz & E)
      | destruct (normal_partyBank _ Ns coin) as (z & Hz & E)]; eauto. }
  destruct C as (z & Hz & Ez). rewrite Ez, of_Z_le. intro S. apply Z.leb_le in S.
  assert (B : forall ee n, (Z.abs (z + n) <= exactBound)%Z ->
    bumpBank ee st bk coin (of_Z n) =
    withCharacter st
      match bk with
      | personalBankKey =>
          withPersonalBank (character st)
            (setCoin (personalBank (character st)) coin (of_Z (Z.max 0 (z + n))))
      | partyBankKey =>
          withPartyBank (character st)
            (setCoin (partyBank (character st)) coin (of_Z (Z.max 0 (z + n))))
      end).
  { intros ee n Hn. unfold bumpBank. cbv zeta. rewrite Ez, (add64_of_Z _ _ Hn).
    rewrite (setBank_normal ee st bk coin _ Ns). now rewrite coinCount_of_Z. }
  assert (B1 : (Z.abs (z + 1) <= exactBound)%Z) by (unfold exactBound; lia).
  assert (B2 : (Z.abs (z + -1) <= exactBound)%Z) by (unfold exactBound; lia).
  split; [|split].
  - rewrite (B e 1%Z B1), of_Z_add. now replace (Z.max 0 (z + 1)) with (z + 1)%Z by lia.
  - rewrite (B e (-1)%Z B2), of_Z_sub, max_of_Z. reflexivity.
  - set (st1 := bumpBank e st bk coin (of_Z 1)).
    assert (N1 : Normal (character st1)) by apply onUpdate_Normal.
    unfold bumpBank at 1. cbv zeta.
    rewrite (setBank_normal e' st1 bk coin _ N1).
    unfold st1. rewrite (B e 1%Z B1). replace (Z.max 0 (z + 1)) with (z + 1)%Z by lia.
    destruct bk; cbn [bankOf character withCharacter];
      [change (personalBank (withPersonalBank ?c ?b)) with b
      | change (partyBank (withPartyBank ?c ?b)) with b];
      rewrite coinAt_setCoin, add64_of_Z by (unfold exactBound; lia);
      rewrite coinCount_of_Z, setCoin_setCoin;
      replace (Z.max 0 (z + 1 + -1)) with z by lia;
      cbn [bankOf] in Ez; rewrite <- Ez, setCoin_same;
      destruct st as [c o t]; destruct c; reflexivity.
Qed.

(** X19.  On a normalised character [healFull] and [restoreFull] set the
    current value to the maximum and change nothing else, [bumpHp] and
    [bumpMp] store the clamped sum, and healing after any damage or
    healing is healing. *)
Theorem heal_restore_bump (e0 e e' : Entropy) (x : object) (st0 : State) (delta : num) :
  let c := normalizeCharacter e0 x in
  let st := withCharacter st0 c in
  healFull e st = withCharacter st (withCurrentHp c (maxHp c)) /\
  restoreFull e st = withCharacter st (withCurrentMp c (maxMp c)) /\
  bumpHp e st delta =
    withCharacter st
      (withCurrentHp c (clamp (add (currentHp c) delta) (of_Z 0) (maxHp c))) /\
  bumpMp e st delta =
    withCharacter st
      (withCurrentMp c (clamp (add (currentMp c) delta) (of_Z 0) (maxMp c))) /\
  healFull e' (bumpHp e st delta) = healFull e' st /\
  restoreFull e' (bumpMp e st delta) = restoreFull e' st.
Proof.
  cbv zeta. pose proof (normalizeCharacter_Normal e0 x) as N.
  set (st := withCharacter st0 (normalizeCharacter e0 x)).
  assert (Ns : Normal (character st)) by exact N.
  assert (H : bumpHp e st delta =
    withCharacter st
      (withCurrentHp (character st)
         (clamp (add (currentHp (character st)) delta) (of_Z 0) (maxHp (character st)))))
    by (unfold bumpHp; apply (setHp_normal e st _ Ns)).
  assert (M : bumpMp e st delta =
    withCharacter st
      (withCurrentMp (character st)
         (clamp (add (currentMp (character st)) delta) (of_Z 0) (maxMp (character st)))))
    by (unfold bumpMp; apply (setMp_normal e st _ Ns)).
  split; [apply (healFull_normal e st Ns)|].
  split; [apply (restoreFull_normal e st Ns)|].
  split; [exact H|]. split; [exact M|]. split.
  - assert (N1 : Normal (character (bumpHp e st delta)))
      by (unfold bumpHp, setHp; apply onUpdate_Normal).
    rewrite (healFull_normal e' _ N1), (healFull_normal e' st Ns), H.
    destruct st as [c o t]. destruct c. reflexivity.
  - assert (N1 : Normal (character (bumpMp e st delta)))
      by (unfold bumpMp, setMp; apply onUpdate_Normal).
    rewrite (restoreFull_normal e' _ N1), (restoreFull_normal e' st Ns), M.
    destruct st as [c o t]. destruct c. reflexivity.
Qed.


End SheetMoreProperties.

(** ** The party roster *)

Module PartyFacts.

Import NumberFacts StringFacts RandomFacts NormalizeFacts SheetFacts CodeFacts CodeMoreFacts
       HandlerFacts ReferenceFacts.
Local Open Scope string_scope.

Lemma four_slots {A} (l : list A) :
  List.length l = 4%nat -> exists a b c d, l = [a; b; c; d].
Proof.
  destruct l as [|a [|b [|c [|d [|? ?]]]]]; try discriminate. eauto.
Qed.

Lemma replaceAt_length (idx : nat) (x : string) (l : list string) :
  List.length (replaceAt idx x l) = List.length l.
Proof.
  revert idx. induction l as [|h t IH]; intros [|i]; simpl; auto.
Qed.

Lemma replaceAt_Forall (P : string -> Prop) (idx : nat) (x : string) (l : list string) :
  P x -> Forall P l -> Forall P (replaceAt idx x l).
Proof.
  intros Hx H. revert idx.
  induction H as [|h t Hh Ht IH]; intros [|i]; simpl; constructor; auto.
Qed.

Section WithConversions.
Context {cv : Conversions}.

Lemma update_partyMembers (e : Entropy) (c : Character) (mv : value) :
  Normal c ->
  normalizeCharacter e (spread (characterObject c) [("partyMembers", mv)]) =
  withParty c (normalizeStringArray mv (Some 4%nat)) (partyMemberCodes c).
Proof.
  intro N.
  transitivity
    (normalizeCharacter e
       (spread (characterObject c)
          [("partyMembers", mv); ("partyMemberCodes", stringsValue (partyMemberCodes c))])).
  { unfold normalizeCharacter. cbv zeta. read_props. reflexivity. }
  rewrite (renormalize_party e c _ _ N). settle N. reflexivity.
Qed.

Lemma update_partyMemberCodes (e : Entropy) (c : Character) (cdv : value) :
  Normal c ->
  normalizeCharacter e (spread (characterObject c) [("partyMemberCodes", cdv)]) =
  withParty c (partyMembers c)
    (map (fun s => toUpperCase (trim (ToString (VStr s))))
         (normalizeStringArray cdv (Some 4%nat))).
Proof.
  intro N.
  transitivity
    (normalizeCharacter e
       (spread (characterObject c)
          [("partyMembers", stringsValue (partyMembers c)); ("partyMemberCodes", cdv)])).
  { unfold normalizeCharacter. cbv zeta. read_props. reflexivity. }
  rewrite (renormalize_party e c _ _ N). settle N. reflexivity.
Qed.

(** Writing slot [idx] of four trimmed slots and normalising: the slot
    holds the trimmed text; past the fourth slot the write is cut off. *)
Lemma slot_written (idx : nat) (x : string) (l : list string) :
  List.length l = 4%nat -> Forall trimmed l ->
  normalizeStringArray (VArr (setAt idx (VStr x) (map VStr l))) (Some 4%nat) =
  replaceAt idx (trim x) l.
Proof.
  intros L T. destruct (four_slots l L) as (a & b & c & d & ->).
  inversion T as [|? ? Ta T1]; subst. inversion T1 as [|? ? Tb T2]; subst.
  inversion T2 as [|? ? Tc T3]; subst. inversion T3 as [|? ? Td _]; subst.
  unfold normalizeStringArray, arrayItems.
  destruct idx as [|[|[|[|i]]]]; cbn [setAt map firstn List.length Nat.sub repeat app replaceAt];
    rewrite ?text_VStr, ?Ta, ?Tb, ?Tc, ?Td; try reflexivity.
  destruct i; reflexivity.
Qed.

Lemma codeFormat_trimmed (s : string) : codeFormat s -> trimmed s.
Proof.
  intros [A _]. apply trim_no_space. revert A.
  apply allChars_weaken, upperAlnum_no_space.
Qed.

Lemma code_slot_written (idx : nat) (x : string) (l : list string) :
  List.length l = 4%nat -> Forall codeFormat l -> codeFormat x ->
  map (fun s => toUpperCase (trim (ToString (VStr s))))
      (normalizeStringArray (VArr (setAt idx (VStr x) (map VStr l))) (Some 4%nat)) =
  replaceAt idx x l.
Proof.
  intros L F X.
  rewrite slot_written;
    [|exact L | revert F; apply Forall_impl; intro; apply codeFormat_trimmed].
  rewrite (codeFormat_trimmed _ X).
  assert (G : Forall codeFormat (replaceAt idx x l)) by now apply replaceAt_Forall.
  induction G as [|s t Hs _ IH]; simpl; [reflexivity|].
  f_equal; [now apply codeFormat_stored | exact IH].
Qed.

Lemma partyMembers_shown (c : Character) :
  Normal c -> normalizePartyMembers (stringsValue (partyMembers c)) = partyMembers c.
Proof.
  intro N. destruct (normal_partyMembers _ N) as [L T].
  destruct (four_slots _ L) as (a & b & c' & d & E). rewrite E in *.
  inversion T as [|? ? Ta T1]; subst. inversion T1 as [|? ? Tb T2]; subst.
  inversion T2 as [|? ? Tc T3]; subst. inversion T3 as [|? ? Td _]; subst.
  unfold normalizePartyMembers, stringsValue.
  cbn [map List.length Nat.sub repeat app firstn].
  now rewrite !text_VStr, Ta, Tb, Tc, Td.
Qed.

End WithConversions.

End PartyFacts.

Section PartyProperties.

Import NumberFacts StringFacts RandomFacts NormalizeFacts SheetFacts CodeFacts CodeMoreFacts
       HandlerFacts ReferenceFacts PartyFacts.
Local Open Scope string_scope.

Context {cv : Conversions}.

(** X21.  On a normalised character, typing into a member slot changes
    only that slot, to the trimmed text, and typing into a code slot
    stores the typed code in [normalizePublicCode] form and rewrites the
    three other slots in that form too: after any code edit all four
    stored codes are upper-case letters and digits, at most 16.  A slot
    number past the fourth writes nothing. *)
Theorem party_roster_edits (e0 e : Entropy) (x : object) (st0 : State)
  (idx : nat) (typed : string) :
  let c := normalizeCharacter e0 x in
  let st := withCharacter st0 c in
  let shown := normalizePartyMemberCodes (stringsValue (partyMemberCodes c)) in
  editPartyMember e st idx typed =
    withCharacter st
      (withParty c (replaceAt idx (trim typed) (partyMembers c)) (partyMemberCodes c)) /\
  editPartyMemberCode e st idx typed =
    withCharacter st
      (withParty c (partyMembers c)
         (replaceAt idx (normalizePublicCode (VStr typed)) shown)) /\
  List.length (partyMemberCodes (character (editPartyMemberCode e st idx typed))) = 4%nat /\
  Forall codeFormat (partyMemberCodes (character (editPartyMemberCode e st idx typed))).
Proof.
  cbv zeta. pose proof (normalizeCharacter_Normal e0 x) as N.
  set (st := withCharacter st0 (normalizeCharacter e0 x)).
  assert (Ns : Normal (character st)) by exact N.
  destruct (normalizePartyMemberCodes_format
              (stringsValue (partyMemberCodes (character st)))) as [L F].
  assert (E : editPartyMemberCode e st idx typed =
    withCharacter st
      (withParty (character st) (partyMembers (character st))
         (replaceAt idx (normalizePublicCode (VStr typed))
            (normalizePartyMemberCodes (stringsValue (partyMemberCodes (character st))))))).
  { unfold editPartyMemberCode, onUpdateCharacter. cbv zeta.
    rewrite (update_partyMemberCodes e _ _ Ns).
    rewrite code_slot_written;
      [reflexivity | exact L | exact F | apply normalizePublicCode_format]. }
  split.
  - unfold editPartyMember, onUpdateCharacter. cbv zeta.
    rewrite (update_partyMembers e _ _ Ns), (partyMembers_shown _ Ns).
    rewrite slot_written; [reflexivity | apply Ns | apply Ns].
  - split; [exact E|]. rewrite E. cbn [character withCharacter].
    change (partyMemberCodes (withParty ?c ?m ?cd)) with cd. split.
    + now rewrite replaceAt_length.
    + apply replaceAt_Forall; [apply normalizePublicCode_format | exact F].
Qed.

End PartyProperties.

(** ** The list of characters and the cloud row *)

Module AppFacts.

Import NumberFacts StringFacts RandomFacts NormalizeFacts SheetFacts CodeFacts CodeMoreFacts
       HandlerFacts ReferenceFacts.
Local Open Scope string_scope.

Ltac read_literal :=
  repeat match goal with
  | |- context [prop ?o ?k] =>
      let v := eval cbv [prop lookup spread characterObject app objectLiteral rev
                         inputEntries spreadable String.eqb Ascii.eqb Bool.eqb]
               in (prop o k) in
      change (prop o k) with v
  end.

Lemma mapFrom_length {A B} (f : nat -> A -> B) (l : list A) (i : nat) :
  List.length (mapFrom i f l) = List.length l.
Proof.
  revert i. induction l as [|x l IH]; intro i; simpl; [reflexivity|]. now rewrite IH.
Qed.

Lemma mapFrom_Forall2 {A B} (R : A -> B -> Prop) (f : nat -> A -> B) (l : list A) (i : nat) :
  (forall j x, R x (f j x)) -> Forall2 R l (mapFrom i f l).
Proof.
  intro H. revert i. induction l as [|x l IH]; intro i; simpl; constructor; auto.
Qed.

Lemma mapFrom_Forall {A B} (P : B -> Prop) (f : nat -> A -> B) (l : list A) (i : nat) :
  (forall j x, In x l -> P (f j x)) -> Forall P (mapFrom i f l).
Proof.
  revert i. induction l as [|x l IH]; intros i H; simpl; constructor.
  - apply H. now left.
  - apply IH. intros j y Hy. apply H. now right.
Qed.

Lemma mapFrom_fixed {A} (f : nat -> A -> A) (l : list A) (i : nat) :
  (forall j x, In x l -> f j x = x) -> mapFrom i f l = l.
Proof.
  revert i. induction l as [|x l IH]; intros i H; simpl; [reflexivity|].
  rewrite H by now left. rewrite IH; [reflexivity|].
  intros j y Hy. apply H. now right.
Qed.

Lemma find_filter {A} (p q : A -> bool) (l : list A) :
  (forall x, p x = true -> q x = true) -> find p (filter q l) = find p l.
Proof.
  intro H. induction l as [|x l IH]; simpl; [reflexivity|].
  destruct (p x) eqn:P.
  - rewrite (H x P). simpl. now rewrite P.
  - destruct (q x); simpl; [now rewrite P|]; exact IH.
Qed.

Lemma filter_none {A} (q : A -> bool) (l : list A) :
  existsb q (filter (fun x => negb (q x)) l) = false.
Proof.
  induction l as [|x l IH]; simpl; [reflexivity|].
  destruct (q x) eqn:Q; simpl; [exact IH | now rewrite Q].
Qed.

Section WithConversions.
Context {cv : Conversions}.

(** A normal character read back with its own identifier and any value
    under the legacy key. *)
Lemma read_back (e : Entropy) (d : Character) (legacy : value) :
  Normal d ->
  normalizeCharacter e
    (spread (spreadable (VObj (characterObject d)))
       [("id", VStr (id d)); ("public_code", legacy)]) = d.
Proof.
  intro N. rewrite <- (normalizeCharacter_fixed e d N) at 3.
  unfold normalizeCharacter. cbv zeta. read_literal. reflexivity.
Qed.

Lemma row_read_back (e : Entropy) (r : CloudRow) :
  Normal (row_data r) -> row_id r = id (row_data r) ->
  characterOfRow e (rowValue r) = row_data r.
Proof.
  intros N E. unfold characterOfRow, rowValue. cbv zeta.
  change (get (VObj ?o) "data") with (lookup "data" o).
  change (get (VObj ?o) "id") with (lookup "id" o).
  change (get (VObj ?o) "public_code") with (lookup "public_code" o).
  cbn [lookup String.eqb Ascii.eqb Bool.eqb coalesce isNullish ToString].
  rewrite E. apply (read_back e _ _ N).
Qed.

Lemma preset_hp_30 (r : Race) :
  clamp (of_Z 30) (of_Z 0) (hp (getRaceStats (Race_text r))) = of_Z 30.
Proof. destruct r; reflexivity. Qed.

End WithConversions.

End AppFacts.

Section AppProperties.

Import NumberFacts StringFacts RandomFacts NormalizeFacts SheetFacts CodeFacts CodeMoreFacts
       HandlerFacts ReferenceFacts AppFacts.
Local Open Scope string_scope.

Context {cv : Conversions}.

(** X22.  An update of the selected character keeps the length of the
    list, leaves every character with another identifier as it is and
    every character normalised; an empty update, or any update while
    nothing is selected, changes nothing. *)
Theorem updateSelectedCharacter_frame (e0 : Entropy) (es : nat -> Entropy)
  (xs : list object) (selection : option string) (pg : Page) (updates : object) :
  let a := {| characters := map (normalizeCharacter e0) xs;
              selectedCharacterId := selection; page := pg |} in
  let a' := updateSelectedCharacter es a updates in
  List.length (characters a') = List.length (characters a) /\
  Forall2 (fun old new => isSelected a (id old) = true \/ new = old)
          (characters a) (characters a') /\
  Forall Normal (characters a') /\
  updateSelectedCharacter es a [] = a /\
  (if hasSelection a then True else a' = a).
Proof.
  cbv zeta.
  set (a := {| characters := map (normalizeCharacter e0) xs;
               selectedCharacterId := selection; page := pg |}).
  assert (NA : Forall Normal (characters a)).
  { apply Forall_forall. intros c H. apply in_map_iff in H.
    destruct H as (x & <- & _). apply normalizeCharacter_Normal. }
  unfold updateSelectedCharacter.
  destruct (hasSelection a) eqn:S; cbn [negb characters].
  - split; [apply mapFrom_length|]. split.
    { apply mapFrom_Forall2. intros j c.
      destruct (isSelected a (id c)); [now left | now right]. }
    split.
    { apply mapFrom_Forall. intros j c H.
      destruct (isSelected a (id c)); cbn [negb];
        [apply normalizeCharacter_Normal|].
      rewrite Forall_forall in NA. now apply NA. }
    split; [|exact I].
    rewrite mapFrom_fixed; [destruct a; reflexivity|].
    intros j c H. destruct (isSelected a (id c)); cbn [negb]; [|reflexivity].
    rewrite Forall_forall in NA. apply (normalizeCharacter_fixed (es j) c (NA c H)).
  - split; [reflexivity|]. split.
    { clear. induction (characters a); constructor; auto. }
    split; [exact NA|]. split; reflexivity.
Qed.

(** X23.  After [deleteCharacter] no character with that identifier is
    left, the others stay in order, and the selected character is gone
    exactly when it was the deleted one: a dangling selection is never
    left behind. *)
Theorem deleteCharacter_selection (a : App) (cid : string) :
  existsb (fun c => String.eqb (id c) cid) (characters (deleteCharacter a cid)) = false /\
  characters (deleteCharacter a cid) =
    filter (fun c => negb (String.eqb (id c) cid)) (characters a) /\
  selectedCharacter (deleteCharacter a cid) =
    (if isSelected a cid then None else selectedCharacter a).
Proof.
  split; [apply (filter_none (fun c => String.eqb (id c) cid))|].
  split; [reflexivity|].
  unfold selectedCharacter, deleteCharacter, hasSelection, isSelected.
  cbn [characters selectedCharacterId].
  destruct (selectedCharacterId a) as [s|]; [|reflexivity].
  destruct (String.eqb s cid) eqn:E; [reflexivity|].
  destruct (nonEmpty s); [|reflexivity].
  apply find_filter. intros c H. apply String.eqb_eq in H. subst s.
  now rewrite E.
Qed.

(** X24.  The character [createCharacter] builds carries the drawn
    identifier and public code, level 5, no spells, passives or equipment,
    empty banks and four empty party slots; its current HP and MP equal
    its maxima whenever the form's maxima are finite (otherwise the
    current values start from 30 and 200 while the maxima come from the
    race preset); and it is put first in the list. *)
Theorem createCharacter_fresh (e e' : Entropy) (a : App) (input : CreateInput) :
  let c := newCharacter e e' input in
  characters (createCharacter e e' a input) = c :: characters a /\
  id c = randomUUID e /\
  publicCode c = generatePublicCode e /\
  level c = LEVEL /\
  currentHp c = (if isFinite (in_maxHp input) then maxHp c else of_Z 30) /\
  currentMp c =
    (if isFinite (in_maxMp input) then maxMp c
     else clamp (of_Z 200) (of_Z 0) (maxMp c)) /\
  knownSpellIds c = [] /\ passiveIds c = [] /\
  equippedWeaponId c = VNull /\ equippedArmorId c = VNull /\
  personalBank c = emptyBank /\ partyBank c = emptyBank /\
  partyMembers c = [""; ""; ""; ""] /\ partyMemberCodes c = [""; ""; ""; ""].
Proof.
  cbv zeta. split; [reflexivity|].
  unfold newCharacter. cbv zeta. unfold normalizeCharacter. cbv zeta. read_literal.
  cbn [id publicCode level currentHp currentMp maxHp maxMp knownSpellIds passiveIds
       equippedWeaponId equippedArmorId personalBank partyBank partyMembers
       partyMemberCodes].
  split; [reflexivity|]. split.
  { change (text (coalesce (VStr (generatePublicCode e)) VUndefined))
      with (trim (generatePublicCode e)).
    destruct (generatePublicCode_stable e) as [G1 G2]. rewrite G2.
    unfold orElse. now rewrite G1. }
  split; [reflexivity|]. split.
  { unfold finiteNumber. destruct (isFinite (in_maxHp input)) eqn:F.
    - pose proof (clamp_within 0 9999 (in_maxHp input) ltac:(lia)) as W.
      rewrite (within_finite _ _ _ W). cbv iota.
      apply current_fixed; [exact W | apply W |].
      destruct (within_Fin _ _ _ W) as (q & -> & _). apply qle_refl.
    - change (isFinite (of_Z 30)) with true. cbv iota. apply preset_hp_30. }
  split.
  { unfold finiteNumber. destruct (isFinite (in_maxMp input)) eqn:F.
    - pose proof (clamp_within 0 9999 (in_maxMp input) ltac:(lia)) as W.
      rewrite (within_finite _ _ _ W). cbv iota.
      apply current_fixed; [exact W | apply W |].
      destruct (within_Fin _ _ _ W) as (q & -> & _). apply qle_refl.
    - reflexivity. }
  repeat split.
Qed.

(** X25.  The row sent for a normalised character is consistent and
    survives the way back: its [id], [name] and [public_code] columns are
    those of its document, the name is never empty, the code is never
    empty and has the [normalizePublicCode] form, the document differs
    from the character at most in name and public code, and reading the
    row back gives exactly the document. *)
Theorem upsert_row_round_trip (e0 e e' e'' : Entropy) (x : object) :
  let c := normalizeCharacter e0 x in
  let row := upsertPayload e e' c in
  row_id row = id (row_data row) /\
  row_name row = char_name (row_data row) /\
  row_public_code row = publicCode (row_data row) /\
  nonEmpty (row_name row) = true /\
  nonEmpty (row_public_code row) = true /\
  codeFormat (row_public_code row) /\
  row_data row = withNameAndCode c (row_name row) (row_public_code row) /\
  characterOfRow e'' (rowValue row) = row_data row.
Proof.
  cbv zeta. pose proof (normalizeCharacter_Normal e0 x) as N.
  set (c := normalizeCharacter e0 x) in *.
  set (safeName := orElse (text (VStr (char_name c))) "Unnamed").
  set (code := orElse (normalizePublicCode (VStr (publicCode c))) (generatePublicCode e)).
  assert (SN : nonEmpty safeName = true /\ trim safeName = safeName).
  { unfold safeName, orElse. destruct (nonEmpty (text (VStr (char_name c)))) eqn:E.
    - split; [exact E | apply text_trimmed].
    - split; reflexivity. }
  assert (CF : nonEmpty code = true /\ codeFormat code).
  { unfold code, orElse.
    destruct (nonEmpty (normalizePublicCode (VStr (publicCode c)))) eqn:E.
    - split; [exact E | apply normalizePublicCode_format].
    - destruct (generatePublicCode_format e) as [L H].
      destruct (generatePublicCode_stable e) as [G _]. split; [exact G|].
      split; [|rewrite L; lia]. revert H. apply allChars_weaken, hexUpper_alnum. }
  destruct SN as [SN1 SN2]. destruct CF as [CF1 CF2].
  assert (D : row_data (upsertPayload e e' c) = withNameAndCode c safeName code).
  { unfold upsertPayload. cbv zeta. cbn [row_data]. fold safeName. fold code.
    rewrite (renormalize_name_code e' c _ _ N), SN2, (codeFormat_stored _ CF2).
    unfold orElse. now rewrite CF1. }
  assert (ND : Normal (row_data (upsertPayload e e' c)))
    by (unfold upsertPayload; cbn [row_data]; apply normalizeCharacter_Normal).
  assert (RB : characterOfRow e'' (rowValue (upsertPayload e e' c)) =
               row_data (upsertPayload e e' c)).
  { apply row_read_back; [exact ND|]. rewrite D. reflexivity. }
  assert (R : row_id (upsertPayload e e' c) = id c /\
              row_name (upsertPayload e e' c) = safeName /\
              row_public_code (upsertPayload e e' c) = code) by (repeat split).
  destruct R as (R1 & R2 & R3). rewrite RB, R1, R2, R3, D.
  repeat split; try assumption; try reflexivity; apply CF2.
Qed.

End AppProperties.

(** * Witnesses of the properties that have hypotheses *)

Module ExtraWitnesses.

Import Sample.
Local Open Scope string_scope.

#[local] Existing Instance decimal.

Lemma known_spell_round_trip_witness :
  let x := [("knownSpellIds", VArr [VStr "s1"; VStr "s2"])] in
  let c := normalizeCharacter entropy x in
  let st := withCharacter (sheetOf [] bronze) c in
  (trim "s3" = "s3" /\ nonEmpty "s3" = true /\ includes (knownSpellIds c) "s3" = false) /\
  knownSpellIds (character (addSpellToCharacter entropy st "s3")) = "s3" :: knownSpellIds c /\
  removeSpellFromCharacter entropy (addSpellToCharacter entropy st "s3") "s3" = st.
Proof.
  cbv zeta. split; [repeat split|].
  apply (known_spell_round_trip entropy entropy entropy
           [("knownSpellIds", VArr [VStr "s1"; VStr "s2"])] (sheetOf [] bronze) "s3");
    reflexivity.
Defined.

Lemma known_spells_no_duplicates_witness :
  let x := [("knownSpellIds", VArr [VStr "s1"; VStr "s2"])] in
  let c := normalizeCharacter entropy x in
  let st := withCharacter (sheetOf [] bronze) c in
  (trim "s2" = "s2" /\ NoDup (knownSpellIds c)) /\
  NoDup (knownSpellIds (character (addSpellToCharacter entropy st "s2"))) /\
  NoDup (knownSpellIds (character (removeSpellFromCharacter entropy st "s2"))) /\
  includes (knownSpellIds (character (removeSpellFromCharacter entropy st "s2"))) "s2" = false.
Proof.
  cbv zeta.
  assert (D : NoDup (knownSpellIds
                (normalizeCharacter entropy [("knownSpellIds", VArr [VStr "s1"; VStr "s2"])]))).
  { change (NoDup ["s1"; "s2"]).
    constructor; [simpl; intros [H|[]]; discriminate H|].
    constructor; [simpl; intros []|]. constructor. }
  split; [split; [reflexivity | exact D]|].
  apply (known_spells_no_duplicates entropy entropy
           [("knownSpellIds", VArr [VStr "s1"; VStr "s2"])] (sheetOf [] bronze) "s2");
    [reflexivity | exact D].
Defined.

Lemma enum_matching_insensitive_witness :
  allChars isAscii " SiLvEr " = true /\
  normalizeRank (VStr (toUpperCase " SiLvEr ")) = normalizeRank (VStr " SiLvEr ") /\
  normalizeRank (VStr " SiLvEr ") = Silver.
Proof.
  split; [reflexivity|]. split; [|reflexivity].
  apply (enum_matching_insensitive " SiLvEr "). reflexivity.
Defined.

Lemma bank_edits_witness :
  let x := [("personalBank", bankOf2Bronze)] in
  let st := withCharacter (sheetOf [] bronze) (normalizeCharacter entropy x) in
  le (coinAt (bankOf st personalBankKey) bronze) (of_Z 9007199254740991) = true /\
  bumpBank entropy (bumpBank entropy st personalBankKey bronze (of_Z 1))
    personalBankKey bronze (of_Z (-1)) = st.
Proof.
  cbv zeta. split; [reflexivity|].
  apply (bank_edits entropy entropy entropy [("personalBank", bankOf2Bronze)]
           (sheetOf [] bronze) personalBankKey bronze NaN NaN).
  reflexivity.
Defined.

End ExtraWitnesses.
